(** * linkedin-crawler: a shallow embedding of the work-orchestration engine

    The development follows the Go packages of the repository:

    - [GoStrings]    the functions of package [strings] the program calls;
    - [Json]         the values [encoding/json] decodes into [interface{}];
    - [Models]       [internal/models] (profile, account, crawler record);
    - [Database]     [internal/database] (schema, email and token repositories);
    - [Storage]      [internal/storage] (file imports, the storage services);
    - [Crawler]      [internal/crawler] (pool, validator, query service,
                     profile extractor);
    - [Orchestrator] [internal/orchestrator] (retry machine, phase 2 sweep,
                     state manager) and [Utils] (signal handler).

    The other methods of the repositories and of the storage services are
    in [EmailRepository], [TokenRepository], [AccountRepository],
    [DBStorage] and [StateManager]; [Notions] holds the predicates the
    properties of the second part are stated with.

    Go strings are byte strings ([string]); Go [int] values are [Z]; [int32]
    counters wrap at 32 bits.  Stateful code is written in a small state
    monad over records that hold the store, the files and the position in
    the environment's answers (HTTP outcomes, random draws, waits).  Time is
    not modelled: every sleep is an event of the trace.  File-system and
    SQLite failures are not modelled: every write succeeds. *)

From Stdlib Require Import ZArith Ascii String List Bool Lia Floats Sorted.
From stdpp Require Import base option list gmap strings pretty.

Set Warnings "-inexact-float,-register-all".

(** ** A state monad *)

Definition State (S A : Type) : Type := S -> A * S.

Definition ret {S A : Type} (a : A) : State S A := fun s => (a, s).

Definition bind {S A B : Type} (m : State S A) (k : A -> State S B) : State S B :=
  fun s => let (a, s') := m s in k a s'.

Definition get {S : Type} : State S S := fun s => (s, s).

Definition gets {S A : Type} (f : S -> A) : State S A := fun s => (f s, s).

Definition modify {S : Type} (f : S -> S) : State S unit := fun s => (tt, f s).

Notation "'let*' x ':=' m 'in' k" := (bind m (fun x => k))
  (at level 10, x name, m at level 100, k at level 200).
Notation "'let*' ' p ':=' m 'in' k" := (bind m (fun x => match x with p => k end))
  (at level 10, p pattern, m at level 100, k at level 200).
Notation "m ';;' k" := (bind m (fun _ => k))
  (at level 100, k at level 200, right associativity).

(** What one iteration of a Go [for] loop decides: go on with the next
    iteration, [break], or [return] a value from the enclosing function. *)
Inductive Ctl (A : Type) : Type :=
| Continue : Ctl A
| Break : Ctl A
| Return : A -> Ctl A.
Arguments Continue {A}.
Arguments Break {A}.
Arguments Return {A} _.

(** [for i := lo; i < lo+n; i++ { body i }]: the result is [Some a] when the
    body returned [a], [None] when the loop ended or was left by [break]. *)
Fixpoint for_range {S A : Type} (n : nat) (i : Z) (body : Z -> State S (Ctl A))
  : State S (option A) :=
  match n with
  | O => ret None
  | S n' =>
      let* c := body i in
      match c with
      | Continue => for_range n' (i + 1)%Z body
      | Break => ret None
      | Return a => ret (Some a)
      end
  end.

(** [for _, x := range xs { body x }] *)
Fixpoint for_each {S A B : Type} (xs : list B) (body : B -> State S (Ctl A))
  : State S (option A) :=
  match xs with
  | [] => ret None
  | x :: xs' =>
      let* c := body x in
      match c with
      | Continue => for_each xs' body
      | Break => ret None
      | Return a => ret (Some a)
      end
  end.

(** [for _, x := range xs { acc = body acc x }] with no early exit. *)
Fixpoint foldM {S A B : Type} (body : A -> B -> State S A) (acc : A) (xs : list B)
  : State S A :=
  match xs with
  | [] => ret acc
  | x :: xs' => let* acc' := body acc x in foldM body acc' xs'
  end.

(** [m] relates every state to the state it leaves ([R] is a frame). *)
Definition preserves {S A : Type} (R : S -> S -> Prop) (m : State S A) : Prop :=
  forall s, R s (snd (m s)).

(** Every value [m] returns satisfies [P]. *)
Definition returns {S A : Type} (P : A -> Prop) (m : State S A) : Prop :=
  forall s, P (fst (m s)).

(** 32-bit wrap-around of [atomic.AddInt32]. *)
Definition wrap32 (z : Z) : Z := ((z + 2 ^ 31) mod 2 ^ 32 - 2 ^ 31)%Z.
Definition AddInt32 (x delta : Z) : Z := wrap32 (x + delta).

(** ** Package strings *)

Module GoStrings.

Definition LF : ascii := "010"%char.

(** [asciiSpace] of package strings: tab, LF, VT, FF, CR, space. *)
Definition asciiSpace (c : ascii) : bool :=
  match c with
  | "009"%char | "010"%char | "011"%char | "012"%char | "013"%char | " "%char => true
  | _ => false
  end.

(** [unicode.IsSpace] on the two-byte UTF-8 sequences: U+0085 and U+00A0. *)
Definition isSpace2 (b0 b1 : ascii) : bool :=
  match b0, b1 with
  | "194"%char, "133"%char | "194"%char, "160"%char => true
  | _, _ => false
  end.

(** [unicode.IsSpace] on the three-byte UTF-8 sequences: U+1680,
    U+2000..U+200A, U+2028, U+2029, U+202F, U+205F and U+3000. *)
Definition isSpace3 (b0 b1 b2 : ascii) : bool :=
  match b0, b1, b2 with
  | "225"%char, "154"%char, "128"%char => true
  | "226"%char, "128"%char, c =>
      let n := N_of_ascii c in
      ((128 <=? n) && (n <=? 138) || (n =? 168) || (n =? 169) || (n =? 175))%N
  | "226"%char, "129"%char, "159"%char => true
  | "227"%char, "128"%char, "128"%char => true
  | _, _, _ => false
  end.

(** Removes the runes at the head of [s] that [m2], [m3] or [asciiSpace]
    accept; a byte that starts no accepted rune stops the scan. *)
Fixpoint trimRunes (m2 : ascii -> ascii -> bool)
    (m3 : ascii -> ascii -> ascii -> bool) (s : string) : string :=
  match s with
  | EmptyString => s
  | String c s1 =>
      if asciiSpace c then trimRunes m2 m3 s1
      else match s1 with
           | EmptyString => s
           | String c1 s2 =>
               if m2 c c1 then trimRunes m2 m3 s2
               else match s2 with
                    | EmptyString => s
                    | String c2 s3 =>
                        if m3 c c1 c2 then trimRunes m2 m3 s3 else s
                    end
           end
  end.

(** [strings.TrimSpace]: leading, then trailing white space as Unicode
    defines it.  The trailing scan reads the bytes from the end, so the
    sequences are matched in reverse. *)
Definition TrimSpace (s : string) : string :=
  let s1 := trimRunes isSpace2 isSpace3 s in
  String.rev
    (trimRunes (fun b1 b0 => isSpace2 b0 b1) (fun b2 b1 b0 => isSpace3 b0 b1 b2)
       (String.rev s1)).

(** [strings.HasPrefix s prefix] *)
Definition HasPrefix (s prefix : string) : bool := String.prefix prefix s.

(** [strings.TrimPrefix s prefix] *)
Definition TrimPrefix (s prefix : string) : string :=
  if HasPrefix s prefix
  then String.substring (String.length prefix)
         (String.length s - String.length prefix) s
  else s.

(** [strings.Contains s substr] *)
Fixpoint Contains (s substr : string) : bool :=
  String.prefix substr s
  || match s with
     | EmptyString => false
     | String _ s' => Contains s' substr
     end.

(** [strings.Split s sep] for a one-byte separator (the program splits on
    a line feed only): n separators give n+1 fields. *)
Fixpoint Split (s : string) (sep : ascii) : list string :=
  match s with
  | EmptyString => [EmptyString]
  | String c s' =>
      let r := Split s' sep in
      if Ascii.eqb c sep then EmptyString :: r
      else match r with
           | x :: xs => String c x :: xs
           | [] => [String c EmptyString]
           end
  end.

(** The text before and after the first [sep] of [s], if there is one. *)
Fixpoint Cut (s : string) (sep : ascii) : option (string * string) :=
  match s with
  | EmptyString => None
  | String c s' =>
      if Ascii.eqb c sep then Some (EmptyString, s')
      else match Cut s' sep with
           | Some (a, b) => Some (String c a, b)
           | None => None
           end
  end.

(** [strings.SplitN s sep n] for a one-byte separator and [n >= 0]: at
    most [n] fields, the last one holding the unsplit rest. *)
Fixpoint SplitN (s : string) (sep : ascii) (n : nat) : list string :=
  match n with
  | O => []
  | S O => [s]
  | S n' =>
      match Cut s sep with
      | None => [s]
      | Some (a, b) => a :: SplitN b sep n'
      end
  end.

End GoStrings.

(** ** Package encoding/json: decoded values *)

Module Json.

(** What [json.Unmarshal] stores in an [interface{}]: [nil], [bool],
    [float64], [string], [[]interface{}] and [map[string]interface{}]. *)
Inductive Value : Type :=
| JNull : Value
| JBool : bool -> Value
| JNumber : float -> Value
| JString : string -> Value
| JArray : list Value -> Value
| JObject : gmap string Value -> Value.

(** The result of [json.Unmarshal(body, &data)] for
    [data map[string]interface{}]: a syntax error and a top-level value
    that is no object are errors, [null] leaves the map [nil]. *)
Definition Unmarshal_map (decoded : option Value) : option (gmap string Value) :=
  match decoded with
  | Some (JObject m) => Some m
  | Some JNull => Some ∅
  | _ => None
  end.

End Json.

(** ** Package models *)

Module Models.

Record ProfileData : Type := {
  User : string;
  LinkedInURL : string;
  ConnectionCount : string;
  Location : string
}.

Definition emptyProfile : ProfileData :=
  {| User := ""; LinkedInURL := ""; ConnectionCount := ""; Location := "" |}.

Record Account : Type := { Email : string; Password : string }.

Record CrawlerStats : Type := {
  Processed : Z; Success : Z; Failed : Z; TokenErrors : Z
}.

(** The fields of [LinkedInCrawler] the pool and the retry machine use.
    The HTTP client, the rate-limit channel and the semaphore belong to
    the environment. *)
Record LinkedInCrawler : Type := {
  Tokens : list string;
  InvalidTokens : gmap string bool;
  Stats : CrawlerStats;
  AllTokensFailed : bool;
  TokensFilePath : string;
  ActiveRequests : Z
}.

(** [lc.InvalidTokens[token]]: a missing key reads as [false]. *)
Definition isInvalid (lc : LinkedInCrawler) (token : string) : bool :=
  default false (InvalidTokens lc !! token).

Definition set_InvalidTokens (m : gmap string bool) (lc : LinkedInCrawler) :=
  {| Tokens := Tokens lc; InvalidTokens := m; Stats := Stats lc;
     AllTokensFailed := AllTokensFailed lc; TokensFilePath := TokensFilePath lc;
     ActiveRequests := ActiveRequests lc |}.

Definition set_AllTokensFailed (b : bool) (lc : LinkedInCrawler) :=
  {| Tokens := Tokens lc; InvalidTokens := InvalidTokens lc; Stats := Stats lc;
     AllTokensFailed := b; TokensFilePath := TokensFilePath lc;
     ActiveRequests := ActiveRequests lc |}.

Definition set_Stats (st : CrawlerStats) (lc : LinkedInCrawler) :=
  {| Tokens := Tokens lc; InvalidTokens := InvalidTokens lc; Stats := st;
     AllTokensFailed := AllTokensFailed lc; TokensFilePath := TokensFilePath lc;
     ActiveRequests := ActiveRequests lc |}.

Definition set_ActiveRequests (n : Z) (lc : LinkedInCrawler) :=
  {| Tokens := Tokens lc; InvalidTokens := InvalidTokens lc; Stats := Stats lc;
     AllTokensFailed := AllTokensFailed lc; TokensFilePath := TokensFilePath lc;
     ActiveRequests := n |}.

Record Config : Type := {
  MaxConcurrency : Z;
  RequestTimeout : Z;
  EmailsFilePath : string;
  TokensFilePathCfg : string;
  AccountsFilePath : string;
  MinTokens : Z;
  MaxTokens : Z;
  SleepDuration : Z
}.

End Models.

(** ** Package database *)

Module Database.

(** [type EmailStatus string] with its five constants. *)
Inductive EmailStatus : Type :=
| EmailStatusPending
| EmailStatusSuccessWithData
| EmailStatusSuccessNoData
| EmailStatusFailed
| EmailStatusPermanentFailed.

Global Instance EmailStatus_eq_dec : EqDecision EmailStatus.
Proof. solve_decision. Defined.

(** A row of table [emails]; the two timestamps are left out.  The four
    profile columns and [last_error] are NULL ([None]) until written. *)
Record EmailRow : Type := {
  e_id : Z;
  e_email : string;
  e_status : EmailStatus;
  e_profile_user : option string;
  e_profile_url : option string;
  e_profile_location : option string;
  e_profile_connections : option string;
  e_retry_count : Z;
  e_last_error : option string
}.

(** A row of table [tokens] (timestamps left out). *)
Record TokenRow : Type := {
  t_id : Z;
  t_token : string;
  t_is_valid : bool;
  t_failure_count : Z
}.

(** The tables, each in [id] order, and the AUTOINCREMENT counters. *)
Record DB : Type := {
  emails : list EmailRow;
  emails_seq : Z;
  tokens : list TokenRow;
  tokens_seq : Z
}.

Definition set_emails (rows : list EmailRow) (seq : Z) (db : DB) : DB :=
  {| emails := rows; emails_seq := seq; tokens := tokens db; tokens_seq := tokens_seq db |}.

Definition set_tokens (rows : list TokenRow) (seq : Z) (db : DB) : DB :=
  {| emails := emails db; emails_seq := emails_seq db; tokens := rows; tokens_seq := seq |}.

(** [InitSchema]: drops the tables and creates them empty. *)
Definition InitSchema : DB :=
  {| emails := []; emails_seq := 0; tokens := []; tokens_seq := 0 |}.

(** [INSERT OR IGNORE INTO emails (email) VALUES (?)]: the UNIQUE column
    rejects a second row with the same text; a new row takes the next id
    and the column defaults. *)
Definition insertEmail (email : string) (db : DB) : DB :=
  if bool_decide (email ∈ map e_email (emails db)) then db
  else
    let id := (emails_seq db + 1)%Z in
    set_emails
      (emails db ++
         [{| e_id := id; e_email := email; e_status := EmailStatusPending;
             e_profile_user := None; e_profile_url := None;
             e_profile_location := None; e_profile_connections := None;
             e_retry_count := 0; e_last_error := None |}])
      id db.

(** [ImportEmails] *)
Definition ImportEmails (emails : list string) (db : DB) : DB :=
  fold_left
    (fun db email =>
       let email := GoStrings.TrimSpace email in
       if negb (String.eqb email "") && negb (GoStrings.HasPrefix email "#")
       then insertEmail email db
       else db)
    emails db.

(** [LIMIT n] *)
Definition sqlLimit {A : Type} (limit : Z) (rows : list A) : list A :=
  if (0 <? limit)%Z then firstn (Z.to_nat limit) rows else rows.

(** [GetPendingEmails]: [WHERE status = 'pending' ORDER BY id], with a
    LIMIT when [limit > 0]. *)
Definition GetPendingEmails (limit : Z) (db : DB) : list string :=
  sqlLimit limit
    (map e_email
       (filter (fun r => e_status r = EmailStatusPending) (emails db))).

(** [UPDATE emails SET ... WHERE email = ?] *)
Definition updateEmail (email : string) (f : EmailRow -> EmailRow) (db : DB) : DB :=
  set_emails
    (map (fun r => if String.eqb (e_email r) email then f r else r) (emails db))
    (emails_seq db) db.

(** [UpdateEmailStatus] *)
Definition UpdateEmailStatus (email : string) (status : EmailStatus) (db : DB) : DB :=
  updateEmail email
    (fun r =>
       {| e_id := e_id r; e_email := e_email r; e_status := status;
          e_profile_user := e_profile_user r; e_profile_url := e_profile_url r;
          e_profile_location := e_profile_location r;
          e_profile_connections := e_profile_connections r;
          e_retry_count := e_retry_count r; e_last_error := e_last_error r |})
    db.

(** [UpdateEmailWithProfile] *)
Definition UpdateEmailWithProfile (email : string) (profile : Models.ProfileData)
    (db : DB) : DB :=
  updateEmail email
    (fun r =>
       {| e_id := e_id r; e_email := e_email r;
          e_status := EmailStatusSuccessWithData;
          e_profile_user := Some (Models.User profile);
          e_profile_url := Some (Models.LinkedInURL profile);
          e_profile_location := Some (Models.Location profile);
          e_profile_connections := Some (Models.ConnectionCount profile);
          e_retry_count := e_retry_count r; e_last_error := e_last_error r |})
    db.

(** [IncrementRetryCount] *)
Definition IncrementRetryCount (email lastError : string) (db : DB) : DB :=
  updateEmail email
    (fun r =>
       {| e_id := e_id r; e_email := e_email r; e_status := e_status r;
          e_profile_user := e_profile_user r; e_profile_url := e_profile_url r;
          e_profile_location := e_profile_location r;
          e_profile_connections := e_profile_connections r;
          e_retry_count := (e_retry_count r + 1)%Z;
          e_last_error := Some lastError |})
    db.

Definition isRemaining (r : EmailRow) : bool :=
  match e_status r with
  | EmailStatusPending | EmailStatusFailed => true
  | _ => false
  end.

(** Stable insertion by [retry_count]: on rows already in [id] order this
    is [ORDER BY retry_count ASC, id ASC]. *)
Fixpoint insertByRetry (r : EmailRow) (rows : list EmailRow) : list EmailRow :=
  match rows with
  | [] => [r]
  | r' :: rows' =>
      if (e_retry_count r' <=? e_retry_count r)%Z
      then r' :: insertByRetry r rows'
      else r :: rows
  end.

Definition orderByRetry (rows : list EmailRow) : list EmailRow :=
  fold_left (fun acc r => insertByRetry r acc) rows [].

(** [GetRemainingEmails] *)
Definition GetRemainingEmails (db : DB) : list string :=
  map e_email (orderByRetry (List.filter isRemaining (emails db))).

(** [CountRemainingEmails] *)
Definition CountRemainingEmails (db : DB) : Z :=
  Z.of_nat (length (List.filter isRemaining (emails db))).

(** [AddTokens]: [INSERT OR IGNORE INTO tokens (token) VALUES (?)] for
    every element. *)
Definition insertToken (token : string) (db : DB) : DB :=
  if bool_decide (token ∈ map t_token (tokens db)) then db
  else
    let id := (tokens_seq db + 1)%Z in
    set_tokens
      (tokens db ++
         [{| t_id := id; t_token := token; t_is_valid := true; t_failure_count := 0 |}])
      id db.

Definition AddTokens (tokens : list string) (db : DB) : DB :=
  fold_left (fun db token => insertToken token db) tokens db.

(** [GetValidTokens]: [WHERE is_valid = 1], ordered by
    [COALESCE(last_used_at, created_at)]; no statement of the program sets
    [last_used_at] ([MarkTokenAsUsed] has no caller), so this is the order
    of creation. *)
Definition GetValidTokens (db : DB) : list string :=
  map t_token (List.filter t_is_valid (tokens db)).

(** [InvalidateToken] *)
Definition InvalidateToken (token : string) (db : DB) : DB :=
  set_tokens
    (map (fun r =>
            if String.eqb (t_token r) token
            then {| t_id := t_id r; t_token := t_token r; t_is_valid := false;
                    t_failure_count := t_failure_count r |}
            else r)
       (tokens db))
    (tokens_seq db) db.

End Database.

(** ** Package storage *)

Module Storage.

(** The emails [ImportEmailsFromFile] hands to the repository, from the
    content of the file. *)
Definition emailsOfFile (content : string) : list string :=
  let lines := GoStrings.Split content GoStrings.LF in
  fold_left
    (fun emails line =>
       let line := GoStrings.TrimSpace line in
       let email :=
         (* Handle CSV format *)
         if GoStrings.Contains line ","
         then GoStrings.TrimSpace (nth 1 (GoStrings.SplitN line ","%char 2) "")
         else line in
       if negb (String.eqb email "") && negb (GoStrings.HasPrefix email "#")
       then emails ++ [email]
       else emails)
    lines [].

(** [ImportEmailsFromFile], on the content [ioutil.ReadFile] returned. *)
Definition ImportEmailsFromFile (content : string) (db : Database.DB) : Database.DB :=
  Database.ImportEmails (emailsOfFile content) db.

(** [ImportTokensFromFile], on the content of the file. *)
Definition ImportTokensFromFile (content : string) (db : Database.DB) : Database.DB :=
  let lines := GoStrings.Split content GoStrings.LF in
  let tokens :=
    fold_left
      (fun tokens line =>
         let token := GoStrings.TrimSpace line in
         if negb (String.eqb token "")
         then tokens ++ [GoStrings.TrimPrefix token "Bearer "]
         else tokens)
      lines [] in
  Database.AddTokens tokens db.

(** A storage service ([EmailStorage], [TokenStorage]): its [dbStorage]
    pointer is [nil] until [SetDBStorage] is called. *)
Record Service : Type := { dbStorageSet : bool }.

Definition NewEmailStorage : Service := {| dbStorageSet := false |}.
Definition NewTokenStorage : Service := {| dbStorageSet := false |}.
Definition SetDBStorage (s : Service) : Service := {| dbStorageSet := true |}.

Inductive error : Type :=
| ErrNotInitialized   (* "database storage not initialized" *)
| ErrNoTokens         (* "no tokens to validate" *)
| ErrAllTokensFailed  (* "all tokens have failed" *)
| ErrContext          (* ctx.Err() *)
| ErrTransport        (* the error of http.Client.Do *)
| ErrHTTP (status : Z)
| ErrReadBody
| ErrOther.

(** [EmailStorage.LoadEmailsFromFile] *)
Definition LoadEmailsFromFile (es : Service) (db : Database.DB)
  : list string + error :=
  if dbStorageSet es then inl (Database.GetRemainingEmails db)
  else inr ErrNotInitialized.

(** [EmailStorage.WriteEmailsToFile]: "is now a no-op as we use database". *)
Definition WriteEmailsToFile {S : Type} (es : Service) (filePath : string)
    (emails : list string) : State S (option error) :=
  ret None.

(** [TokenStorage.LoadTokensFromFile] *)
Definition LoadTokensFromFile (ts : Service) (db : Database.DB)
  : list string + error :=
  if dbStorageSet ts then inl (Database.GetValidTokens db)
  else inr ErrNotInitialized.

(** [TokenStorage.RemoveTokenFromFile] *)
Definition RemoveTokenFromFile (ts : Service) (tokenToRemove : string)
    (db : Database.DB) : option error * Database.DB :=
  if dbStorageSet ts then (None, Database.InvalidateToken tokenToRemove db)
  else (Some ErrNotInitialized, db).

End Storage.

(** ** The environment and the observable state *)

(** The two architectures whose float-to-int conversion is modelled. *)
Inductive GOARCH : Type := amd64 | arm64.

(** How one [lc.Client.Do(req)] ends: with an error and no response, or
    with a status and a body ([None]: reading the body failed). *)
Inductive HttpOutcome : Type :=
| TransportError : HttpOutcome
| HttpResponse : Z -> option string -> HttpOutcome.

(** Everything the program does not decide: the architecture, the JSON
    syntax decoder of [encoding/json], the outcome of the n-th HTTP request,
    whether the n-th wait (rate-limit channel, semaphore) ended before the
    request context did, and the n-th random draw. *)
Record Env : Type := {
  goarch : GOARCH;
  json_decode : string -> option Json.Value;
  http_Do : nat -> string -> string -> HttpOutcome;
  wait_ok : nat -> bool;
  rand_draw : nat -> nat
}.

(** The lines [LogLine] receives, by format string. *)
Inductive LogMsg : Type :=
| LogAllTokensFailed (email : string)
| LogRetry (attempt maxRetries : Z) (email : string) (statusCode : Z) (snippet : string)
| LogHasProfile (email user url : string)
| LogNoProfile (email : string)
| LogWait (delayMs nextAttempt : Z) (email : string)
| LogFailed (email : string) (maxRetries : Z)
| LogKept (email : string).

Inductive Event : Type :=
| EvHTTP (email token : string)        (* a GET to the enrichment endpoint *)
| EvSleep (ms : Z)                     (* time.Sleep *)
| EvLog (msg : LogMsg)                 (* LogLine *)
| EvRemoveTokenFromFile (token : string)   (* a call of RemoveTokenFromFile *)
| EvExit (code : Z).                   (* os.Exit *)

(** The store, the files, the trace of events, and how many answers of the
    environment were consumed. *)
Record IO : Type := {
  n_http : nat;
  n_wait : nat;
  n_rand : nat;
  trace : list Event;
  db : Database.DB;
  hit_txt : string;        (* the content of the output file *)
  emails_txt : string      (* the content of the file at config.EmailsFilePath *)
}.

Definition set_trace (t : list Event) (io : IO) : IO :=
  {| n_http := n_http io; n_wait := n_wait io; n_rand := n_rand io;
     trace := t; db := db io; hit_txt := hit_txt io; emails_txt := emails_txt io |}.

Definition set_db (d : Database.DB) (io : IO) : IO :=
  {| n_http := n_http io; n_wait := n_wait io; n_rand := n_rand io;
     trace := trace io; db := d; hit_txt := hit_txt io; emails_txt := emails_txt io |}.

Definition set_hit_txt (s : string) (io : IO) : IO :=
  {| n_http := n_http io; n_wait := n_wait io; n_rand := n_rand io;
     trace := trace io; db := db io; hit_txt := s; emails_txt := emails_txt io |}.

Definition emit (e : Event) : State IO unit :=
  modify (fun io => set_trace (trace io ++ [e]) io).

Definition Sleep (ms : Z) : State IO unit := emit (EvSleep ms).

Definition LogLine (msg : LogMsg) : State IO unit := emit (EvLog msg).

Definition onDB (f : Database.DB -> Database.DB) : State IO unit :=
  modify (fun io => set_db (f (db io)) io).

(** ** Package crawler *)

Module Crawler.
Import Models.

(** The crawler a method receives by pointer, next to the rest of the
    observable state. *)
Record QS : Type := { q_lc : LinkedInCrawler; q_io : IO }.

Definition liftIO {A : Type} (m : State IO A) : State QS A :=
  fun qs => let (a, io') := m (q_io qs) in (a, {| q_lc := q_lc qs; q_io := io' |}).

Definition modifyLC (f : LinkedInCrawler -> LinkedInCrawler) : State QS unit :=
  modify (fun qs => {| q_lc := f (q_lc qs); q_io := q_io qs |}).

(** [type QueryService] and [type ValidatorService]: both are built with
    [storage.NewTokenStorage()] and nothing calls [SetDBStorage] on it. *)
Record QueryService : Type := { qs_tokenStorage : Storage.Service }.
Record ValidatorService : Type := { vs_tokenStorage : Storage.Service }.

Definition NewQueryService : QueryService :=
  {| qs_tokenStorage := Storage.NewTokenStorage |}.
Definition NewValidatorService : ValidatorService :=
  {| vs_tokenStorage := Storage.NewTokenStorage |}.

(** [crawler.New], as far as the pool goes: an empty pool. *)
Definition New (config : Config) : LinkedInCrawler :=
  {| Tokens := []; InvalidTokens := ∅;
     Stats := {| Processed := 0; Success := 0; Failed := 0; TokenErrors := 0 |};
     AllTokensFailed := false; TokensFilePath := TokensFilePathCfg config;
     ActiveRequests := 0 |}.

(** [io.LimitReader(resp.Body, n)]: at most [n] bytes. *)
Fixpoint limitRead (n : Z) (s : string) : string :=
  match s with
  | EmptyString => EmptyString
  | String c s' => if (n <=? 0)%Z then EmptyString else String c (limitRead (n - 1) s')
  end.

(** [int(val)] for [val float64]: the integer part when it fits a 64-bit
    [int].  Otherwise the result depends on the architecture: amd64 gives
    the lowest integer (also for NaN), arm64 the nearest bound (0 for NaN). *)
Definition float64_intpart (f : float) : option Z :=
  match Prim2SF f with
  | S754_zero _ => Some 0%Z
  | S754_finite s m e =>
      let a := if (0 <=? e)%Z then Z.shiftl (Z.pos m) e else Z.shiftr (Z.pos m) (- e) in
      Some (if s then (- a)%Z else a)
  | _ => None
  end.

Definition minInt64 : Z := (- 2 ^ 63)%Z.
Definition maxInt64 : Z := (2 ^ 63 - 1)%Z.

Definition int_of_float64 (arch : GOARCH) (f : float) : Z :=
  match float64_intpart f with
  | Some z =>
      if (minInt64 <=? z)%Z && (z <=? maxInt64)%Z then z
      else match arch with
           | amd64 => minInt64
           | arm64 => if (z <? 0)%Z then minInt64 else maxInt64
           end
  | None =>
      match arch, Prim2SF f with
      | amd64, _ => minInt64
      | arm64, S754_infinity true => minInt64
      | arm64, S754_infinity false => maxInt64
      | arm64, _ => 0%Z
      end
  end.

(** [fmt.Sprintf("%d", n)] *)
Definition Sprintf_d (n : Z) : string := pretty n.

Section WithEnv.
Variable env : Env.

(** *** token_manager.go: the pool *)

(** [r.Intn(n)] on a source seeded with the clock. *)
Definition Intn (n : nat) : State IO nat :=
  fun io =>
    (rand_draw env (n_rand io) mod n,
     {| n_http := n_http io; n_wait := n_wait io; n_rand := S (n_rand io);
        trace := trace io; db := db io; hit_txt := hit_txt io;
        emails_txt := emails_txt io |}).

(** The slice [validTokens] both [GetToken] and [GetValidTokenCount]
    build. *)
Definition validTokens (lc : LinkedInCrawler) : list string :=
  List.filter (fun token => negb (isInvalid lc token)) (Tokens lc).

(** [GetToken] *)
Definition GetToken : State QS string :=
  let* lc := gets q_lc in
  let validTokens := validTokens lc in
  if (length validTokens =? 0)%nat then
    match Tokens lc with
    | t0 :: _ => ret t0
    | [] => ret EmptyString
    end
  else
    let* idx := liftIO (Intn (length validTokens)) in
    ret (nth idx validTokens EmptyString).

(** [AreAllTokensFailed] *)
Definition AreAllTokensFailed : State QS bool :=
  gets (fun qs => AllTokensFailed (q_lc qs)).

(** [MarkTokenAsInvalid] *)
Definition MarkTokenAsInvalid (token : string) : State QS unit :=
  modifyLC (fun lc => set_InvalidTokens (<[token := true]> (InvalidTokens lc)) lc).

(** [SetAllTokensFailed] *)
Definition SetAllTokensFailed (failed : bool) : State QS unit :=
  modifyLC (set_AllTokensFailed failed).

(** [GetValidTokenCount] *)
Definition GetValidTokenCount : State QS Z :=
  gets (fun qs => Z.of_nat (length (validTokens (q_lc qs)))).

(** [CheckIfAllTokensInvalid] *)
Definition CheckIfAllTokensInvalid : State QS bool :=
  let* lc := gets q_lc in
  let invalidCount :=
    Z.of_nat (length (List.filter (fun token => isInvalid lc token) (Tokens lc))) in
  if (Z.of_nat (length (Tokens lc)) <=? invalidCount)%Z then
    modifyLC (set_AllTokensFailed true);; ret true
  else ret false.

(** *** profile_extractor.go *)

(** [ExtractProfileData] *)
Definition ExtractProfileData (responseJSON : string)
  : ProfileData * option Storage.error :=
  let profile := emptyProfile in
  match Json.Unmarshal_map (json_decode env responseJSON) with
  | None => (profile, Some Storage.ErrOther)
  | Some data =>
      match data !! "persons" with
      | Some (Json.JArray (p0 :: _)) =>
          match p0 with
          | Json.JObject p =>
              let profile :=
                match p !! "displayName" with
                | Some (Json.JString val) =>
                    {| User := val; LinkedInURL := LinkedInURL profile;
                       ConnectionCount := ConnectionCount profile;
                       Location := Location profile |}
                | _ => profile
                end in
              let profile :=
                match p !! "linkedInUrl" with
                | Some (Json.JString val) =>
                    {| User := User profile; LinkedInURL := val;
                       ConnectionCount := ConnectionCount profile;
                       Location := Location profile |}
                | _ => profile
                end in
              let profile :=
                match p !! "connectionCount" with
                | Some (Json.JString val) =>
                    {| User := User profile; LinkedInURL := LinkedInURL profile;
                       ConnectionCount := val; Location := Location profile |}
                | Some (Json.JNumber val) =>
                    {| User := User profile; LinkedInURL := LinkedInURL profile;
                       ConnectionCount := Sprintf_d (int_of_float64 (goarch env) val);
                       Location := Location profile |}
                | _ => profile
                end in
              let profile :=
                match p !! "location" with
                | Some (Json.JString val) =>
                    {| User := User profile; LinkedInURL := LinkedInURL profile;
                       ConnectionCount := ConnectionCount profile; Location := val |}
                | _ => profile
                end in
              (profile, None)
          | _ => (profile, None)
          end
      | _ => (profile, None)
      end
  end.

(** The line [WriteProfileToFile] formats with ["%s|%s|%s|%s|%s\n"]. *)
Definition profileLine (email : string) (profile : ProfileData) : string :=
  email +:+ "|" +:+ User profile +:+ "|" +:+ LinkedInURL profile +:+ "|" +:+
  Location profile +:+ "|" +:+ ConnectionCount profile +:+ String GoStrings.LF "".

(** [WriteProfileToFile]: the line is appended, flushed and synced. *)
Definition WriteProfileToFile (email : string) (profile : ProfileData)
  : State IO unit :=
  modify (fun io => set_hit_txt (hit_txt io +:+ profileLine email profile) io).

(** *** query.go *)

(** What [doQueryProfile] returns: [hasProfile], [body] (nil reads as
    the empty string), [statusCode], [err]. *)
Definition QueryResult : Type := bool * string * Z * option Storage.error.

Definition hasProfileOf (r : QueryResult) : bool :=
  let '(hasProfile, _, _, _) := r in hasProfile.

Definition bodyOf (r : QueryResult) : string :=
  let '(_, body, _, _) := r in body.

Definition statusCodeOf (r : QueryResult) : Z :=
  let '(_, _, statusCode, _) := r in statusCode.

(** A wait that the request context can end: on the rate-limit channel
    or for the semaphore. *)
Definition waitCtx : State IO bool :=
  fun io =>
    (wait_ok env (n_wait io),
     {| n_http := n_http io; n_wait := S (n_wait io); n_rand := n_rand io;
        trace := trace io; db := db io; hit_txt := hit_txt io;
        emails_txt := emails_txt io |}).

(** What [doQueryProfile] returns for an outcome of [lc.Client.Do]. *)
Definition resultOf (outcome : HttpOutcome) : QueryResult :=
  match outcome with
  | TransportError => (false, EmptyString, 0%Z, Some Storage.ErrTransport)
  | HttpResponse statusCode respBody =>
      if negb (statusCode =? 200)%Z then
        (false, EmptyString, statusCode, Some (Storage.ErrHTTP statusCode))
      else
        match respBody with
        | None => (false, EmptyString, statusCode, Some Storage.ErrReadBody)
        | Some b =>
            let body := limitRead (2 ^ 20) b in
            let hasProfile := GoStrings.Contains body "displayName" in
            (hasProfile, body, statusCode, None)
        end
  end.

(** [doQueryProfile]: the request is the next one the environment answers. *)
Definition doQueryProfile (email token : string) : State IO QueryResult :=
  fun io =>
    (resultOf (http_Do env (n_http io) email token),
     {| n_http := S (n_http io); n_wait := n_wait io; n_rand := n_rand io;
        trace := trace io ++ [EvHTTP email token]; db := db io;
        hit_txt := hit_txt io; emails_txt := emails_txt io |}).

(** [DoQueryProfile] (the exported method) *)
Definition DoQueryProfile (email token : string) : State IO QueryResult :=
  doQueryProfile email token.

(** A call of [tokenStorage.RemoveTokenFromFile]. *)
Definition removeTokenFromFile (ts : Storage.Service) (token : string)
  : State IO (option Storage.error) :=
  emit (EvRemoveTokenFromFile token);;
  fun io =>
    let (err, d) := Storage.RemoveTokenFromFile ts token (db io) in
    (err, set_db d io).

Definition addActiveRequests (delta : Z) : State QS unit :=
  modifyLC (fun lc => set_ActiveRequests (AddInt32 (ActiveRequests lc) delta) lc).

(** The statements of [QueryProfileWithRetryLogic] that follow the
    admission: the first query and the switch of credential on 429, 401
    and 424. *)
Definition queryWithSwitch (qs : QueryService) (email : string) : State QS QueryResult :=
  let* token := GetToken in
  let* '(hasProfile, body, statusCode, err) := liftIO (doQueryProfile email token) in
  if (statusCode =? 429)%Z then
    let* activeTokenCount := GetValidTokenCount in
    if (1 <? activeTokenCount)%Z then
      MarkTokenAsInvalid token;;
      let* newToken := GetToken in
      if negb (String.eqb newToken "") && negb (String.eqb newToken token)
      then liftIO (doQueryProfile email newToken)
      else ret (hasProfile, body, statusCode, err)
    else
      liftIO (Sleep 1000);;
      liftIO (doQueryProfile email token)
  else if (statusCode =? 401)%Z || (statusCode =? 424)%Z then
    MarkTokenAsInvalid token;;
    let* _ := liftIO (removeTokenFromFile (qs_tokenStorage qs) token) in
    let* all := CheckIfAllTokensInvalid in
    if all then ret (false, EmptyString, statusCode, Some Storage.ErrAllTokensFailed)
    else
      let* newToken := GetToken in
      if negb (String.eqb newToken "")
      then liftIO (doQueryProfile email newToken)
      else ret (hasProfile, body, statusCode, err)
  else ret (hasProfile, body, statusCode, err).

(** [QueryProfileWithRetryLogic] *)
Definition QueryProfileWithRetryLogic (qs : QueryService) (email : string)
  : State QS QueryResult :=
  let* failed := AreAllTokensFailed in
  if failed then ret (false, EmptyString, 0%Z, Some Storage.ErrAllTokensFailed)
  else
  (* Wait for rate limit token *)
  let* got := liftIO waitCtx in
  if negb got then ret (false, EmptyString, 0%Z, Some Storage.ErrContext)
  else
  (* Acquire semaphore *)
  let* got := liftIO waitCtx in
  if negb got then ret (false, EmptyString, 0%Z, Some Storage.ErrContext)
  else
  (* Track active requests *)
  addActiveRequests 1;;
  let* result := queryWithSwitch qs email in
  (* deferred: release the semaphore, decrement the active requests *)
  addActiveRequests (-1);;
  ret result.

(** *** token_manager.go: the validator *)

Definition testEmailOf (totalEmails : list string) : string :=
  match totalEmails with
  | e :: _ => e
  | [] => "test@example.com"
  end.

Definition isNil (err : option Storage.error) : bool :=
  match err with None => true | Some _ => false end.

(** [HasValidTokens] *)
Definition HasValidTokens (vs : ValidatorService) (totalEmails : list string)
  : State IO bool :=
  let* d := gets db in
  match Storage.LoadTokensFromFile (vs_tokenStorage vs) d with
  | inr _ => ret false
  | inl [] => ret false
  | inl existingTokens =>
      let testEmail := testEmailOf totalEmails in
      let checkLimit := 3%nat in
      let* validCount :=
        foldM
          (fun validCount token =>
             let* '(_, _, statusCode, err) := DoQueryProfile testEmail token in
             if isNil err
                && ((statusCode =? 200)%Z || (statusCode =? 429)%Z || (statusCode =? 500)%Z)
             then ret (validCount + 1)%Z
             else ret validCount)
          0%Z (firstn checkLimit existingTokens) in
      ret (2 <=? validCount)%Z
  end.

(** The body of the loop of [ValidateExistingTokens]. *)
Definition validateExistingOne (vs : ValidatorService) (testEmail : string)
    (validTokens : list string) (token : string) : State IO (list string) :=
  let* '(_, _, statusCode, err) := DoQueryProfile testEmail token in
  let* validTokens :=
    if isNil err || (statusCode =? 429)%Z || (statusCode =? 500)%Z then
      ret (validTokens ++ [token])
    else
      (* Only remove token when 401 or 424, NOT when 500 *)
      (if (statusCode =? 401)%Z || (statusCode =? 424)%Z
       then let* _ := removeTokenFromFile (vs_tokenStorage vs) token in ret tt
       else ret tt);;
      ret validTokens in
  Sleep 1000;;
  ret validTokens.

(** [ValidateExistingTokens] *)
Definition ValidateExistingTokens (vs : ValidatorService) (tokens : list string)
    (totalEmails : list string) : State IO (list string + Storage.error) :=
  if (length tokens =? 0)%nat then ret (inr Storage.ErrNoTokens)
  else
    let testEmail := testEmailOf totalEmails in
    let* validTokens := foldM (validateExistingOne vs testEmail) [] tokens in
    ret (inl validTokens).

(** The body of the loop of [ValidateTokensBatch]. *)
Definition validateBatchOne (testEmail : string)
    (validTokens : list string) (token : string) : State IO (list string) :=
  let* '(_, _, statusCode, err) := DoQueryProfile testEmail token in
  let* validTokens :=
    if isNil err || (statusCode =? 429)%Z || (statusCode =? 500)%Z then
      ret (validTokens ++ [token])
    else ret validTokens in
  Sleep 1000;;
  ret validTokens.

(** [ValidateTokensBatch] *)
Definition ValidateTokensBatch (vs : ValidatorService) (tokens : list string)
    (totalEmails : list string) : State IO (list string + Storage.error) :=
  if (length tokens =? 0)%nat then ret (inr Storage.ErrNoTokens)
  else
    let testEmail := testEmailOf totalEmails in
    let* validTokens := foldM (validateBatchOne testEmail) [] tokens in
    ret (inl validTokens).

End WithEnv.
End Crawler.

(** ** Package orchestrator *)

Module Orchestrator.
Import Models.

(** [type AutoCrawler], with the crawler it points to and the observable
    state.  The four maps are sets of emails ([map[string]struct{}]). *)
Record World : Type := {
  config : Config;
  accounts : list Account;
  usedAccountIndex : Z;
  crawler : option LinkedInCrawler;
  totalEmails : list string;
  shutdownRequested : Z;
  successEmailsWithData : gset string;
  successEmailsWithoutData : gset string;
  failedEmails : gset string;
  permanentFailed : gset string;
  emailStorage : Storage.Service;
  tokenStorage : Storage.Service;
  io : IO
}.

Definition set_crawler (c : option LinkedInCrawler) (w : World) : World :=
  {| config := config w; accounts := accounts w;
     usedAccountIndex := usedAccountIndex w; crawler := c;
     totalEmails := totalEmails w; shutdownRequested := shutdownRequested w;
     successEmailsWithData := successEmailsWithData w;
     successEmailsWithoutData := successEmailsWithoutData w;
     failedEmails := failedEmails w; permanentFailed := permanentFailed w;
     emailStorage := emailStorage w; tokenStorage := tokenStorage w; io := io w |}.

Definition set_io (i : IO) (w : World) : World :=
  {| config := config w; accounts := accounts w;
     usedAccountIndex := usedAccountIndex w; crawler := crawler w;
     totalEmails := totalEmails w; shutdownRequested := shutdownRequested w;
     successEmailsWithData := successEmailsWithData w;
     successEmailsWithoutData := successEmailsWithoutData w;
     failedEmails := failedEmails w; permanentFailed := permanentFailed w;
     emailStorage := emailStorage w; tokenStorage := tokenStorage w; io := i |}.

Definition set_shutdownRequested (v : Z) (w : World) : World :=
  {| config := config w; accounts := accounts w;
     usedAccountIndex := usedAccountIndex w; crawler := crawler w;
     totalEmails := totalEmails w; shutdownRequested := v;
     successEmailsWithData := successEmailsWithData w;
     successEmailsWithoutData := successEmailsWithoutData w;
     failedEmails := failedEmails w; permanentFailed := permanentFailed w;
     emailStorage := emailStorage w; tokenStorage := tokenStorage w; io := io w |}.

Definition liftIO {A : Type} (m : State IO A) : State World A :=
  fun w => let (a, i) := m (io w) in (a, set_io i w).

(** Runs a method of the crawler [lc] that [ac.crawler] points to. *)
Definition onCrawler {A : Type} (lc : LinkedInCrawler) (m : State Crawler.QS A)
  : State World A :=
  fun w =>
    let (a, qs) := m {| Crawler.q_lc := lc; Crawler.q_io := io w |} in
    (a, set_io (Crawler.q_io qs) (set_crawler (Some (Crawler.q_lc qs)) w)).

(** [type BatchProcessor] *)
Record BatchProcessor : Type := {
  queryService : Crawler.QueryService;
  validatorService : Crawler.ValidatorService
}.

(** [NewBatchProcessor] *)
Definition NewBatchProcessor : BatchProcessor :=
  {| queryService := Crawler.NewQueryService;
     validatorService := Crawler.NewValidatorService |}.

(** [New] of auto_crawler.go, from the contents of the emails and tokens
    files; the accounts come parsed. *)
Definition New (config : Config) (accounts : list Account)
    (emailsContent tokensContent : string) : World :=
  let d := Database.InitSchema in
  let d := Storage.ImportEmailsFromFile emailsContent d in
  let d := Storage.ImportTokensFromFile tokensContent d in
  let emails := Database.GetPendingEmails 0 d in
  {| config := config; accounts := accounts; usedAccountIndex := 0;
     crawler := None; totalEmails := emails; shutdownRequested := 0;
     successEmailsWithData := ∅; successEmailsWithoutData := ∅;
     failedEmails := ∅; permanentFailed := ∅;
     emailStorage := Storage.SetDBStorage Storage.NewEmailStorage;
     tokenStorage := Storage.SetDBStorage Storage.NewTokenStorage;
     io := {| n_http := 0; n_wait := 0; n_rand := 0; trace := []; db := d;
              hit_txt := EmptyString; emails_txt := emailsContent |} |}.

Definition addSuccess (lc : LinkedInCrawler) : LinkedInCrawler :=
  set_Stats
    {| Processed := Processed (Stats lc); Success := AddInt32 (Success (Stats lc)) 1;
       Failed := Failed (Stats lc); TokenErrors := TokenErrors (Stats lc) |} lc.

Definition addFailed (lc : LinkedInCrawler) : LinkedInCrawler :=
  set_Stats
    {| Processed := Processed (Stats lc); Success := Success (Stats lc);
       Failed := AddInt32 (Failed (Stats lc)) 1; TokenErrors := TokenErrors (Stats lc) |} lc.

Definition addProcessed (lc : LinkedInCrawler) : LinkedInCrawler :=
  set_Stats
    {| Processed := AddInt32 (Processed (Stats lc)) 1; Success := Success (Stats lc);
       Failed := Failed (Stats lc); TokenErrors := TokenErrors (Stats lc) |} lc.

(** [atomic.AddInt32] on a counter of the crawler [ac.crawler] points to. *)
Definition bumpStats (f : LinkedInCrawler -> LinkedInCrawler) : State World unit :=
  modify (fun w => set_crawler (f <$> crawler w) w).

(** The first 200 bytes of the body and three dots, or the whole body. *)
Definition snippetOf (body : string) : string :=
  if (200 <? String.length body)%nat
  then String.substring 0 200 body +:+ "..."
  else body.

Section WithEnv.
Variable env : Env.

(** The block "NO LINKEDIN INFO - Update database", which the source
    has twice. *)
Definition recordNoData (email : string) : State World unit :=
  liftIO (onDB (Database.UpdateEmailStatus email Database.EmailStatusSuccessNoData));;
  liftIO (LogLine (LogNoProfile email));;
  bumpStats addSuccess.

(** The statements of the loop body that follow the query: the log line
    of the attempt, the classification of a 200 and the wait before the
    next attempt. *)
Definition handleResponse (email : string) (maxRetries attempt : Z)
    (hasProfile : bool) (body : string) (statusCode : Z) : State World (Ctl bool) :=
  (* Log attempt *)
  liftIO (LogLine (LogRetry attempt maxRetries email statusCode (snippetOf body)));;
  (* Distinguish between data and no data *)
  if (statusCode =? 200)%Z then
    (if hasProfile then
       (* Check if there's actual profile data *)
       let (profile, parseErr) := Crawler.ExtractProfileData env body in
       if Crawler.isNil parseErr
          && negb (String.eqb (User profile) "")
          && negb (String.eqb (User profile) "null")
          && negb (String.eqb (User profile) "{}")
       then
         (* HAS LINKEDIN INFO - Update database *)
         liftIO (onDB (Database.UpdateEmailWithProfile email profile));;
         liftIO (LogLine (LogHasProfile email (User profile) (LinkedInURL profile)));;
         (* Write to hit.txt file *)
         liftIO (Crawler.WriteProfileToFile email profile);;
         bumpStats addSuccess
       else recordNoData email
     else recordNoData email);;
    ret (Return true)
  else
    (* If not last attempt and not successful, wait before retry *)
    (if (attempt <? maxRetries)%Z then
       let* r := liftIO (Crawler.Intn env 401) in
       let delayMs := (200 + Z.of_nat r)%Z in
       liftIO (LogLine (LogWait delayMs (attempt + 1) email));;
       liftIO (Sleep delayMs)
     else ret tt);;
    ret Continue.

(** The query of one attempt, on the crawler [lc] of the batch. *)
Definition lookup (bp : BatchProcessor) (email : string) (lc : LinkedInCrawler)
  : State World Crawler.QueryResult :=
  onCrawler lc (Crawler.QueryProfileWithRetryLogic env (queryService bp) email).

(** One iteration of the loop of [retryEmailWithNewLogic].  The pointer
    [crawlerInstance] is read through [crawler]: nothing replaces the
    crawler of the batch while an email is processed. *)
Definition retryAttempt (bp : BatchProcessor) (email : string) (maxRetries : Z)
    (attempt : Z) : State World (Ctl bool) :=
  let* w := get in
  if (shutdownRequested w =? 1)%Z then ret (Return false)
  else
    match crawler w with
    | None => ret Continue
    | Some lc =>
        if AllTokensFailed lc then
          liftIO (LogLine (LogAllTokensFailed email));;
          ret (Return false)
        else
          let* '(hasProfile, body, statusCode, _) := lookup bp email lc in
          handleResponse email maxRetries attempt hasProfile body statusCode
    end.

(** [retryEmailWithNewLogic] *)
Definition retryEmailWithNewLogic (bp : BatchProcessor) (email : string)
    (maxRetries : Z) : State World bool :=
  let* r := for_range (Z.to_nat maxRetries) 1 (retryAttempt bp email maxRetries) in
  match r with
  | Some success => ret success
  | None =>
      (* After retrying 5 times and still not successful - Update database *)
      liftIO (onDB (Database.UpdateEmailStatus email Database.EmailStatusFailed));;
      (* Increment retry count in database *)
      liftIO (onDB (Database.IncrementRetryCount email "Failed after max retries"));;
      liftIO (LogLine (LogFailed email maxRetries));;
      bumpStats addFailed;;
      ret false
  end.

(** *** state_manager.go *)

(** The list [remainingEmails] that [SaveStateOnShutdown] and
    [UpdateEmailsFile] compute from the four maps.  Go ranges over the
    map [failed] in no fixed order; [elements] stands for one order. *)
Definition remainingEmailsOf (w : World) : list string :=
  let remainingEmails :=
    fold_left
      (fun remainingEmails email =>
         if bool_decide (email ∉ successEmailsWithData w)
            && bool_decide (email ∉ successEmailsWithoutData w)
            && bool_decide (email ∉ permanentFailed w)
         then remainingEmails ++ [email]
         else remainingEmails)
      (totalEmails w) [] in
  (* Add failed emails (need retry) *)
  fold_left
    (fun remainingEmails email =>
       if bool_decide (email ∈ remainingEmails) then remainingEmails
       else remainingEmails ++ [email])
    (elements (failedEmails w)) remainingEmails.

(** [SaveStateOnShutdown] *)
Definition SaveStateOnShutdown : State World unit :=
  let* w := get in
  let remainingEmails := remainingEmailsOf w in
  if (length remainingEmails =? 0)%nat then
    (* Create empty file *)
    let* _ := Storage.WriteEmailsToFile (emailStorage w) (EmailsFilePath (config w)) [] in
    ret tt
  else
    (* Write remaining emails to file *)
    let* _ := Storage.WriteEmailsToFile (emailStorage w) (EmailsFilePath (config w))
                remainingEmails in
    ret tt.

(** [UpdateEmailsFile] *)
Definition UpdateEmailsFile : State World unit :=
  let* w := get in
  let remainingEmails := remainingEmailsOf w in
  let* _ := Storage.WriteEmailsToFile (emailStorage w) (EmailsFilePath (config w))
              remainingEmails in
  ret tt.

(** *** batch_processor.go: a batch *)

(** [initializeCrawler] *)
Definition initializeCrawler (tokens : list string) : State World unit :=
  modify (fun w =>
    let newCrawler := Crawler.New (config w) in
    set_crawler
      (Some {| Tokens := tokens; InvalidTokens := ∅; Stats := Stats newCrawler;
               AllTokensFailed := AllTokensFailed newCrawler;
               TokensFilePath := TokensFilePathCfg (config w);
               ActiveRequests := ActiveRequests newCrawler |}) w).

(** [crawler.Close] followed by [SetCrawler(nil)]. *)
Definition closeCrawler : State World unit :=
  modify (set_crawler None).

(** [validateExistingTokens] *)
Definition validateExistingTokens (bp : BatchProcessor) (tokens : list string)
  : State World (list string + Storage.error) :=
  let* w := get in
  liftIO (Crawler.ValidateExistingTokens env (validatorService bp) tokens (totalEmails w)).

(** *** retry_handler.go *)

Section Phase2.
(** [getTokensBatch] mints credentials through the login driver, and
    [crawlWithCurrentTokens] runs the worker pool over a list of
    emails; the sweep is stated for whatever they do to the state. *)
Variable getTokensBatch : State World (list string + Storage.error).
Variable crawlWithCurrentTokens : list string -> State World (Z * option Storage.error).

(** [len] of what [emailStorage.LoadEmailsFromFile] returns, an error
    counting as the nil slice. *)
Definition remainingCount (w : World) : Z :=
  match Storage.LoadEmailsFromFile (emailStorage w) (db (io w)) with
  | inl emails => Z.of_nat (length emails)
  | inr _ => 0%Z
  end.

(** One iteration of the loop of [RetryFailedEmails]. *)
Definition retryRound (bp : BatchProcessor) (i : Z)
  : State World (Ctl (option Storage.error)) :=
  let* w := get in
  (* Read remaining emails from file *)
  match Storage.LoadEmailsFromFile (emailStorage w) (db (io w)) with
  | inr _ | inl [] => ret (Return None)
  | inl retryEmails =>
      liftIO (Sleep 10000);;
      (* Get tokens for retry *)
      let* loaded :=
        match Storage.LoadTokensFromFile (tokenStorage w) (db (io w)) with
        | inl (t :: ts) => ret (inl (t :: ts))
        | _ =>
            if (usedAccountIndex w <? Z.of_nat (length (accounts w)))%Z then
              let* r := getTokensBatch in
              match r with
              | inr err => ret (inr (Some err))
              | inl tokens => ret (inl tokens)
              end
            else ret (inr None)
        end in
      match loaded with
      | inr result => ret (Return result)
      | inl existingTokens =>
          let* validated := validateExistingTokens bp existingTokens in
          match validated with
          | inr err => ret (Return (Some err))
          | inl [] => ret (Return None)
          | inl validTokens =>
              (* Initialize crawler for retry *)
              initializeCrawler validTokens;;
              (* Record email count before retry *)
              let emailsBefore := Z.of_nat (length retryEmails) in
              let* _ := crawlWithCurrentTokens retryEmails in
              (* Close crawler *)
              closeCrawler;;
              (* Check after retry *)
              let* w' := get in
              let emailsAfter := remainingCount w' in
              if (emailsAfter =? 0)%Z then ret Break
              else if (emailsBefore <=? emailsAfter)%Z then ret Break
              else ret Continue
          end
      end
  end.

(** [RetryFailedEmails] *)
Definition RetryFailedEmails (bp : BatchProcessor)
  : State World (option Storage.error) :=
  let maxRetry := 7%Z in
  let* r := for_range (Z.to_nat maxRetry) 1 (retryRound bp) in
  match r with
  | Some result => ret result
  | None => ret None
  end.

(** The rounds a sweep of at most [n] rounds runs from round [i] on, each
    with the state it starts from and the state it leaves: a round that does
    not end in [Continue] is the last one. *)
Fixpoint sweepRounds (bp : BatchProcessor) (n : nat) (i : Z) (w : World)
  : list (World * World) :=
  match n with
  | O => []
  | S n' =>
      let r := retryRound bp i w in
      (w, snd r) ::
      match fst r with
      | Continue => sweepRounds bp n' (i + 1) (snd r)
      | _ => []
      end
  end.

End Phase2.

End WithEnv.
End Orchestrator.

(** ** Package utils *)

Module Utils.
Import Orchestrator.

(** The goroutine of [SetupSignalHandling], from the arrival of SIGINT or
    SIGTERM on. *)
Definition signalHandler (onShutdown : option (State World unit)) (sleepDuration : Z)
  : State World unit :=
  modify (set_shutdownRequested 1);;
  match onShutdown with
  | Some hook => hook
  | None => ret tt
  end;;
  liftIO (Sleep sleepDuration);;
  liftIO (emit (EvExit 0)).

End Utils.

(** ** Sample inputs *)

Module Samples.
Import Models.

Definition dq : string := String "034"%char EmptyString.
Definition nl : string := String GoStrings.LF EmptyString.

(** [DefaultConfig], durations in milliseconds. *)
Definition cfg : Config :=
  {| MaxConcurrency := 50; RequestTimeout := 15000; EmailsFilePath := "emails.txt";
     TokensFilePathCfg := "tokens.txt"; AccountsFilePath := "accounts.txt";
     MinTokens := 10; MaxTokens := 10; SleepDuration := 60000 |}.

Definition io0 : IO :=
  {| n_http := 0; n_wait := 0; n_rand := 0; trace := []; db := Database.InitSchema;
     hit_txt := EmptyString; emails_txt := EmptyString |}.

(** An endpoint that always answers [o] and decodes no body. *)
Definition envAlways (o : HttpOutcome) : Env :=
  {| goarch := amd64; json_decode := fun _ => None;
     http_Do := fun _ _ _ => o; wait_ok := fun _ => true; rand_draw := fun n => n |}.

(** A pool whose only credential is marked invalid. *)
Definition poolDead : LinkedInCrawler :=
  {| Tokens := ["A"]; InvalidTokens := {[ "A" := true ]};
     Stats := {| Processed := 0; Success := 0; Failed := 0; TokenErrors := 0 |};
     AllTokensFailed := false; TokensFilePath := "tokens.txt"; ActiveRequests := 0 |}.

(** A pool of two credentials, of which ["A"] is marked invalid. *)
Definition poolHalf : LinkedInCrawler :=
  {| Tokens := ["A"; "B"]; InvalidTokens := {[ "A" := true ]};
     Stats := {| Processed := 0; Success := 0; Failed := 0; TokenErrors := 0 |};
     AllTokensFailed := false; TokensFilePath := "tokens.txt"; ActiveRequests := 0 |}.

(** The body [{"persons":[{"displayName":"A","linkedInUrl":"B"}]}] and
    the value it decodes to. *)
Definition bodyAB : string :=
  "{" +:+ dq +:+ "persons" +:+ dq +:+ ":[{" +:+ dq +:+ "displayName" +:+ dq +:+ ":"
  +:+ dq +:+ "A" +:+ dq +:+ "," +:+ dq +:+ "linkedInUrl" +:+ dq +:+ ":"
  +:+ dq +:+ "B" +:+ dq +:+ "}]}".

Definition personAB : gmap string Json.Value :=
  {[ "displayName" := Json.JString "A"; "linkedInUrl" := Json.JString "B" ]}.

Definition dataAB : gmap string Json.Value :=
  {[ "persons" := Json.JArray [Json.JObject personAB] ]}.

(** The body [{"persons":[{"connectionCount":N}]}] for a number [N]. *)
Definition bodyCount (digits : string) : string :=
  "{" +:+ dq +:+ "persons" +:+ dq +:+ ":[{" +:+ dq +:+ "connectionCount" +:+ dq +:+ ":"
  +:+ digits +:+ "}]}".

Definition personCount (v : float) : gmap string Json.Value :=
  {[ "connectionCount" := Json.JNumber v ]}.

Definition dataCount (v : float) : gmap string Json.Value :=
  {[ "persons" := Json.JArray [Json.JObject (personCount v)] ]}.

(** A decoder that knows the three sample bodies. *)
Definition decodeSamples (body : string) : option Json.Value :=
  if String.eqb body bodyAB then Some (Json.JObject dataAB)
  else if String.eqb body (bodyCount "3.9") then Some (Json.JObject (dataCount 3.9%float))
  else if String.eqb body (bodyCount "1e19") then Some (Json.JObject (dataCount 1e19%float))
  else None.

(** An endpoint that answers 200 with [body] to every request. *)
Definition envBody (arch : GOARCH) (body : string) : Env :=
  {| goarch := arch; json_decode := decodeSamples;
     http_Do := fun _ _ _ => HttpResponse 200 (Some body);
     wait_ok := fun _ => true; rand_draw := fun n => n |}.

(** The state after [New] read an emails file of one comment line and one
    email. *)
Definition worldOneEmail : Orchestrator.World :=
  Orchestrator.New cfg [] ("# targets" +:+ nl +:+ "a@x.com" +:+ nl) EmptyString.

(** The same state once the store holds a terminal status for the email. *)
Definition worldOneDone : Orchestrator.World :=
  Orchestrator.set_io
    (set_db
       (Database.UpdateEmailStatus "a@x.com" Database.EmailStatusSuccessNoData
          (db (Orchestrator.io worldOneEmail)))
       (Orchestrator.io worldOneEmail))
    worldOneEmail.

(** The state of a batch over the emails file ["a@x.com\n"], with the
    crawler initialised on [tokens]. *)
Definition worldReady (tokens : list string) : Orchestrator.World :=
  snd (Orchestrator.initializeCrawler tokens
         (Orchestrator.New cfg [] ("a@x.com" +:+ nl) EmptyString)).

(** An endpoint that answers 429 to the first request and 200, with a body
    that cannot be read, to the later ones. *)
Definition env429 : Env :=
  {| goarch := amd64; json_decode := fun _ => None;
     http_Do := fun n _ _ =>
       if (n =? 0)%nat then HttpResponse 429 None else HttpResponse 200 None;
     wait_ok := fun _ => true; rand_draw := fun n => n |}.

(** An emails file whose only line is a comment that holds a comma. *)
Definition commentedCsv : string := "#old,a@x.com" +:+ nl.

End Samples.

(** ** What the specification says, in its own words *)

Module Spec.

(** Keeps the first occurrence of every element. *)
Definition dedupFirst (l : list string) : list string :=
  fold_left
    (fun acc x => if bool_decide (x ∈ acc) then acc else acc ++ [x])
    l [].

(** "Skip blank lines and lines beginning #.  Imported email lines may be
    bare or prefix,email (comma form: take substring after the first
    comma)"; "the deduplicated set of non-comment, non-blank entries in
    insertion order". *)
Definition importedEntries (content : string) : list string :=
  dedupFirst
    (flat_map
       (fun line =>
          let line := GoStrings.TrimSpace line in
          if String.eqb line "" || GoStrings.HasPrefix line "#" then []
          else
            let entry :=
              match GoStrings.Cut line ","%char with
              | Some (_, after) => GoStrings.TrimSpace after
              | None => line
              end in
            if String.eqb entry "" then [] else [entry])
       (GoStrings.Split content GoStrings.LF)).

(** The test both the file scan and the repository apply to an email. *)
Definition keepEmail (email : string) : bool :=
  negb (String.eqb email "") && negb (GoStrings.HasPrefix email "#").

(** The string a JSON object holds at [key]; empty when the key is absent
    or holds no string. *)
Definition stringAt (p : gmap string Json.Value) (key : string) : string :=
  match p !! key with
  | Some (Json.JString val) => val
  | _ => EmptyString
  end.

(** [v] is the field [key] of [p]: the string stored there, and the empty
    string when [p] has no such key. *)
Definition fieldOf (p : gmap string Json.Value) (key : string) (v : string) : Prop :=
  (forall a, p !! key = Some (Json.JString a) -> v = a) /\
  (p !! key = None -> v = EmptyString).

(** The connection count stored for a decoded field: a string as it is,
    a number converted to [int] and printed. *)
Definition countOf (arch : GOARCH) (o : option Json.Value) : string :=
  match o with
  | Some (Json.JString val) => val
  | Some (Json.JNumber val) => Crawler.Sprintf_d (Crawler.int_of_float64 arch val)
  | _ => EmptyString
  end.

(** The value [(-1)^s * m * 2^e] of a finite float64, truncated toward
    zero. *)
Definition truncTowardZero (f : float) : option Z :=
  match Prim2SF f with
  | S754_zero _ => Some 0%Z
  | S754_finite s m e =>
      let num := if s then Z.neg m else Z.pos m in
      Some (if (0 <=? e)%Z then (num * 2 ^ e)%Z else Z.quot num (2 ^ (- e)))
  | _ => None
  end.

(** One line per email. *)
Definition linesOf (emails : list string) : string :=
  fold_right (fun email rest => email +:+ String GoStrings.LF rest) EmptyString emails.

(** The credentials [RemoveTokenFromFile] was called with, in order. *)
Fixpoint removeCalls (t : list Event) : list string :=
  match t with
  | [] => []
  | EvRemoveTokenFromFile token :: t' => token :: removeCalls t'
  | _ :: t' => removeCalls t'
  end.

(** A probe the validator accepts: no error (status 200 and a body that
    could be read), or status 429, or status 500. *)
Definition accepted (o : HttpOutcome) : bool :=
  match o with
  | TransportError => false
  | HttpResponse status body =>
      ((status =? 200)%Z && bool_decide (is_Some body))
      || (status =? 429)%Z || (status =? 500)%Z
  end.

(** A probe that ends with status 401 or 424. *)
Definition hardRejected (o : HttpOutcome) : bool :=
  match o with
  | TransportError => false
  | HttpResponse status _ => (status =? 401)%Z || (status =? 424)%Z
  end.

(** The probes of a validation that starts in state [io]: the k-th
    credential of the list with the outcome of the k-th next request. *)
Definition probes (env : Env) (io : IO) (testEmail : string) (tokens : list string)
  : list (string * HttpOutcome) :=
  imap (fun k token => (token, http_Do env (n_http io + k) testEmail token)) tokens.

Definition acceptedOf (ps : list (string * HttpOutcome)) : list string :=
  map fst (List.filter (fun p => accepted (snd p)) ps).

Definition hardRejectedOf (ps : list (string * HttpOutcome)) : list string :=
  map fst (List.filter (fun p => hardRejected (snd p)) ps).

(** The emails table and the two files are the same in both states. *)
Definition sameFiles (io io' : IO) : Prop :=
  Database.emails (db io') = Database.emails (db io) /\
  hit_txt io' = hit_txt io /\ emails_txt io' = emails_txt io.

Definition sameFilesQ (s s' : Crawler.QS) : Prop :=
  sameFiles (Crawler.q_io s) (Crawler.q_io s').

(** [hasProfile] is the substring test on the body that comes with it. *)
Definition resultOK (r : Crawler.QueryResult) : Prop :=
  Crawler.hasProfileOf r = GoStrings.Contains (Crawler.bodyOf r) "displayName".

(** A 200 counts as data: the body holds the text [displayName] and the
    parsed [displayName] is not empty, not [null] and not [{}]. *)
Definition hasData (body displayName : string) : bool :=
  GoStrings.Contains body "displayName"
  && negb (String.eqb displayName "") && negb (String.eqb displayName "null")
  && negb (String.eqb displayName "{}").

(** An event that is a log line or a sleep. *)
Definition quietEvent (e : Event) : Prop :=
  match e with
  | EvLog _ | EvSleep _ => True
  | _ => False
  end.

(** The row of an email that failed one run: status [failed], one more
    retry, the last error set. *)
Definition markFailedOnce (r : Database.EmailRow) : Database.EmailRow :=
  {| Database.e_id := Database.e_id r; Database.e_email := Database.e_email r;
     Database.e_status := Database.EmailStatusFailed;
     Database.e_profile_user := Database.e_profile_user r;
     Database.e_profile_url := Database.e_profile_url r;
     Database.e_profile_location := Database.e_profile_location r;
     Database.e_profile_connections := Database.e_profile_connections r;
     Database.e_retry_count := (Database.e_retry_count r + 1)%Z;
     Database.e_last_error := Some "Failed after max retries" |}.

(** In state [w] an attempt performs its query and the query ends with a
    status other than 200. *)
Definition lookupFails (env : Env) (bp : Orchestrator.BatchProcessor) (email : string)
    (w : Orchestrator.World) : Prop :=
  Orchestrator.shutdownRequested w <> 1%Z /\
  exists lc,
    Orchestrator.crawler w = Some lc /\ Models.AllTokensFailed lc = false /\
    Crawler.statusCodeOf (fst (Orchestrator.lookup env bp email lc w)) <> 200%Z.

(** The [k] attempts from [attempt] on, run from state [w], all end without
    a 200. *)
Fixpoint failedAttempts (env : Env) (bp : Orchestrator.BatchProcessor) (email : string)
    (maxRetries : Z) (k : nat) (attempt : Z) (w : Orchestrator.World) : Prop :=
  match k with
  | O => True
  | S k' =>
      lookupFails env bp email w /\
      failedAttempts env bp email maxRetries k' (attempt + 1)
        (snd (Orchestrator.retryAttempt env bp email maxRetries attempt w))
  end.

(** The state after the [k] attempts from [attempt] on. *)
Fixpoint afterAttempts (env : Env) (bp : Orchestrator.BatchProcessor) (email : string)
    (maxRetries : Z) (k : nat) (attempt : Z) (w : Orchestrator.World)
  : Orchestrator.World :=
  match k with
  | O => w
  | S k' =>
      afterAttempts env bp email maxRetries k' (attempt + 1)
        (snd (Orchestrator.retryAttempt env bp email maxRetries attempt w))
  end.

End Spec.

(** ** Package database: the other repository methods *)

Module EmailRepository.
Import Database.

(** The text of an [EmailStatus] constant, as column [status] holds it. *)
Definition statusText (s : EmailStatus) : string :=
  match s with
  | EmailStatusPending => "pending"
  | EmailStatusSuccessWithData => "success_with_data"
  | EmailStatusSuccessNoData => "success_without_data"
  | EmailStatusFailed => "failed"
  | EmailStatusPermanentFailed => "permanent_failed"
  end.

(** [GetEmailsByStatus]: [WHERE status = ?].  The statement has no ORDER
    BY; the rows are listed as the table holds them. *)
Definition GetEmailsByStatus (status : EmailStatus) (db : DB) : list string :=
  map e_email (filter (fun r => e_status r = status) (emails db)).

(** [GetEmailStats]: [GROUP BY status] gives one key for every status that
    has rows; the count of all rows is stored under [total]. *)
Definition GetEmailStats (db : DB) : gmap string Z :=
  let stats :=
    fold_left
      (fun stats r =>
         let status := statusText (e_status r) in
         <[status := (default 0 (stats !! status) + 1)%Z]> stats)
      (emails db) (∅ : gmap string Z) in
  (* Add total count *)
  <["total" := Z.of_nat (length (emails db))]> stats.

(** [stats[key]] on a Go map: a missing key reads as 0. *)
Definition statOf (stats : gmap string Z) (key : string) : Z :=
  default 0%Z (stats !! key).

End EmailRepository.

Module TokenRepository.
Import Database.

(** [AddToken] *)
Definition AddToken (token : string) (db : DB) : DB := insertToken token db.

(** [IncrementTokenFailure] *)
Definition IncrementTokenFailure (token : string) (db : DB) : DB :=
  set_tokens
    (map (fun r =>
            if String.eqb (t_token r) token
            then {| t_id := t_id r; t_token := t_token r; t_is_valid := t_is_valid r;
                    t_failure_count := (t_failure_count r + 1)%Z |}
            else r)
       (tokens db))
    (tokens_seq db) db.

(** [GetValidTokenCount]: [SELECT COUNT( * ) FROM tokens WHERE is_valid = 1] *)
Definition GetValidTokenCount (db : DB) : Z :=
  Z.of_nat (length (List.filter t_is_valid (tokens db))).

End TokenRepository.

Module AccountRepository.
Import Models.

(** A row of table [accounts] (timestamps left out). *)
Record AccountRow : Type := {
  a_id : Z;
  a_email : string;
  a_password : string;
  a_is_used : bool
}.

(** The table, in [id] order, and its AUTOINCREMENT counter. *)
Record Table : Type := { rows : list AccountRow; seq : Z }.

(** The table [InitSchema] creates. *)
Definition InitSchema : Table := {| rows := []; seq := 0 |}.

(** [INSERT OR IGNORE INTO accounts (email, password) VALUES (?, ?)]: the
    UNIQUE column [email] rejects a second row for the same email. *)
Definition insertAccount (account : Account) (t : Table) : Table :=
  if bool_decide (Email account ∈ map a_email (rows t)) then t
  else
    let id := (seq t + 1)%Z in
    {| rows := rows t ++
                 [{| a_id := id; a_email := Email account;
                     a_password := Password account; a_is_used := false |}];
       seq := id |}.

(** [ImportAccounts] *)
Definition ImportAccounts (accounts : list Account) (t : Table) : Table :=
  fold_left (fun t account => insertAccount account t) accounts t.

(** [rows.Scan(&account.Email, &account.Password)] *)
Definition accountOf (r : AccountRow) : Account :=
  {| Email := a_email r; Password := a_password r |}.

(** [GetUnusedAccounts]: [WHERE is_used = 0 ORDER BY id], with a LIMIT when
    [limit > 0]. *)
Definition GetUnusedAccounts (limit : Z) (t : Table) : list Account :=
  Database.sqlLimit limit
    (map accountOf (List.filter (fun r => negb (a_is_used r)) (rows t))).

(** [MarkAccountAsUsed] *)
Definition MarkAccountAsUsed (email : string) (t : Table) : Table :=
  {| rows :=
       map (fun r =>
              if String.eqb (a_email r) email
              then {| a_id := a_id r; a_email := a_email r;
                      a_password := a_password r; a_is_used := true |}
              else r)
         (rows t);
     seq := seq t |}.

(** [GetUnusedAccountCount] *)
Definition GetUnusedAccountCount (t : Table) : Z :=
  Z.of_nat (length (List.filter (fun r => negb (a_is_used r)) (rows t))).

(** [LoadAccountsFromText] *)
Definition LoadAccountsFromText (content : string) : list Account :=
  let lines := GoStrings.Split content GoStrings.LF in
  fold_left
    (fun accounts line =>
       let line := GoStrings.TrimSpace line in
       if String.eqb line "" || GoStrings.HasPrefix line "#" then accounts
       else
         let parts := GoStrings.Split line "|"%char in
         if negb (length parts =? 2)%nat then accounts
         else
           let email := GoStrings.TrimSpace (nth 0 parts "") in
           let password := GoStrings.TrimSpace (nth 1 parts "") in
           if negb (String.eqb email "") && negb (String.eqb password "")
           then accounts ++ [{| Email := email; Password := password |}]
           else accounts)
    lines [].

End AccountRepository.

(** ** Package storage: the other methods of db_storage.go *)

Module DBStorage.
Import Models.

(** [ImportAccountsFromFile], on the content of the file. *)
Definition ImportAccountsFromFile (content : string) (t : AccountRepository.Table)
  : AccountRepository.Table :=
  AccountRepository.ImportAccounts (AccountRepository.LoadAccountsFromText content) t.

(** [AccountStorage.LoadAccounts] *)
Definition LoadAccounts (as_ : Storage.Service) (t : AccountRepository.Table)
  : list Account + Storage.error :=
  if Storage.dbStorageSet as_ then inl (AccountRepository.GetUnusedAccounts 0 t)
  else inr Storage.ErrNotInitialized.

(** [AccountStorage.RemoveAccountFromFile] *)
Definition RemoveAccountFromFile (as_ : Storage.Service) (acc : Account)
    (t : AccountRepository.Table) : option Storage.error * AccountRepository.Table :=
  if Storage.dbStorageSet as_
  then (None, AccountRepository.MarkAccountAsUsed (Email acc) t)
  else (Some Storage.ErrNotInitialized, t).

End DBStorage.

(** ** Package orchestrator: state_manager.go, the queries on the store *)

Module StateManager.

(** [HasEmailsToProcess] *)
Definition HasEmailsToProcess (db : Database.DB) : bool :=
  (0 <? Database.CountRemainingEmails db)%Z.

(** [CountRemainingEmails] *)
Definition CountRemainingEmails (db : Database.DB) : Z :=
  Database.CountRemainingEmails db.

(** [GetRemainingEmails] *)
Definition GetRemainingEmails (db : Database.DB) : list string :=
  Database.GetRemainingEmails db.

End StateManager.

(** ** Notions the properties below are stated with *)

Module Notions.

(** Row by row, [rows'] has the ids and the emails of [rows], and the rows
    of the emails other than [email] are the same. *)
Definition sameBut (email : string) (rows rows' : list Database.EmailRow) : Prop :=
  Forall2
    (fun r r' =>
       Database.e_id r' = Database.e_id r /\
       Database.e_email r' = Database.e_email r /\
       (Database.e_email r <> email -> r' = r))
    rows rows'.

(** [s'] is [s] with text appended. *)
Definition grows (s s' : string) : Prop := exists t, s' = s +:+ t.

(** The only outcome for which [doQueryProfile] returns no error: status
    200 and a body that could be read. *)
Definition answered (o : HttpOutcome) : bool :=
  match o with
  | HttpResponse status (Some _) => (status =? 200)%Z
  | _ => false
  end.

(** [m] raises the counter [count] by at most [k], and never lowers it. *)
Definition atMost {S A : Type} (count : S -> nat) (k : nat) (m : State S A) : Prop :=
  forall s, (count s <= count (snd (m s)) <= count s + k)%nat.

(** A relation on the observable state and one on the crawler, as a
    relation on what a method of the crawler runs in. *)
Definition bothQ (Rio : IO -> IO -> Prop)
    (Rlc : Models.LinkedInCrawler -> Models.LinkedInCrawler -> Prop)
    (s s' : Crawler.QS) : Prop :=
  Rio (Crawler.q_io s) (Crawler.q_io s') /\ Rlc (Crawler.q_lc s) (Crawler.q_lc s').

(** [lc'] is the pool of [lc]: the same tokens, statistics and file path,
    and every token marked invalid in [lc] still marked. *)
Definition poolKept (lc lc' : Models.LinkedInCrawler) : Prop :=
  Models.Tokens lc' = Models.Tokens lc /\ Models.Stats lc' = Models.Stats lc /\
  Models.TokensFilePath lc' = Models.TokensFilePath lc /\
  (forall t, Models.isInvalid lc t = true -> Models.isInvalid lc' t = true).

(** The emails table and the files are the same, and the tokens table
    lists no valid token that it did not list before. *)
Definition storeKept (io io' : IO) : Prop :=
  Database.emails (db io') = Database.emails (db io) /\
  hit_txt io' = hit_txt io /\ emails_txt io' = emails_txt io /\
  (forall t, In t (Database.GetValidTokens (db io')) ->
             In t (Database.GetValidTokens (db io))).

(** The bytes of a string. *)
Fixpoint bytesOf (s : string) : list ascii :=
  match s with
  | EmptyString => []
  | String c s' => c :: bytesOf s'
  end.

(** Ids in ascending order, all handed out by the AUTOINCREMENT counter. *)
Definition idsAscending (ids : list Z) (seq : Z) : Prop :=
  StronglySorted Z.lt ids /\ Forall (fun i => (0 < i <= seq)%Z) ids /\ (0 <= seq)%Z.

(** What the UNIQUE columns and the AUTOINCREMENT keys of the schema
    promise about the two tables. *)
Definition wellFormed (d : Database.DB) : Prop :=
  NoDup (map Database.e_email (Database.emails d)) /\
  NoDup (map Database.t_token (Database.tokens d)) /\
  idsAscending (map Database.e_id (Database.emails d)) (Database.emails_seq d) /\
  idsAscending (map Database.t_id (Database.tokens d)) (Database.tokens_seq d).

(** One call of a method of the email or the token repository. *)
Inductive step : Database.DB -> Database.DB -> Prop :=
| step_ImportEmails (l : list string) (d : Database.DB) :
    step d (Database.ImportEmails l d)
| step_UpdateEmailStatus (email : string) (s : Database.EmailStatus) (d : Database.DB) :
    step d (Database.UpdateEmailStatus email s d)
| step_UpdateEmailWithProfile (email : string) (p : Models.ProfileData) (d : Database.DB) :
    step d (Database.UpdateEmailWithProfile email p d)
| step_IncrementRetryCount (email lastError : string) (d : Database.DB) :
    step d (Database.IncrementRetryCount email lastError d)
| step_AddTokens (l : list string) (d : Database.DB) :
    step d (Database.AddTokens l d)
| step_AddToken (token : string) (d : Database.DB) :
    step d (TokenRepository.AddToken token d)
| step_InvalidateToken (token : string) (d : Database.DB) :
    step d (Database.InvalidateToken token d)
| step_IncrementTokenFailure (token : string) (d : Database.DB) :
    step d (TokenRepository.IncrementTokenFailure token d).

(** The stores the repositories can produce from the empty schema. *)
Inductive reachable : Database.DB -> Prop :=
| reachable_init : reachable Database.InitSchema
| reachable_step (d d' : Database.DB) : reachable d -> step d d' -> reachable d'.

(** A row of [emails] as [INSERT] creates it, with the column defaults. *)
Definition freshRow (r : Database.EmailRow) : Prop :=
  Database.e_status r = Database.EmailStatusPending /\
  Database.e_retry_count r = 0%Z /\ Database.e_last_error r = None /\
  Database.e_profile_user r = None /\ Database.e_profile_url r = None /\
  Database.e_profile_location r = None /\ Database.e_profile_connections r = None.

(** [ORDER BY retry_count ASC, id ASC] *)
Definition byRetryThenId (r r' : Database.EmailRow) : Prop :=
  (Database.e_retry_count r < Database.e_retry_count r')%Z \/
  (Database.e_retry_count r = Database.e_retry_count r' /\
   Database.e_id r < Database.e_id r')%Z.

(** The tokens of a tokens file: the lines that are not blank, trimmed,
    without a leading [Bearer ]. *)
Definition tokensOfFile (content : string) : list string :=
  map (fun line => GoStrings.TrimPrefix line "Bearer ")
    (List.filter (fun line => negb (String.eqb line ""))
       (map GoStrings.TrimSpace (GoStrings.Split content GoStrings.LF))).

(** The first account of every email, in order. *)
Definition firstByEmail (accounts : list Models.Account) : list Models.Account :=
  fold_left
    (fun acc a =>
       if bool_decide (Models.Email a ∈ map Models.Email acc) then acc else acc ++ [a])
    accounts [].

(** What the handling of [email] may change in the observable state: the
    row of [email], text appended to the output file, and valid tokens
    taken out of the tokens table. *)
Definition ioKept (email : string) (io io' : IO) : Prop :=
  sameBut email (Database.emails (db io)) (Database.emails (db io')) /\
  grows (hit_txt io) (hit_txt io') /\
  emails_txt io' = emails_txt io /\
  (forall t, In t (Database.GetValidTokens (db io')) ->
             In t (Database.GetValidTokens (db io))).

(** The crawler is still set, or still not set; when set it has the same
    tokens and file path, and every token marked invalid is still marked. *)
Definition crawlerKept (c c' : option Models.LinkedInCrawler) : Prop :=
  match c, c' with
  | Some lc, Some lc' =>
      Models.Tokens lc' = Models.Tokens lc /\
      Models.TokensFilePath lc' = Models.TokensFilePath lc /\
      (forall t, Models.isInvalid lc t = true -> Models.isInvalid lc' t = true)
  | None, None => True
  | _, _ => False
  end.

(** [w'] differs from [w] in the crawler and the observable state only,
    and these as [crawlerKept] and [ioKept] allow: the configuration, the
    accounts, the list and the four sets of emails, the shutdown flag and
    the storage services are the same. *)
Definition retryKept (email : string) (w w' : Orchestrator.World) : Prop :=
  ioKept email (Orchestrator.io w) (Orchestrator.io w') /\
  crawlerKept (Orchestrator.crawler w) (Orchestrator.crawler w') /\
  w' = Orchestrator.set_io (Orchestrator.io w')
         (Orchestrator.set_crawler (Orchestrator.crawler w') w).

End Notions.

(** * Properties *)

(** ** The state monad *)

Lemma bind_run {S A B : Type} (m : State S A) (k : A -> State S B) (s : S) :
  bind m k s = k (fst (m s)) (snd (m s)).
Proof. unfold bind. destruct (m s); reflexivity. Qed.

(** ** The pool *)

Section PoolFacts.
Import Models Crawler.
Variable env : Env.

Lemma validTokens_spec (lc : LinkedInCrawler) (t : string) :
  In t (validTokens lc) <-> In t (Tokens lc) /\ isInvalid lc t = false.
Proof.
  unfold validTokens. rewrite filter_In.
  destruct (isInvalid lc t); simpl; intuition congruence.
Qed.

(** What [GetToken] returns, and that it only advances the random draws. *)
Lemma GetToken_run (s : QS) :
  GetToken env s =
    match validTokens (q_lc s) with
    | [] => (hd EmptyString (Tokens (q_lc s)), s)
    | _ :: _ =>
        (nth (rand_draw env (n_rand (q_io s)) mod length (validTokens (q_lc s)))
             (validTokens (q_lc s)) EmptyString,
         {| q_lc := q_lc s;
            q_io := {| n_http := n_http (q_io s); n_wait := n_wait (q_io s);
                       n_rand := S (n_rand (q_io s)); trace := trace (q_io s);
                       db := db (q_io s); hit_txt := hit_txt (q_io s);
                       emails_txt := emails_txt (q_io s) |} |})
    end.
Proof.
  unfold GetToken. rewrite bind_run. unfold gets; simpl.
  destruct (validTokens (q_lc s)) as [|v vs] eqn:Hv; simpl.
  - destruct (Tokens (q_lc s)); reflexivity.
  - reflexivity.
Qed.

Lemma GetToken_fallback (s : QS) :
  validTokens (q_lc s) = [] ->
  fst (GetToken env s) = hd EmptyString (Tokens (q_lc s)).
Proof. intros H. rewrite GetToken_run, H. reflexivity. Qed.

Lemma GetToken_in_valid (s : QS) :
  validTokens (q_lc s) <> [] ->
  In (fst (GetToken env s)) (validTokens (q_lc s)).
Proof.
  intros H. rewrite GetToken_run.
  remember (validTokens (q_lc s)) as vt eqn:Hv.
  destruct vt as [|v vs]; [congruence|].
  cbn [fst]. apply nth_In. apply Nat.mod_upper_bound. simpl; lia.
Qed.

End PoolFacts.

(** C5, as stated, fails: with the only credential of the pool marked
    invalid, [GetToken] falls back to entry 0 and returns that credential. *)
Lemma C5_fallback_returns_invalid :
  Models.isInvalid Samples.poolDead
    (fst (Crawler.GetToken (Samples.envAlways TransportError)
            {| Crawler.q_lc := Samples.poolDead; Crawler.q_io := Samples.io0 |})) = true.
Proof. reflexivity. Qed.

(** C5, amended: whenever at least one credential of the pool is not marked
    invalid, [GetToken] returns a credential of the pool that is not marked
    invalid, whatever the random draw. *)
Theorem C5_GetToken_valid_when_some_valid (env : Env) (s : Crawler.QS) :
  Crawler.validTokens (Crawler.q_lc s) <> [] ->
  In (fst (Crawler.GetToken env s)) (Models.Tokens (Crawler.q_lc s)) /\
  Models.isInvalid (Crawler.q_lc s) (fst (Crawler.GetToken env s)) = false.
Proof.
  intros H. apply validTokens_spec. apply GetToken_in_valid. exact H.
Qed.

Lemma C5_GetToken_valid_witness :
  In (fst (Crawler.GetToken (Samples.envAlways TransportError)
             {| Crawler.q_lc := Samples.poolHalf; Crawler.q_io := Samples.io0 |}))
     (Models.Tokens Samples.poolHalf) /\
  Models.isInvalid Samples.poolHalf
    (fst (Crawler.GetToken (Samples.envAlways TransportError)
            {| Crawler.q_lc := Samples.poolHalf; Crawler.q_io := Samples.io0 |})) = false.
Proof.
  apply (C5_GetToken_valid_when_some_valid (Samples.envAlways TransportError)
           {| Crawler.q_lc := Samples.poolHalf; Crawler.q_io := Samples.io0 |}).
  vm_compute. discriminate.
Defined.

(** ** Import of the emails file *)

Section ImportFacts.
Import Database.

Lemma insertEmail_emails (email : string) (d : DB) :
  map e_email (emails (insertEmail email d)) =
    if bool_decide (email ∈ map e_email (emails d))
    then map e_email (emails d)
    else map e_email (emails d) ++ [email].
Proof.
  unfold insertEmail. case_bool_decide; [reflexivity|].
  simpl. rewrite map_app. reflexivity.
Qed.

Lemma insertEmail_pending (email : string) (d : DB) :
  Forall (fun r => e_status r = EmailStatusPending) (emails d) ->
  Forall (fun r => e_status r = EmailStatusPending) (emails (insertEmail email d)).
Proof.
  intros H. unfold insertEmail. case_bool_decide; [exact H|].
  simpl. apply Forall_app. split; [exact H|]. constructor; [reflexivity|constructor].
Qed.

Lemma ImportEmails_emails (l : list string) (d : DB) :
  map e_email (emails (ImportEmails l d)) =
    fold_left
      (fun acc x => if bool_decide (x ∈ acc) then acc else acc ++ [x])
      (List.filter Spec.keepEmail (map GoStrings.TrimSpace l))
      (map e_email (emails d)).
Proof.
  unfold ImportEmails. revert d.
  induction l as [|x l IH]; intros d; [reflexivity|].
  simpl. fold (Spec.keepEmail (GoStrings.TrimSpace x)).
  destruct (Spec.keepEmail (GoStrings.TrimSpace x)); simpl.
  - rewrite IH, insertEmail_emails. reflexivity.
  - apply IH.
Qed.

Lemma ImportEmails_pending (l : list string) (d : DB) :
  Forall (fun r => e_status r = EmailStatusPending) (emails d) ->
  Forall (fun r => e_status r = EmailStatusPending) (emails (ImportEmails l d)).
Proof.
  unfold ImportEmails. revert d.
  induction l as [|x l IH]; intros d H; [exact H|].
  simpl. destruct (_ && _); apply IH; [apply insertEmail_pending|]; exact H.
Qed.

Lemma filter_all_pending (rows : list EmailRow) :
  Forall (fun r => e_status r = EmailStatusPending) rows ->
  filter (fun r => e_status r = EmailStatusPending) rows = rows.
Proof.
  induction 1 as [|r rows Hr _ IH]; [reflexivity|].
  rewrite filter_cons. destruct (decide _); [|contradiction]. rewrite IH. reflexivity.
Qed.

(** What the import round trip gives on a fresh schema: the emails the
    file scan kept, trimmed and filtered once more by the repository,
    without the later duplicates, in file order. *)
Lemma import_then_GetPending (content : string) :
  GetPendingEmails 0 (Storage.ImportEmailsFromFile content InitSchema) =
    Spec.dedupFirst
      (List.filter Spec.keepEmail (map GoStrings.TrimSpace (Storage.emailsOfFile content))).
Proof.
  unfold GetPendingEmails, Storage.ImportEmailsFromFile, sqlLimit. simpl.
  rewrite filter_all_pending by (apply ImportEmails_pending; constructor).
  rewrite ImportEmails_emails. reflexivity.
Qed.

End ImportFacts.

(** C6 fails on the code for a comment line that holds a comma: the scan
    tests the text after the comma, not the line, for a leading [#].  On the
    file ["#old,a@x.com\n"] the import followed by [GetPendingEmails 0]
    returns [a@x.com], where the specification's words give no entry. *)
Theorem C6_comment_line_with_comma_is_imported :
  Database.GetPendingEmails 0
    (Storage.ImportEmailsFromFile Samples.commentedCsv Database.InitSchema) = ["a@x.com"]
  /\ Spec.importedEntries Samples.commentedCsv = [].
Proof. split; vm_compute; reflexivity. Qed.

(** ** The profile parser *)

Section ExtractFacts.
Import Models Crawler Json.
Variable env : Env.

Lemma ExtractProfileData_object (body : string) (data p : gmap string Value)
    (rest : list Value) :
  Unmarshal_map (json_decode env body) = Some data ->
  data !! "persons" = Some (JArray (JObject p :: rest)) ->
  ExtractProfileData env body =
    ({| User := Spec.stringAt p "displayName";
        LinkedInURL := Spec.stringAt p "linkedInUrl";
        ConnectionCount := Spec.countOf (goarch env) (p !! "connectionCount");
        Location := Spec.stringAt p "location" |}, None).
Proof.
  intros Hd Hp. unfold ExtractProfileData, Spec.stringAt, Spec.countOf.
  rewrite Hd, Hp.
  destruct (p !! "displayName") as [[]|];
    destruct (p !! "linkedInUrl") as [[]|];
    destruct (p !! "connectionCount") as [[]|];
    destruct (p !! "location") as [[]|]; reflexivity.
Qed.

Lemma ExtractProfileData_no_person (body : string) (data : gmap string Value) :
  Unmarshal_map (json_decode env body) = Some data ->
  data !! "persons" = None \/ data !! "persons" = Some (JArray []) ->
  ExtractProfileData env body = (emptyProfile, None).
Proof.
  intros Hd [Hp|Hp]; unfold ExtractProfileData; rewrite Hd, Hp; reflexivity.
Qed.

(** A parse that fails leaves the profile empty. *)
Lemma ExtractProfileData_error (body : string) :
  snd (ExtractProfileData env body) <> None ->
  fst (ExtractProfileData env body) = emptyProfile.
Proof.
  unfold ExtractProfileData.
  destruct (Unmarshal_map (json_decode env body)) as [data|]; [|reflexivity].
  destruct (data !! "persons") as [[| | | |[|[] ?]|]|]; simpl; congruence.
Qed.

Lemma stringAt_fieldOf (p : gmap string Value) (key : string) :
  Spec.fieldOf p key (Spec.stringAt p key).
Proof.
  unfold Spec.fieldOf, Spec.stringAt. split.
  - intros a ->. reflexivity.
  - intros ->. reflexivity.
Qed.

(** The integer part as the conversion computes it is the truncation
    toward zero of the value. *)
Lemma float64_intpart_trunc (f : float) :
  float64_intpart f = Spec.truncTowardZero f.
Proof.
  unfold float64_intpart, Spec.truncTowardZero.
  destruct (Prim2SF f) as [| | |s m e]; try reflexivity.
  f_equal. destruct (Z.leb_spec 0 e) as [He|He].
  - rewrite Z.shiftl_mul_pow2 by lia. destruct s; [|reflexivity].
    rewrite <- Z.mul_opp_l. reflexivity.
  - rewrite Z.shiftr_div_pow2 by lia.
    assert (Hpow : (0 < 2 ^ (- e))%Z) by (apply Z.pow_pos_nonneg; lia).
    destruct s.
    + change (Z.neg m) with (- Z.pos m)%Z. rewrite Z.quot_opp_l by lia.
      rewrite Z.quot_div_nonneg by lia. reflexivity.
    + rewrite Z.quot_div_nonneg by lia. reflexivity.
Qed.

Lemma int_of_float64_in_range (f : float) (z : Z) :
  Spec.truncTowardZero f = Some z ->
  (- 2 ^ 63 <= z < 2 ^ 63)%Z ->
  int_of_float64 (goarch env) f = z.
Proof.
  intros Ht Hr. unfold int_of_float64. rewrite float64_intpart_trunc, Ht.
  unfold minInt64, maxInt64.
  destruct (Z.leb_spec (- 2 ^ 63) z); [|lia].
  destruct (Z.leb_spec z (2 ^ 63 - 1)); [reflexivity|lia].
Qed.

(** The connection count of a decoded object body, by the JSON type of
    the field. *)
Lemma ExtractProfileData_count (body : string) (data p : gmap string Value)
    (rest : list Value) :
  Unmarshal_map (json_decode env body) = Some data ->
  data !! "persons" = Some (JArray (JObject p :: rest)) ->
  ConnectionCount (fst (ExtractProfileData env body)) =
    Spec.countOf (goarch env) (p !! "connectionCount").
Proof.
  intros Hd Hp. rewrite (ExtractProfileData_object body data p rest Hd Hp). reflexivity.
Qed.

End ExtractFacts.

(** C7: for a body that decodes to a JSON object, the parser returns no
    error; when [persons] is an array whose first element is an object, the
    four fields are the strings stored under [displayName], [linkedInUrl],
    [location] and [connectionCount] of that element, and a field whose key
    is absent is the empty string; when [persons] is missing or is the empty
    array the profile is entirely empty. *)
Theorem C7_ExtractProfileData_reads_persons0 (env : Env) (body : string)
    (data : gmap string Json.Value) :
  Json.Unmarshal_map (json_decode env body) = Some data ->
  snd (Crawler.ExtractProfileData env body) = None /\
  (forall p rest,
      data !! "persons" = Some (Json.JArray (Json.JObject p :: rest)) ->
      Spec.fieldOf p "displayName" (Models.User (fst (Crawler.ExtractProfileData env body))) /\
      Spec.fieldOf p "linkedInUrl" (Models.LinkedInURL (fst (Crawler.ExtractProfileData env body))) /\
      Spec.fieldOf p "location" (Models.Location (fst (Crawler.ExtractProfileData env body))) /\
      Spec.fieldOf p "connectionCount"
        (Models.ConnectionCount (fst (Crawler.ExtractProfileData env body)))) /\
  (data !! "persons" = None \/ data !! "persons" = Some (Json.JArray []) ->
   fst (Crawler.ExtractProfileData env body) = Models.emptyProfile).
Proof.
  intros Hd. split; [|split].
  - unfold Crawler.ExtractProfileData. rewrite Hd.
    destruct (data !! "persons") as [[| | | |[|[] ?]|]|]; reflexivity.
  - intros p rest Hp.
    rewrite (ExtractProfileData_object env body data p rest Hd Hp). simpl.
    repeat split; try apply stringAt_fieldOf.
    + intros a ->. reflexivity.
    + intros ->. reflexivity.
  - intros Hp. rewrite (ExtractProfileData_no_person env body data Hd Hp). reflexivity.
Qed.

Lemma C7_ExtractProfileData_witness :
  Crawler.ExtractProfileData (Samples.envBody amd64 Samples.bodyAB) Samples.bodyAB =
    ({| Models.User := "A"; Models.LinkedInURL := "B";
        Models.ConnectionCount := ""; Models.Location := "" |}, None)
  /\ snd (Crawler.ExtractProfileData (Samples.envBody amd64 Samples.bodyAB) Samples.bodyAB) = None.
Proof.
  split; [reflexivity|].
  apply (C7_ExtractProfileData_reads_persons0
           (Samples.envBody amd64 Samples.bodyAB) Samples.bodyAB Samples.dataAB).
  reflexivity.
Defined.

(** C10, as stated, fails for a number whose integer part does not fit a
    64-bit [int]: for [connectionCount] = 1e19 the parser stores the lowest
    integer on amd64 and the highest on arm64, not the decimal string of
    10000000000000000000. *)
Lemma C10_count_overflows_at_1e19 :
  Spec.truncTowardZero 1e19%float = Some 10000000000000000000%Z /\
  Models.ConnectionCount
    (fst (Crawler.ExtractProfileData (Samples.envBody amd64 (Samples.bodyCount "1e19"))
            (Samples.bodyCount "1e19"))) = "-9223372036854775808" /\
  Models.ConnectionCount
    (fst (Crawler.ExtractProfileData (Samples.envBody arm64 (Samples.bodyCount "1e19"))
            (Samples.bodyCount "1e19"))) = "9223372036854775807" /\
  Crawler.Sprintf_d 10000000000000000000 = "10000000000000000000".
Proof. repeat split; vm_compute; reflexivity. Qed.

(** C10, amended: when [persons[0].connectionCount] is a JSON number whose
    truncation toward zero lies in the 64-bit range, the parser stores the
    decimal string of that truncation (3.9 gives "3"); a JSON string is
    copied verbatim; any other JSON type leaves the field empty. *)
Theorem C10_connectionCount_by_type (env : Env) (body : string)
    (data p : gmap string Json.Value) (rest : list Json.Value) :
  Json.Unmarshal_map (json_decode env body) = Some data ->
  data !! "persons" = Some (Json.JArray (Json.JObject p :: rest)) ->
  (forall v z,
      p !! "connectionCount" = Some (Json.JNumber v) ->
      Spec.truncTowardZero v = Some z ->
      (- 2 ^ 63 <= z < 2 ^ 63)%Z ->
      Models.ConnectionCount (fst (Crawler.ExtractProfileData env body)) = Crawler.Sprintf_d z) /\
  (forall s,
      p !! "connectionCount" = Some (Json.JString s) ->
      Models.ConnectionCount (fst (Crawler.ExtractProfileData env body)) = s) /\
  (forall j,
      p !! "connectionCount" = Some j ->
      (forall v, j <> Json.JNumber v) -> (forall s, j <> Json.JString s) ->
      Models.ConnectionCount (fst (Crawler.ExtractProfileData env body)) = EmptyString).
Proof.
  intros Hd Hp. rewrite (ExtractProfileData_count env body data p rest Hd Hp).
  split; [|split].
  - intros v z -> Ht Hr. simpl.
    rewrite (int_of_float64_in_range env v z Ht Hr). reflexivity.
  - intros s ->. reflexivity.
  - intros j -> Hn Hs. destruct j; try reflexivity.
    + exfalso. apply (Hn f). reflexivity.
    + exfalso. apply (Hs s). reflexivity.
Qed.

Lemma C10_connectionCount_witness :
  Models.ConnectionCount
    (fst (Crawler.ExtractProfileData (Samples.envBody amd64 (Samples.bodyCount "3.9"))
            (Samples.bodyCount "3.9"))) = Crawler.Sprintf_d 3 /\
  Crawler.Sprintf_d 3 = "3".
Proof.
  split; [|reflexivity].
  refine (proj1 (C10_connectionCount_by_type
                   (Samples.envBody amd64 (Samples.bodyCount "3.9"))
                   (Samples.bodyCount "3.9") (Samples.dataCount 3.9%float)
                   (Samples.personCount 3.9%float) [] _ _) 3.9%float 3%Z _ _ _).
  - reflexivity.
  - reflexivity.
  - reflexivity.
  - reflexivity.
  - lia.
Defined.


(** ** Shutdown *)

Section ShutdownFacts.
Import Orchestrator.

Lemma set_io_id (w : World) : set_io (io w) w = w.
Proof. destruct w; reflexivity. Qed.

Lemma SaveStateOnShutdown_run (w : World) : SaveStateOnShutdown w = (tt, w).
Proof.
  unfold SaveStateOnShutdown, Storage.WriteEmailsToFile, bind, get, ret.
  destruct (length (remainingEmailsOf w) =? 0)%nat; reflexivity.
Qed.

End ShutdownFacts.

(** C9, as stated, fails: in the state where the store already holds a
    terminal status for the only email, the hook computes the remaining list
    [a@x.com] and records it nowhere: the emails file keeps its old content,
    the store still says that nothing remains, and the whole state is what
    it was before. *)
Lemma C9_hook_records_nothing :
  Orchestrator.remainingEmailsOf Samples.worldOneDone = ["a@x.com"] /\
  emails_txt (Orchestrator.io (snd (Orchestrator.SaveStateOnShutdown Samples.worldOneDone)))
    <> Spec.linesOf ["a@x.com"] /\
  Database.GetRemainingEmails
    (db (Orchestrator.io (snd (Orchestrator.SaveStateOnShutdown Samples.worldOneDone)))) = [] /\
  snd (Orchestrator.SaveStateOnShutdown Samples.worldOneDone) = Samples.worldOneDone.
Proof.
  rewrite SaveStateOnShutdown_run. simpl snd.
  repeat split; try (vm_compute; reflexivity).
  vm_compute. discriminate.
Qed.

(** C9, amended: on SIGINT or SIGTERM the handler sets the shutdown flag,
    runs [SaveStateOnShutdown], sleeps the configured pause and exits; the
    hook hands the remaining list it computes to [WriteEmailsToFile], which
    is a no-op, so for every in-memory state it leaves the emails file, the
    store and the rest of the state as they were. *)
Theorem C9_signal_handler_and_hook (w : Orchestrator.World) (sleepDuration : Z) :
  Orchestrator.SaveStateOnShutdown w = (tt, w) /\
  let w' := snd (Utils.signalHandler (Some Orchestrator.SaveStateOnShutdown) sleepDuration w) in
  Orchestrator.shutdownRequested w' = 1%Z /\
  trace (Orchestrator.io w') = trace (Orchestrator.io w) ++ [EvSleep sleepDuration; EvExit 0] /\
  emails_txt (Orchestrator.io w') = emails_txt (Orchestrator.io w) /\
  db (Orchestrator.io w') = db (Orchestrator.io w) /\
  hit_txt (Orchestrator.io w') = hit_txt (Orchestrator.io w).
Proof.
  split; [apply SaveStateOnShutdown_run|].
  unfold Utils.signalHandler. rewrite !bind_run. simpl.
  rewrite SaveStateOnShutdown_run. simpl.
  rewrite <- app_assoc. repeat split; reflexivity.
Qed.

(** ** The validator *)

Section ValidatorFacts.
Import Crawler.
Variable env : Env.

Lemma removeCalls_app (t1 t2 : list Event) :
  Spec.removeCalls (t1 ++ t2) = Spec.removeCalls t1 ++ Spec.removeCalls t2.
Proof.
  induction t1 as [|e t1 IH]; [reflexivity|].
  destruct e; simpl; rewrite IH; reflexivity.
Qed.

(** One round of [ValidateExistingTokens]. *)
Lemma validateExistingOne_run (vs : ValidatorService) (testEmail token : string)
    (acc : list string) (io : IO) :
  let o := http_Do env (n_http io) testEmail token in
  let r := validateExistingOne env vs testEmail acc token io in
  fst r = (if Spec.accepted o then acc ++ [token] else acc) /\
  n_http (snd r) = S (n_http io) /\
  Spec.removeCalls (trace (snd r)) =
    Spec.removeCalls (trace io) ++ (if Spec.hardRejected o then [token] else []).
Proof.
  unfold validateExistingOne, DoQueryProfile, doQueryProfile, removeTokenFromFile,
    Sleep, emit, modify, bind, ret, Spec.accepted, Spec.hardRejected.
  destruct (http_Do env (n_http io) testEmail token) as [|status body]; simpl.
  - rewrite !removeCalls_app, app_nil_r. simpl. rewrite app_nil_r. auto.
  - destruct (Z.eqb_spec status 200) as [->|H200]; simpl.
    + destruct body as [b|]; simpl.
      * rewrite !removeCalls_app. simpl. rewrite !app_nil_r. auto.
      * rewrite !removeCalls_app. simpl. rewrite !app_nil_r. auto.
    + destruct (Z.eqb_spec status 429) as [->|H429]; simpl.
      { rewrite !removeCalls_app. simpl. rewrite !app_nil_r. auto. }
      destruct (Z.eqb_spec status 500) as [->|H500]; simpl.
      { rewrite !removeCalls_app. simpl. rewrite !app_nil_r. auto. }
      destruct (Z.eqb_spec status 401) as [->|H401]; simpl.
      { destruct (Storage.RemoveTokenFromFile _ _ _); simpl.
        rewrite !removeCalls_app. simpl. rewrite !app_nil_r. auto. }
      destruct (Z.eqb_spec status 424) as [->|H424]; simpl.
      { destruct (Storage.RemoveTokenFromFile _ _ _); simpl.
        rewrite !removeCalls_app. simpl. rewrite !app_nil_r. auto. }
      rewrite !removeCalls_app. simpl. rewrite !app_nil_r. auto.
Qed.

(** One round of [ValidateTokensBatch]. *)
Lemma validateBatchOne_run (testEmail token : string) (acc : list string) (io : IO) :
  let o := http_Do env (n_http io) testEmail token in
  let r := validateBatchOne env testEmail acc token io in
  fst r = (if Spec.accepted o then acc ++ [token] else acc) /\
  n_http (snd r) = S (n_http io) /\
  Spec.removeCalls (trace (snd r)) = Spec.removeCalls (trace io).
Proof.
  unfold validateBatchOne, DoQueryProfile, doQueryProfile,
    Sleep, emit, modify, bind, ret, Spec.accepted.
  destruct (http_Do env (n_http io) testEmail token) as [|status body]; simpl.
  - rewrite !removeCalls_app, app_nil_r. simpl. rewrite app_nil_r. auto.
  - destruct (Z.eqb_spec status 200) as [->|H200]; simpl.
    + destruct body as [b|]; simpl;
        rewrite !removeCalls_app; simpl; rewrite !app_nil_r; auto.
    + destruct (status =? 429)%Z; simpl;
        [rewrite !removeCalls_app; simpl; rewrite !app_nil_r; auto|].
      destruct (status =? 500)%Z; simpl;
        rewrite !removeCalls_app; simpl; rewrite !app_nil_r; auto.
Qed.

Lemma probes_cons (io : IO) (testEmail token : string) (tokens : list string) (io1 : IO) :
  n_http io1 = S (n_http io) ->
  Spec.probes env io testEmail (token :: tokens) =
    (token, http_Do env (n_http io) testEmail token) :: Spec.probes env io1 testEmail tokens.
Proof.
  intros H. unfold Spec.probes. simpl. rewrite Nat.add_0_r. f_equal.
  apply imap_ext. intros k t _. simpl. rewrite H. f_equal. f_equal. lia.
Qed.

Lemma validateExisting_fold (vs : ValidatorService) (testEmail : string)
    (tokens acc : list string) (io : IO) :
  let r := foldM (validateExistingOne env vs testEmail) acc tokens io in
  fst r = acc ++ Spec.acceptedOf (Spec.probes env io testEmail tokens) /\
  Spec.removeCalls (trace (snd r)) =
    Spec.removeCalls (trace io) ++ Spec.hardRejectedOf (Spec.probes env io testEmail tokens).
Proof.
  revert acc io. induction tokens as [|token tokens IH]; intros acc io.
  - simpl. rewrite !app_nil_r. auto.
  - simpl. rewrite bind_run.
    destruct (validateExistingOne_run vs testEmail token acc io) as (Hr & Hn & Ht).
    destruct (IH (fst (validateExistingOne env vs testEmail acc token io))
                 (snd (validateExistingOne env vs testEmail acc token io))) as (IH1 & IH2).
    rewrite (probes_cons io testEmail token tokens _ Hn).
    unfold Spec.acceptedOf, Spec.hardRejectedOf in *. simpl.
    rewrite IH1, IH2, Hr, Ht.
    destruct (Spec.accepted _), (Spec.hardRejected _); simpl;
      rewrite <- ?app_assoc; simpl; rewrite ?app_nil_r; auto.
Qed.

Lemma validateBatch_fold (testEmail : string) (tokens acc : list string) (io : IO) :
  let r := foldM (validateBatchOne env testEmail) acc tokens io in
  fst r = acc ++ Spec.acceptedOf (Spec.probes env io testEmail tokens) /\
  Spec.removeCalls (trace (snd r)) = Spec.removeCalls (trace io).
Proof.
  revert acc io. induction tokens as [|token tokens IH]; intros acc io.
  - simpl. rewrite !app_nil_r. auto.
  - simpl. rewrite bind_run.
    destruct (validateBatchOne_run testEmail token acc io) as (Hr & Hn & Ht).
    destruct (IH (fst (validateBatchOne env testEmail acc token io))
                 (snd (validateBatchOne env testEmail acc token io))) as (IH1 & IH2).
    rewrite (probes_cons io testEmail token tokens _ Hn).
    unfold Spec.acceptedOf in *. simpl.
    rewrite IH1, IH2, Hr, Ht.
    destruct (Spec.accepted _); simpl; rewrite <- ?app_assoc; auto.
Qed.

End ValidatorFacts.

(** C4, as stated, fails: a probe that ends in a transport error is
    rejected, not accepted ([ValidateExistingTokens] returns no credential),
    and [ValidateTokensBatch] calls no invalidation for a 401. *)
Lemma C4_transport_error_is_rejected :
  fst (Crawler.ValidateExistingTokens (Samples.envAlways TransportError)
         Crawler.NewValidatorService ["T"] [] Samples.io0) = inl [] /\
  Spec.removeCalls
    (trace (snd (Crawler.ValidateTokensBatch (Samples.envAlways (HttpResponse 401 None))
                   Crawler.NewValidatorService ["T"] [] Samples.io0))) = [].
Proof. split; reflexivity. Qed.

(** C4, amended: the validator accepts a credential exactly when its probe
    returns status 200 with a readable body, or status 429, or status 500;
    a probe that ends in a transport error, like any other status, is
    rejected.  [ValidateExistingTokens] calls [RemoveTokenFromFile] exactly
    for the credentials whose probe ended with status 401 or 424, and
    [ValidateTokensBatch] never calls it. *)
Theorem C4_validator_classification (env : Env) (vs : Crawler.ValidatorService)
    (tokens totalEmails : list string) (io : IO) :
  tokens <> [] ->
  let ps := Spec.probes env io (Crawler.testEmailOf totalEmails) tokens in
  let existing := Crawler.ValidateExistingTokens env vs tokens totalEmails io in
  let fresh := Crawler.ValidateTokensBatch env vs tokens totalEmails io in
  fst existing = inl (Spec.acceptedOf ps) /\
  Spec.removeCalls (trace (snd existing)) =
    Spec.removeCalls (trace io) ++ Spec.hardRejectedOf ps /\
  fst fresh = inl (Spec.acceptedOf ps) /\
  Spec.removeCalls (trace (snd fresh)) = Spec.removeCalls (trace io).
Proof.
  intros Hne. destruct tokens as [|t ts]; [congruence|].
  unfold Crawler.ValidateExistingTokens, Crawler.ValidateTokensBatch.
  cbn [length Nat.eqb]. cbv zeta. rewrite !bind_run.
  destruct (validateExisting_fold env vs (Crawler.testEmailOf totalEmails) (t :: ts) [] io)
    as (E1 & E2).
  destruct (validateBatch_fold env (Crawler.testEmailOf totalEmails) (t :: ts) [] io)
    as (B1 & B2).
  unfold ret; cbn [fst snd].
  rewrite E1, E2, B1, B2. auto.
Qed.

Lemma C4_validator_witness :
  fst (Crawler.ValidateExistingTokens (Samples.envAlways (HttpResponse 401 None))
         Crawler.NewValidatorService ["T"] [] Samples.io0) = inl [] /\
  Spec.removeCalls
    (trace (snd (Crawler.ValidateExistingTokens (Samples.envAlways (HttpResponse 401 None))
                   Crawler.NewValidatorService ["T"] [] Samples.io0))) = ["T"].
Proof.
  destruct (C4_validator_classification (Samples.envAlways (HttpResponse 401 None))
              Crawler.NewValidatorService ["T"] [] Samples.io0) as (H1 & H2 & _).
  - discriminate.
  - split; [exact H1 | exact H2].
Defined.


(** ** Frames and loops of the state monad *)

Section MonadFacts.
Context {S : Type} (R : S -> S -> Prop).
Hypothesis R_refl : forall s, R s s.
Hypothesis R_trans : forall s1 s2 s3, R s1 s2 -> R s2 s3 -> R s1 s3.

Lemma preserves_ret {A : Type} (a : A) : preserves R (ret a).
Proof. intros s. apply R_refl. Qed.

Lemma preserves_gets {A : Type} (f : S -> A) : preserves R (gets f).
Proof. intros s. apply R_refl. Qed.

Lemma preserves_bind {A B : Type} (m : State S A) (k : A -> State S B) :
  preserves R m -> (forall a, preserves R (k a)) -> preserves R (bind m k).
Proof.
  intros Hm Hk s. rewrite bind_run. eapply R_trans; [apply Hm|apply Hk].
Qed.

End MonadFacts.

Lemma returns_ret {S A : Type} (P : A -> Prop) (a : A) : P a -> returns (S:=S) P (ret a).
Proof. intros H s. exact H. Qed.

Lemma returns_bind {S A B : Type} (Q : A -> Prop) (P : B -> Prop)
    (m : State S A) (k : A -> State S B) :
  returns Q m -> (forall a, Q a -> returns P (k a)) -> returns P (bind m k).
Proof. intros Hm Hk s. rewrite bind_run. apply Hk. apply Hm. Qed.

Lemma returns_any {S A : Type} (m : State S A) : returns (fun _ => True) m.
Proof. intros s. exact I. Qed.

Lemma for_range_continue {S A : Type} (n : nat) (i : Z) (body : Z -> State S (Ctl A)) (s : S) :
  fst (body i s) = Continue ->
  for_range (Datatypes.S n) i body s = for_range n (i + 1) body (snd (body i s)).
Proof. intros H. simpl. rewrite bind_run, H. reflexivity. Qed.

Lemma for_range_return {S A : Type} (n : nat) (i : Z) (body : Z -> State S (Ctl A))
    (s : S) (a : A) :
  fst (body i s) = Return a ->
  for_range (Datatypes.S n) i body s = (Some a, snd (body i s)).
Proof. intros H. simpl. rewrite bind_run, H. reflexivity. Qed.

Lemma last_cons_default {A : Type} (l : list A) (x d : A) :
  List.last l x = List.last (x :: l) d.
Proof.
  revert x d. induction l as [|y l IH]; intros x d; [reflexivity|].
  change (List.last (x :: y :: l) d) with (List.last (y :: l) d).
  rewrite <- (IH y x), <- (IH y d). reflexivity.
Qed.

Lemma sameFiles_refl (io : IO) : Spec.sameFiles io io.
Proof. unfold Spec.sameFiles; auto. Qed.

Lemma sameFiles_trans (a b c : IO) :
  Spec.sameFiles a b -> Spec.sameFiles b c -> Spec.sameFiles a c.
Proof. unfold Spec.sameFiles. intros (?&?&?) (?&?&?). repeat split; congruence. Qed.

Lemma sameFilesQ_refl (s : Crawler.QS) : Spec.sameFilesQ s s.
Proof. apply sameFiles_refl. Qed.

Lemma sameFilesQ_trans (a b c : Crawler.QS) :
  Spec.sameFilesQ a b -> Spec.sameFilesQ b c -> Spec.sameFilesQ a c.
Proof. apply sameFiles_trans. Qed.

(** ** The query service *)

Section QueryFacts.
Import Models Crawler.
Variable env : Env.

Lemma liftIO_run {A : Type} (m : State IO A) (s : QS) :
  Crawler.liftIO m s = (fst (m (q_io s)), {| q_lc := q_lc s; q_io := snd (m (q_io s)) |}).
Proof. unfold Crawler.liftIO. destruct (m (q_io s)); reflexivity. Qed.

Lemma GetValidTokenCount_run (s : QS) :
  GetValidTokenCount s = (Z.of_nat (length (validTokens (q_lc s))), s).
Proof. reflexivity. Qed.

Lemma MarkTokenAsInvalid_run (token : string) (s : QS) :
  MarkTokenAsInvalid token s =
    (tt, {| q_lc := set_InvalidTokens (<[token := true]> (InvalidTokens (q_lc s))) (q_lc s);
            q_io := q_io s |}).
Proof. reflexivity. Qed.

Lemma doQueryProfile_run (email token : string) (io : IO) :
  doQueryProfile env email token io =
    (resultOf (http_Do env (n_http io) email token),
     {| n_http := Datatypes.S (n_http io); n_wait := n_wait io; n_rand := n_rand io;
        trace := trace io ++ [EvHTTP email token]; db := db io;
        hit_txt := hit_txt io; emails_txt := emails_txt io |}).
Proof. reflexivity. Qed.

(** *** What a query leaves untouched *)

Lemma pres_liftIO {A : Type} (m : State IO A) :
  preserves Spec.sameFiles m -> preserves Spec.sameFilesQ (Crawler.liftIO m).
Proof.
  intros H s. unfold Spec.sameFilesQ, Crawler.liftIO. specialize (H (q_io s)).
  destruct (m (q_io s)); exact H.
Qed.

Lemma pres_modifyLC (f : LinkedInCrawler -> LinkedInCrawler) :
  preserves Spec.sameFilesQ (modifyLC f).
Proof. intros s. apply sameFiles_refl. Qed.

Lemma pres_waitCtx : preserves Spec.sameFiles (waitCtx env).
Proof. intros io. unfold Spec.sameFiles; simpl; auto. Qed.

Lemma pres_Intn (n : nat) : preserves Spec.sameFiles (Intn env n).
Proof. intros io. unfold Spec.sameFiles; simpl; auto. Qed.

Lemma pres_doQueryProfile (email token : string) :
  preserves Spec.sameFiles (doQueryProfile env email token).
Proof. intros io. unfold Spec.sameFiles; simpl; auto. Qed.

Lemma pres_emit (e : Event) : preserves Spec.sameFiles (emit e).
Proof. intros io. unfold Spec.sameFiles; simpl; auto. Qed.

Lemma pres_removeTokenFromFile (ts : Storage.Service) (token : string) :
  preserves Spec.sameFiles (removeTokenFromFile ts token).
Proof.
  intros io. unfold removeTokenFromFile, emit, modify, bind, Storage.RemoveTokenFromFile.
  destruct (Storage.dbStorageSet ts); unfold Spec.sameFiles; simpl; auto.
Qed.

Ltac pres_step :=
  first
    [ apply preserves_ret; apply sameFilesQ_refl
    | apply preserves_gets; apply sameFilesQ_refl
    | apply pres_modifyLC
    | apply pres_liftIO
    | apply pres_waitCtx | apply pres_Intn | apply pres_doQueryProfile
    | apply pres_emit | apply pres_removeTokenFromFile
    | apply preserves_bind; [apply sameFilesQ_trans| |intros ?]
    | match goal with
      | |- preserves _ (if ?b then _ else _) => destruct b
      | |- preserves _ (match ?x with _ => _ end) => destruct x
      end ].

Lemma pres_GetToken : preserves Spec.sameFilesQ (GetToken env).
Proof. unfold GetToken. repeat pres_step. Qed.

Lemma pres_CheckIfAllTokensInvalid : preserves Spec.sameFilesQ CheckIfAllTokensInvalid.
Proof. unfold CheckIfAllTokensInvalid. repeat pres_step. Qed.

Lemma pres_queryWithSwitch (qs : QueryService) (email : string) :
  preserves Spec.sameFilesQ (queryWithSwitch env qs email).
Proof.
  unfold queryWithSwitch, GetValidTokenCount, MarkTokenAsInvalid, Sleep.
  repeat first [apply pres_GetToken | apply pres_CheckIfAllTokensInvalid | pres_step].
Qed.

Lemma pres_QueryProfileWithRetryLogic (qs : QueryService) (email : string) :
  preserves Spec.sameFilesQ (QueryProfileWithRetryLogic env qs email).
Proof.
  unfold QueryProfileWithRetryLogic, AreAllTokensFailed, addActiveRequests.
  repeat first [apply pres_queryWithSwitch | pres_step].
Qed.

(** *** What a query returns *)

Lemma resultOf_hasProfile (o : HttpOutcome) : Spec.resultOK (resultOf o).
Proof.
  unfold Spec.resultOK. destruct o as [|st b]; [reflexivity|]. simpl.
  destruct (negb (st =? 200)%Z); [reflexivity|]. destruct b; reflexivity.
Qed.

Lemma returns_doQuery (email token : string) :
  returns Spec.resultOK (Crawler.liftIO (doQueryProfile env email token)).
Proof. intros s. rewrite liftIO_run. apply resultOf_hasProfile. Qed.

Ltac ret_step :=
  first
    [ apply returns_doQuery
    | apply returns_ret; first [assumption | reflexivity]
    | eapply returns_bind; [apply returns_doQuery | intros [[[? ?] ?] ?] ?]
    | eapply returns_bind; [apply returns_any | intros ? _]
    | match goal with
      | |- returns _ (if ?b then _ else _) => destruct b
      | |- returns _ (match ?x with _ => _ end) => destruct x
      end ].

Lemma queryWithSwitch_OK (qs : QueryService) (email : string) :
  returns Spec.resultOK (queryWithSwitch env qs email).
Proof. unfold queryWithSwitch. repeat ret_step. Qed.

Lemma QueryProfileWithRetryLogic_OK (qs : QueryService) (email : string) :
  returns Spec.resultOK (QueryProfileWithRetryLogic env qs email).
Proof.
  unfold QueryProfileWithRetryLogic.
  eapply returns_bind; [apply returns_any|intros failed _].
  destruct failed; [apply returns_ret; reflexivity|].
  eapply returns_bind; [apply returns_any|intros got _].
  destruct (negb got); [apply returns_ret; reflexivity|].
  eapply returns_bind; [apply returns_any|intros got2 _].
  destruct (negb got2); [apply returns_ret; reflexivity|].
  eapply returns_bind; [apply returns_any|intros _ _].
  eapply returns_bind; [apply queryWithSwitch_OK|intros r Hr].
  eapply returns_bind; [apply returns_any|intros _ _].
  apply returns_ret. exact Hr.
Qed.

(** *** A query that is rate limited *)

Lemma isInvalid_mark (lc : LinkedInCrawler) (token t : string) :
  isInvalid (set_InvalidTokens (<[token := true]> (InvalidTokens lc)) lc) t =
  if String.eqb t token then true else isInvalid lc t.
Proof.
  unfold isInvalid. simpl.
  destruct (String.eqb_spec t token) as [->|Hne].
  - rewrite lookup_insert_eq. reflexivity.
  - rewrite lookup_insert_ne by congruence. reflexivity.
Qed.

Lemma validTokens_mark (lc : LinkedInCrawler) (token : string) :
  validTokens (set_InvalidTokens (<[token := true]> (InvalidTokens lc)) lc) =
  List.filter (fun t => negb (String.eqb t token)) (validTokens lc).
Proof.
  unfold validTokens. simpl.
  induction (Tokens lc) as [|t ts IH]; [reflexivity|].
  simpl. rewrite isInvalid_mark.
  destruct (String.eqb_spec t token) as [->|Hne]; simpl.
  - destruct (isInvalid lc token); simpl; [apply IH|].
    rewrite String.eqb_refl. simpl. apply IH.
  - destruct (isInvalid lc t); simpl; [apply IH|].
    destruct (String.eqb_spec t token); [congruence|]. simpl. f_equal. apply IH.
Qed.

(** Among two or more distinct credentials, one differs from [x]. *)
Lemma NoDup_filter_other (l : list string) (x : string) :
  List.NoDup l -> (1 < length l)%nat ->
  List.filter (fun t => negb (String.eqb t x)) l <> [].
Proof.
  intros Hnd Hlen. destruct l as [|a [|b rest]]; simpl in Hlen; try lia.
  inversion Hnd as [|? ? Ha _]; subst.
  simpl. destruct (String.eqb_spec a x) as [->|]; simpl; [|discriminate].
  destruct (String.eqb_spec b x) as [->|]; simpl; [|discriminate].
  exfalso. apply Ha. left. reflexivity.
Qed.

Lemma GetToken_valid_run (s : QS) :
  validTokens (q_lc s) <> [] ->
  GetToken env s =
    (fst (GetToken env s),
     {| q_lc := q_lc s;
        q_io := {| n_http := n_http (q_io s); n_wait := n_wait (q_io s);
                   n_rand := Datatypes.S (n_rand (q_io s)); trace := trace (q_io s);
                   db := db (q_io s); hit_txt := hit_txt (q_io s);
                   emails_txt := emails_txt (q_io s) |} |}).
Proof.
  intros H. rewrite GetToken_run. destruct (validTokens (q_lc s)); [congruence|reflexivity].
Qed.

Lemma GetToken_fst_eq (s s' : QS) :
  Tokens (q_lc s) = Tokens (q_lc s') ->
  InvalidTokens (q_lc s) = InvalidTokens (q_lc s') ->
  n_rand (q_io s) = n_rand (q_io s') ->
  fst (GetToken env s) = fst (GetToken env s').
Proof.
  intros Ht Hi Hr. rewrite !GetToken_run.
  assert (Hv : validTokens (q_lc s) = validTokens (q_lc s')).
  { unfold validTokens, isInvalid. rewrite Ht, Hi. reflexivity. }
  rewrite Hv, Ht, Hr. destruct (validTokens (q_lc s')); reflexivity.
Qed.

(** With more than one valid credential, a 429 marks the credential in the
    pool and the query is reissued at once with another one. *)
Lemma queryWithSwitch_429_swap (qs : QueryService) (email : string) (lc : LinkedInCrawler)
    (io : IO) (b : option string) :
  let token := fst (GetToken env {| q_lc := lc; q_io := io |}) in
  http_Do env (n_http io) email token = HttpResponse 429 b ->
  List.NoDup (Tokens lc) -> ~ In EmptyString (Tokens lc) ->
  (1 < length (validTokens lc))%nat ->
  exists newToken,
    newToken <> token /\ In newToken (Tokens lc) /\ isInvalid lc newToken = false /\
    queryWithSwitch env qs email {| q_lc := lc; q_io := io |} =
      (resultOf (http_Do env (Datatypes.S (n_http io)) email newToken),
       {| q_lc := set_InvalidTokens (<[token := true]> (InvalidTokens lc)) lc;
          q_io := {| n_http := Datatypes.S (Datatypes.S (n_http io)); n_wait := n_wait io;
                     n_rand := Datatypes.S (Datatypes.S (n_rand io));
                     trace := trace io ++ [EvHTTP email token; EvHTTP email newToken];
                     db := db io; hit_txt := hit_txt io; emails_txt := emails_txt io |} |}).
Proof.
  intros token Hout Hnd Hne Hlen.
  assert (Hv : validTokens lc <> [])
    by (destruct (validTokens lc); simpl in Hlen; [lia|discriminate]).
  set (lc' := set_InvalidTokens (<[token := true]> (InvalidTokens lc)) lc).
  assert (Hv' : validTokens lc' <> []).
  { unfold lc'. rewrite validTokens_mark. apply NoDup_filter_other; [|exact Hlen].
    unfold validTokens. apply List.NoDup_filter. exact Hnd. }
  set (s2 := {| q_lc := lc';
                q_io := {| n_http := Datatypes.S (n_http io); n_wait := n_wait io;
                           n_rand := Datatypes.S (n_rand io);
                           trace := trace io ++ [EvHTTP email token]; db := db io;
                           hit_txt := hit_txt io; emails_txt := emails_txt io |} |}).
  set (newToken := fst (GetToken env s2)).
  assert (Hin' : In newToken (validTokens lc')) by (apply GetToken_in_valid; exact Hv').
  assert (Hnew : newToken <> token /\ In newToken (Tokens lc) /\ isInvalid lc newToken = false).
  { unfold lc' in Hin'. rewrite validTokens_mark in Hin'.
    apply filter_In in Hin'. destruct Hin' as [Hin Hneq].
    apply validTokens_spec in Hin. destruct Hin as [Hin Hval].
    destruct (String.eqb_spec newToken token); [discriminate|]. auto. }
  destruct Hnew as (Hneq & Hin & Hval).
  exists newToken. repeat split; try assumption.
  unfold queryWithSwitch. rewrite bind_run.
  rewrite (GetToken_valid_run {| q_lc := lc; q_io := io |} Hv). fold token.
  cbn [fst snd]. rewrite bind_run, liftIO_run, doQueryProfile_run.
  cbn [fst snd q_lc q_io n_http]. rewrite Hout.
  cbn [resultOf negb Z.eqb Pos.eqb fst snd].
  rewrite bind_run, GetValidTokenCount_run. cbn [fst snd q_lc].
  assert (Hlt : (1 <? Z.of_nat (length (validTokens lc)))%Z = true) by (apply Z.ltb_lt; lia).
  rewrite Hlt. rewrite bind_run, MarkTokenAsInvalid_run. cbn [fst snd q_lc q_io].
  fold lc'. rewrite bind_run. cbn [n_wait n_rand trace db hit_txt emails_txt].
  fold s2. fold newToken.
  destruct (String.eqb_spec newToken "") as [E|_].
  { exfalso. apply Hne. rewrite <- E. exact Hin. }
  destruct (String.eqb_spec newToken token) as [E|_]; [contradiction|].
  cbn [negb andb].
  rewrite (GetToken_valid_run s2 Hv'). cbn [snd].
  rewrite liftIO_run, doQueryProfile_run.
  unfold s2. cbn [fst snd q_lc q_io n_http n_wait n_rand trace db hit_txt emails_txt].
  rewrite <- app_assoc. reflexivity.
Qed.

(** With one valid credential, a 429 is followed by a sleep of one second
    and the same query again. *)
Lemma queryWithSwitch_429_single (qs : QueryService) (email : string) (lc : LinkedInCrawler)
    (io : IO) (b : option string) :
  let token := fst (GetToken env {| q_lc := lc; q_io := io |}) in
  http_Do env (n_http io) email token = HttpResponse 429 b ->
  length (validTokens lc) = 1%nat ->
  queryWithSwitch env qs email {| q_lc := lc; q_io := io |} =
    (resultOf (http_Do env (Datatypes.S (n_http io)) email token),
     {| q_lc := lc;
        q_io := {| n_http := Datatypes.S (Datatypes.S (n_http io)); n_wait := n_wait io;
                   n_rand := Datatypes.S (n_rand io);
                   trace := trace io ++ [EvHTTP email token; EvSleep 1000; EvHTTP email token];
                   db := db io; hit_txt := hit_txt io; emails_txt := emails_txt io |} |}).
Proof.
  intros token Hout Hlen.
  assert (Hv : validTokens lc <> [])
    by (destruct (validTokens lc); simpl in Hlen; [lia|discriminate]).
  unfold queryWithSwitch. rewrite bind_run.
  rewrite (GetToken_valid_run {| q_lc := lc; q_io := io |} Hv). fold token.
  cbn [fst snd]. rewrite bind_run, liftIO_run, doQueryProfile_run.
  cbn [fst snd q_lc q_io n_http]. rewrite Hout.
  cbn [resultOf negb Z.eqb Pos.eqb fst snd].
  rewrite bind_run, GetValidTokenCount_run. cbn [fst snd q_lc].
  rewrite Hlen. change (1 <? Z.of_nat 1)%Z with false. cbv iota.
  rewrite bind_run, !liftIO_run, doQueryProfile_run.
  unfold Sleep, emit, modify, set_trace.
  cbn [fst snd q_lc q_io n_http n_wait n_rand trace db hit_txt emails_txt].
  rewrite <- !app_assoc. reflexivity.
Qed.

(** A query that is admitted runs [queryWithSwitch] between the two
    updates of the active-request counter. *)
Lemma QueryProfileWithRetryLogic_admitted (qs : QueryService) (email : string)
    (lc : LinkedInCrawler) (io : IO) :
  AllTokensFailed lc = false ->
  wait_ok env (n_wait io) = true -> wait_ok env (Datatypes.S (n_wait io)) = true ->
  let s0 :=
    {| q_lc := set_ActiveRequests (AddInt32 (ActiveRequests lc) 1) lc;
       q_io := {| n_http := n_http io; n_wait := Datatypes.S (Datatypes.S (n_wait io));
                  n_rand := n_rand io; trace := trace io; db := db io;
                  hit_txt := hit_txt io; emails_txt := emails_txt io |} |} in
  let r := queryWithSwitch env qs email s0 in
  QueryProfileWithRetryLogic env qs email {| q_lc := lc; q_io := io |} =
    (fst r,
     {| q_lc := set_ActiveRequests (AddInt32 (ActiveRequests (q_lc (snd r))) (-1))
                  (q_lc (snd r));
        q_io := q_io (snd r) |}).
Proof.
  intros Ha Hw1 Hw2 s0 r. unfold QueryProfileWithRetryLogic.
  rewrite bind_run. unfold AreAllTokensFailed, gets. cbn [fst snd q_lc]. rewrite Ha.
  rewrite bind_run, liftIO_run. unfold waitCtx at 1 2. cbn [fst snd q_io q_lc]. rewrite Hw1.
  cbn [negb]. rewrite bind_run, liftIO_run. unfold waitCtx. cbn [fst snd q_io q_lc n_wait].
  rewrite Hw2. cbn [negb]. rewrite bind_run.
  unfold addActiveRequests at 1, modifyLC at 1, modify at 1.
  cbn [fst snd q_io q_lc]. rewrite bind_run, bind_run. reflexivity.
Qed.

End QueryFacts.

(** ** The retry machine of one email *)

Section RetryFacts.
Import Models Crawler Orchestrator.
Variable env : Env.

Lemma onCrawler_run {A : Type} (lc : LinkedInCrawler) (m : State QS A) (w : World) :
  onCrawler lc m w =
    (fst (m {| q_lc := lc; q_io := io w |}),
     set_io (q_io (snd (m {| q_lc := lc; q_io := io w |})))
       (set_crawler (Some (q_lc (snd (m {| q_lc := lc; q_io := io w |})))) w)).
Proof. unfold onCrawler. destruct (m _); reflexivity. Qed.

Lemma lookup_frame (bp : BatchProcessor) (email : string) (lc : LinkedInCrawler) (w : World) :
  Spec.sameFiles (io w) (io (snd (Orchestrator.lookup env bp email lc w))) /\
  shutdownRequested (snd (Orchestrator.lookup env bp email lc w)) = shutdownRequested w.
Proof.
  unfold Orchestrator.lookup. rewrite onCrawler_run. cbn [snd]. split; [|reflexivity].
  apply (pres_QueryProfileWithRetryLogic env (queryService bp) email
           {| q_lc := lc; q_io := io w |}).
Qed.

Lemma lookup_hasProfile (bp : BatchProcessor) (email : string) (lc : LinkedInCrawler)
    (w : World) :
  hasProfileOf (fst (Orchestrator.lookup env bp email lc w)) =
  GoStrings.Contains (bodyOf (fst (Orchestrator.lookup env bp email lc w))) "displayName".
Proof.
  unfold Orchestrator.lookup. rewrite onCrawler_run. cbn [fst].
  apply (QueryProfileWithRetryLogic_OK env (queryService bp) email).
Qed.

(** A parse error leaves the profile empty, so the test on [parseErr] adds
    nothing to the test on the name. *)
Lemma isNil_usable (body : string) :
  Crawler.isNil (snd (ExtractProfileData env body))
  && negb (String.eqb (User (fst (ExtractProfileData env body))) "") =
  negb (String.eqb (User (fst (ExtractProfileData env body))) "").
Proof.
  destruct (snd (ExtractProfileData env body)) as [e|] eqn:E; [|reflexivity].
  rewrite ExtractProfileData_error by congruence. reflexivity.
Qed.

Lemma handleResponse_200 (email : string) (maxRetries attempt : Z) (hasProfile : bool)
    (body : string) (w : World) :
  let r := handleResponse env email maxRetries attempt hasProfile body 200 w in
  let profile := fst (ExtractProfileData env body) in
  fst r = Return true /\
  if hasProfile && negb (String.eqb (User profile) "")
     && negb (String.eqb (User profile) "null") && negb (String.eqb (User profile) "{}")
  then Database.emails (db (io (snd r))) =
         Database.emails (Database.UpdateEmailWithProfile email profile (db (io w))) /\
       hit_txt (io (snd r)) = hit_txt (io w) +:+ profileLine email profile
  else Database.emails (db (io (snd r))) =
         Database.emails
           (Database.UpdateEmailStatus email Database.EmailStatusSuccessNoData (db (io w))) /\
       hit_txt (io (snd r)) = hit_txt (io w).
Proof.
  unfold handleResponse. cbv zeta.
  change (200 =? 200)%Z with true. cbv iota.
  pose proof (isNil_usable body) as Hn.
  destruct (ExtractProfileData env body) as [profile parseErr]. cbn [fst snd] in *.
  destruct hasProfile; cbn [andb].
  - rewrite Hn.
    destruct (negb (User profile =? "")%string && negb (User profile =? "null")%string
              && negb (User profile =? "{}")%string); rewrite !bind_run; cbn; auto.
  - rewrite !bind_run; cbn; auto.
Qed.

Lemma handleResponse_other (email : string) (maxRetries attempt : Z) (hasProfile : bool)
    (body : string) (statusCode : Z) (w : World) :
  statusCode <> 200%Z ->
  let r := handleResponse env email maxRetries attempt hasProfile body statusCode w in
  fst r = Continue /\ Spec.sameFiles (io w) (io (snd r)).
Proof.
  intros Hs. unfold handleResponse.
  destruct (Z.eqb_spec statusCode 200) as [|_]; [contradiction|].
  destruct (attempt <? maxRetries)%Z; split; try reflexivity;
    unfold Spec.sameFiles; simpl; auto.
Qed.

(** What the statements after the query add to the trace: the log line of
    the attempt, then log lines and sleeps only. *)
Lemma handleResponse_trace (email : string) (maxRetries attempt : Z) (hasProfile : bool)
    (body : string) (statusCode : Z) (w : World) :
  let r := handleResponse env email maxRetries attempt hasProfile body statusCode w in
  exists rest,
    trace (io (snd r)) =
      trace (io w) ++
      EvLog (LogRetry attempt maxRetries email statusCode (snippetOf body)) :: rest /\
    Forall Spec.quietEvent rest /\
    Database.tokens (db (io (snd r))) = Database.tokens (db (io w)) /\
    (Tokens <$> crawler (snd r)) = (Tokens <$> crawler w) /\
    (InvalidTokens <$> crawler (snd r)) = (InvalidTokens <$> crawler w).
Proof.
  unfold handleResponse, recordNoData.
  destruct (statusCode =? 200)%Z.
  - destruct hasProfile.
    + destruct (ExtractProfileData env body) as [profile parseErr].
      destruct (_ && _).
      * eexists.
        unfold bind, Orchestrator.liftIO, onDB, LogLine, emit, modify, bumpStats, ret,
          WriteProfileToFile. simpl. rewrite <- !app_assoc. simpl.
        split; [reflexivity|]. split; [repeat constructor|].
        split; [reflexivity|]. destruct (crawler w); split; reflexivity.
      * eexists.
        unfold bind, Orchestrator.liftIO, onDB, LogLine, emit, modify, bumpStats, ret.
        simpl. rewrite <- !app_assoc. simpl.
        split; [reflexivity|]. split; [repeat constructor|].
        split; [reflexivity|]. destruct (crawler w); split; reflexivity.
    + eexists.
      unfold bind, Orchestrator.liftIO, onDB, LogLine, emit, modify, bumpStats, ret.
      simpl. rewrite <- !app_assoc. simpl.
      split; [reflexivity|]. split; [repeat constructor|].
      split; [reflexivity|]. destruct (crawler w); split; reflexivity.
  - destruct (attempt <? maxRetries)%Z.
    + eexists. unfold bind, Orchestrator.liftIO, Sleep, LogLine, emit, modify, ret, Intn.
      simpl. rewrite <- !app_assoc. simpl.
      split; [reflexivity|]. split; [repeat constructor|]. auto.
    + eexists. unfold bind, Orchestrator.liftIO, LogLine, emit, modify, ret.
      simpl. split; [reflexivity|]. split; [constructor|]. auto.
Qed.

Lemma removeCalls_quiet (t : list Event) :
  Forall Spec.quietEvent t -> Spec.removeCalls t = [].
Proof.
  induction 1 as [|e t He _ IH]; [reflexivity|].
  destruct e; simpl in *; try contradiction; exact IH.
Qed.

Lemma retryAttempt_lookup (bp : BatchProcessor) (email : string) (maxRetries attempt : Z)
    (w : World) (lc : LinkedInCrawler) :
  shutdownRequested w <> 1%Z -> crawler w = Some lc -> AllTokensFailed lc = false ->
  retryAttempt env bp email maxRetries attempt w =
    handleResponse env email maxRetries attempt
      (hasProfileOf (fst (Orchestrator.lookup env bp email lc w)))
      (bodyOf (fst (Orchestrator.lookup env bp email lc w)))
      (statusCodeOf (fst (Orchestrator.lookup env bp email lc w)))
      (snd (Orchestrator.lookup env bp email lc w)).
Proof.
  intros Hs Hc Ha. unfold retryAttempt. rewrite bind_run. unfold get. cbn [fst snd].
  destruct (Z.eqb_spec (shutdownRequested w) 1); [contradiction|].
  rewrite Hc, Ha. rewrite bind_run.
  destruct (fst (Orchestrator.lookup env bp email lc w)) as [[[hp body] st] err]. reflexivity.
Qed.

Lemma retryAttempt_fails (bp : BatchProcessor) (email : string) (maxRetries attempt : Z)
    (w : World) :
  Spec.lookupFails env bp email w ->
  fst (retryAttempt env bp email maxRetries attempt w) = Continue /\
  Spec.sameFiles (io w) (io (snd (retryAttempt env bp email maxRetries attempt w))).
Proof.
  intros (Hs & lc & Hc & Ha & Hst).
  rewrite (retryAttempt_lookup bp email maxRetries attempt w lc Hs Hc Ha).
  destruct (handleResponse_other email maxRetries attempt
              (hasProfileOf (fst (Orchestrator.lookup env bp email lc w)))
              (bodyOf (fst (Orchestrator.lookup env bp email lc w)))
              (statusCodeOf (fst (Orchestrator.lookup env bp email lc w)))
              (snd (Orchestrator.lookup env bp email lc w)) Hst) as [H1 H2].
  split; [exact H1|].
  eapply sameFiles_trans; [|exact H2]. apply lookup_frame.
Qed.

(** Attempts that end without a 200 are run one after the other and leave
    the emails table and the files as they were. *)
Lemma failedAttempts_loop (bp : BatchProcessor) (email : string) (maxRetries : Z)
    (k n : nat) (attempt : Z) (w : World) :
  Spec.failedAttempts env bp email maxRetries k attempt w ->
  for_range (k + n) attempt (retryAttempt env bp email maxRetries) w =
    for_range n (attempt + Z.of_nat k) (retryAttempt env bp email maxRetries)
      (Spec.afterAttempts env bp email maxRetries k attempt w) /\
  Spec.sameFiles (io w) (io (Spec.afterAttempts env bp email maxRetries k attempt w)).
Proof.
  revert attempt w. induction k as [|k IH]; intros attempt w Hf.
  - simpl. rewrite Z.add_0_r. split; [reflexivity|apply sameFiles_refl].
  - destruct Hf as [Hl Hf].
    destruct (retryAttempt_fails bp email maxRetries attempt w Hl) as [Hc Hs].
    destruct (IH _ _ Hf) as [IH1 IH2].
    change (Datatypes.S k + n)%nat with (Datatypes.S (k + n)).
    rewrite (for_range_continue _ _ _ _ Hc). simpl Spec.afterAttempts.
    rewrite IH1. split.
    + f_equal. lia.
    + eapply sameFiles_trans; eassumption.
Qed.

Lemma emails_updateEmail (email : string) (f : Database.EmailRow -> Database.EmailRow)
    (d : Database.DB) :
  Database.emails (Database.updateEmail email f d) =
    map (fun r => if String.eqb (Database.e_email r) email then f r else r)
      (Database.emails d).
Proof. reflexivity. Qed.

Lemma emails_mark_failed (email : string) (d : Database.DB) :
  Database.emails
    (Database.IncrementRetryCount email "Failed after max retries"
       (Database.UpdateEmailStatus email Database.EmailStatusFailed d)) =
    map (fun r => if String.eqb (Database.e_email r) email then Spec.markFailedOnce r else r)
      (Database.emails d).
Proof.
  unfold Database.IncrementRetryCount, Database.UpdateEmailStatus.
  rewrite !emails_updateEmail, map_map. apply map_ext. intros r.
  destruct (String.eqb (Database.e_email r) email) eqn:E; cbn [Database.e_email];
    rewrite E; reflexivity.
Qed.

Lemma emails_UpdateEmailWithProfile_ext (email : string) (profile : ProfileData)
    (d d' : Database.DB) :
  Database.emails d = Database.emails d' ->
  Database.emails (Database.UpdateEmailWithProfile email profile d) =
  Database.emails (Database.UpdateEmailWithProfile email profile d').
Proof.
  unfold Database.UpdateEmailWithProfile. rewrite !emails_updateEmail. intros ->. reflexivity.
Qed.

Lemma emails_UpdateEmailStatus_ext (email : string) (st : Database.EmailStatus)
    (d d' : Database.DB) :
  Database.emails d = Database.emails d' ->
  Database.emails (Database.UpdateEmailStatus email st d) =
  Database.emails (Database.UpdateEmailStatus email st d').
Proof.
  unfold Database.UpdateEmailStatus. rewrite !emails_updateEmail. intros ->. reflexivity.
Qed.

End RetryFacts.

Section RetryClaims.
Import Models Crawler Orchestrator.

(** C3: a query of an attempt that is answered 429.  With more than one
    valid credential in the pool, the credential is marked invalid in the
    pool, [RemoveTokenFromFile] is not called and the tokens table is left
    as it was, and the next request of the same attempt is sent at once with
    another valid credential: both requests precede the one log line of the
    attempt.  With exactly one valid credential the pool is unchanged and
    the same credential is sent again after a sleep of one second.  The
    pool holds no credential twice and no empty one, the run is not shut
    down and the waits for the rate limiter and the semaphore succeed. *)
Theorem C3_rate_limited_query (env : Env) (bp : BatchProcessor) (email : string)
    (maxRetries attempt : Z) (w : World) (lc : LinkedInCrawler) (b : option string) :
  shutdownRequested w <> 1%Z -> crawler w = Some lc -> AllTokensFailed lc = false ->
  wait_ok env (n_wait (io w)) = true -> wait_ok env (Datatypes.S (n_wait (io w))) = true ->
  List.NoDup (Tokens lc) -> ~ In EmptyString (Tokens lc) ->
  let token := fst (GetToken env {| q_lc := lc; q_io := io w |}) in
  http_Do env (n_http (io w)) email token = HttpResponse 429 b ->
  let w' := snd (retryAttempt env bp email maxRetries attempt w) in
  let again := fun t => resultOf (http_Do env (Datatypes.S (n_http (io w))) email t) in
  ((1 < length (validTokens lc))%nat ->
   exists newToken lc' rest,
     newToken <> token /\ In newToken (Tokens lc) /\ isInvalid lc newToken = false /\
     crawler w' = Some lc' /\ Tokens lc' = Tokens lc /\
     InvalidTokens lc' = <[token := true]> (InvalidTokens lc) /\
     trace (io w') =
       trace (io w) ++
       [EvHTTP email token; EvHTTP email newToken;
        EvLog (LogRetry attempt maxRetries email (statusCodeOf (again newToken))
                 (snippetOf (bodyOf (again newToken))))] ++ rest /\
     Forall Spec.quietEvent rest /\
     Database.tokens (db (io w')) = Database.tokens (db (io w)))
  /\
  (length (validTokens lc) = 1%nat ->
   exists lc' rest,
     crawler w' = Some lc' /\ Tokens lc' = Tokens lc /\
     InvalidTokens lc' = InvalidTokens lc /\
     trace (io w') =
       trace (io w) ++
       [EvHTTP email token; EvSleep 1000; EvHTTP email token;
        EvLog (LogRetry attempt maxRetries email (statusCodeOf (again token))
                 (snippetOf (bodyOf (again token))))] ++ rest /\
     Forall Spec.quietEvent rest /\
     Database.tokens (db (io w')) = Database.tokens (db (io w))).
Proof.
  intros Hs Hc Ha Hw1 Hw2 Hnd Hne token Hout w' again.
  unfold w', again. rewrite (retryAttempt_lookup env bp email maxRetries attempt w lc Hs Hc Ha).
  unfold Orchestrator.lookup. rewrite onCrawler_run.
  rewrite (QueryProfileWithRetryLogic_admitted env (queryService bp) email lc (io w) Ha Hw1 Hw2).
  cbn [fst snd].
  set (lc0 := set_ActiveRequests (AddInt32 (ActiveRequests lc) 1) lc).
  set (ioq := {| n_http := n_http (io w); n_wait := Datatypes.S (Datatypes.S (n_wait (io w)));
                 n_rand := n_rand (io w); trace := trace (io w); db := db (io w);
                 hit_txt := hit_txt (io w); emails_txt := emails_txt (io w) |}).
  assert (Htk : fst (GetToken env {| q_lc := lc0; q_io := ioq |}) = token)
    by (apply GetToken_fst_eq; reflexivity).
  assert (Hout0 : http_Do env (n_http ioq) email
                    (fst (GetToken env {| q_lc := lc0; q_io := ioq |})) = HttpResponse 429 b)
    by (rewrite Htk; exact Hout).
  split.
  - intros Hlen.
    destruct (queryWithSwitch_429_swap env (queryService bp) email lc0 ioq b
                Hout0 Hnd Hne Hlen) as (newToken & Hneq & Hin & Hval & Hrun).
    rewrite Hrun. rewrite Htk in *. cbn [fst snd q_lc q_io].
    match goal with
    | |- context [handleResponse env email maxRetries attempt ?hp ?bd ?st ?w1] =>
        pose proof (handleResponse_trace env email maxRetries attempt hp bd st w1) as Hh;
        cbv zeta in Hh;
        set (wf := snd (handleResponse env email maxRetries attempt hp bd st w1)) in *
    end.
    destruct Hh as (rest & Ht & Hq & Hdb & Htok & Hinv).
    cbn [io set_io set_crawler crawler trace db n_http ioq] in Ht, Hdb, Htok, Hinv.
    destruct (crawler wf) as [lc'|] eqn:Hc'; [|discriminate Htok].
    cbn in Htok, Hinv. injection Htok as Htok. injection Hinv as Hinv.
    exists newToken, lc', rest.
    repeat split; try assumption.
    rewrite Ht. rewrite <- !app_assoc. reflexivity.
  - intros Hlen.
    pose proof (queryWithSwitch_429_single env (queryService bp) email lc0 ioq b
                  Hout0 Hlen) as Hrun.
    rewrite Hrun. rewrite Htk in *. cbn [fst snd q_lc q_io].
    match goal with
    | |- context [handleResponse env email maxRetries attempt ?hp ?bd ?st ?w1] =>
        pose proof (handleResponse_trace env email maxRetries attempt hp bd st w1) as Hh;
        cbv zeta in Hh;
        set (wf := snd (handleResponse env email maxRetries attempt hp bd st w1)) in *
    end.
    destruct Hh as (rest & Ht & Hq & Hdb & Htok & Hinv).
    cbn [io set_io set_crawler crawler trace db n_http ioq] in Ht, Hdb, Htok, Hinv.
    destruct (crawler wf) as [lc'|] eqn:Hc'; [|discriminate Htok].
    cbn in Htok, Hinv. injection Htok as Htok. injection Hinv as Hinv.
    exists lc', rest.
    repeat split; try assumption.
    rewrite Ht. rewrite <- !app_assoc. reflexivity.
Qed.

Lemma C3_rate_limited_witness :
  let w := Samples.worldReady ["T1"; "T2"] in
  let w' := snd (retryAttempt Samples.env429 NewBatchProcessor "a@x.com" 5 1 w) in
  exists newToken lc' rest,
    newToken <> "T1" /\ crawler w' = Some lc' /\
    InvalidTokens lc' = <["T1" := true]> ∅ /\
    trace (io w') =
      [EvHTTP "a@x.com" "T1"; EvHTTP "a@x.com" newToken;
       EvLog (LogRetry 1 5 "a@x.com" 200 "")] ++ rest.
Proof.
  intros w w'.
  destruct (C3_rate_limited_query Samples.env429 NewBatchProcessor "a@x.com" 5 1 w
              {| Tokens := ["T1"; "T2"]; InvalidTokens := ∅;
                 Stats := {| Processed := 0; Success := 0; Failed := 0; TokenErrors := 0 |};
                 AllTokensFailed := false; TokensFilePath := "tokens.txt";
                 ActiveRequests := 0 |} None) as [H _].
  - vm_compute. discriminate.
  - reflexivity.
  - reflexivity.
  - reflexivity.
  - reflexivity.
  - repeat constructor; simpl; intuition discriminate.
  - simpl. intuition discriminate.
  - reflexivity.
  - destruct H as (newToken & lc' & rest & H1 & _ & _ & H4 & _ & H6 & H7 & _).
    + vm_compute. lia.
    + exists newToken, lc', rest. repeat split; assumption.
Defined.

(** C1: an email whose lookup returns HTTP 200, at the first attempt or
    after attempts that ended without a 200, ends its run as done.  When the
    body holds the text [displayName] and the parsed [displayName] is not
    empty, not [null] and not [{}], the row of the email is written by
    [UpdateEmailWithProfile] and the line
    [email|User|LinkedInURL|Location|ConnectionCount] is appended to the
    output file; in every other case the row is written by
    [UpdateEmailStatus] with [success_without_data] and the output file is
    left as it was. *)
Theorem C1_status_200_ends_the_run (env : Env) (bp : BatchProcessor) (email : string)
    (maxRetries : Z) (k : nat) (w : World) (lc : LinkedInCrawler) :
  let wk := Spec.afterAttempts env bp email maxRetries k 1 w in
  (k < Z.to_nat maxRetries)%nat ->
  Spec.failedAttempts env bp email maxRetries k 1 w ->
  shutdownRequested wk <> 1%Z -> crawler wk = Some lc -> AllTokensFailed lc = false ->
  statusCodeOf (fst (Orchestrator.lookup env bp email lc wk)) = 200%Z ->
  let body := bodyOf (fst (Orchestrator.lookup env bp email lc wk)) in
  let profile := fst (ExtractProfileData env body) in
  let wf := snd (retryEmailWithNewLogic env bp email maxRetries w) in
  fst (retryEmailWithNewLogic env bp email maxRetries w) = true /\
  if Spec.hasData body (User profile)
  then Database.emails (db (io wf)) =
         Database.emails (Database.UpdateEmailWithProfile email profile (db (io w))) /\
       hit_txt (io wf) =
         hit_txt (io w) +:+ email +:+ "|" +:+ User profile +:+ "|" +:+
         LinkedInURL profile +:+ "|" +:+ Location profile +:+ "|" +:+
         ConnectionCount profile +:+ String GoStrings.LF EmptyString
  else Database.emails (db (io wf)) =
         Database.emails
           (Database.UpdateEmailStatus email Database.EmailStatusSuccessNoData (db (io w))) /\
       hit_txt (io wf) = hit_txt (io w).
Proof.
  intros wk Hk Hf Hs Hc Ha H200 body profile wf.
  assert (Hn : exists n, Z.to_nat maxRetries = (k + Datatypes.S n)%nat)
    by (exists (Z.to_nat maxRetries - k - 1)%nat; lia).
  destruct Hn as [n Hn].
  destruct (failedAttempts_loop env bp email maxRetries k (Datatypes.S n) 1 w Hf)
    as [Hloop (He & Hh & _)]. fold wk in Hloop, He, Hh.
  pose proof (retryAttempt_lookup env bp email maxRetries (1 + Z.of_nat k) wk lc Hs Hc Ha)
    as Hatt.
  rewrite H200 in Hatt. fold body in Hatt.
  destruct (handleResponse_200 env email maxRetries (1 + Z.of_nat k)
              (hasProfileOf (fst (Orchestrator.lookup env bp email lc wk))) body
              (snd (Orchestrator.lookup env bp email lc wk))) as [Hret Hfx].
  rewrite <- Hatt in Hret, Hfx.
  rewrite (lookup_hasProfile env bp email lc wk) in Hfx. fold body profile in Hfx.
  destruct (lookup_frame env bp email lc wk) as [(Le & Lh & _) _].
  unfold wf, retryEmailWithNewLogic. rewrite bind_run, Hn, Hloop.
  rewrite (for_range_return _ _ _ _ _ Hret). cbn [fst snd ret].
  split; [reflexivity|]. unfold Spec.hasData.
  destruct (GoStrings.Contains body "displayName" && negb (String.eqb (User profile) "")
            && negb (String.eqb (User profile) "null")
            && negb (String.eqb (User profile) "{}"));
    destruct Hfx as [F1 F2]; rewrite F1, F2.
  - split; [apply emails_UpdateEmailWithProfile_ext; congruence|].
    rewrite Lh, Hh. reflexivity.
  - split; [apply emails_UpdateEmailStatus_ext; congruence|congruence].
Qed.

Lemma C1_status_200_witness :
  let env := Samples.envBody amd64 Samples.bodyAB in
  let run := retryEmailWithNewLogic env NewBatchProcessor "a@x.com" 5
               (Samples.worldReady ["T1"]) in
  fst run = true /\
  map Database.e_status (Database.emails (db (io (snd run)))) =
    [Database.EmailStatusSuccessWithData] /\
  hit_txt (io (snd run)) = "a@x.com|A|B||" +:+ Samples.nl.
Proof.
  intros env run.
  destruct (C1_status_200_ends_the_run env NewBatchProcessor "a@x.com" 5 0
              (Samples.worldReady ["T1"])
              {| Tokens := ["T1"]; InvalidTokens := ∅;
                 Stats := {| Processed := 0; Success := 0; Failed := 0; TokenErrors := 0 |};
                 AllTokensFailed := false; TokensFilePath := "tokens.txt";
                 ActiveRequests := 0 |}) as [H1 H2].
  - vm_compute. lia.
  - exact I.
  - vm_compute. discriminate.
  - reflexivity.
  - reflexivity.
  - reflexivity.
  - vm_compute in H2. destruct H2 as [H2 H3].
    split; [exact H1|]. split; [|exact H3].
    exact (f_equal (map Database.e_status) H2).
Defined.

(** C2: an email whose [maxRetries] attempts (5 in the pipeline) all end
    without an HTTP 200 ends its run as failed: the row of the email gets
    status [failed], its [retry_count] is incremented once for the whole
    run and its [last_error] is set to [Failed after max retries]; the
    other rows and the output file are left as they were. *)
Theorem C2_all_attempts_fail (env : Env) (bp : BatchProcessor) (email : string)
    (maxRetries : Z) (w : World) :
  Spec.failedAttempts env bp email maxRetries (Z.to_nat maxRetries) 1 w ->
  let wf := snd (retryEmailWithNewLogic env bp email maxRetries w) in
  fst (retryEmailWithNewLogic env bp email maxRetries w) = false /\
  Database.emails (db (io wf)) =
    map (fun r => if String.eqb (Database.e_email r) email then Spec.markFailedOnce r else r)
      (Database.emails (db (io w))) /\
  hit_txt (io wf) = hit_txt (io w).
Proof.
  intros Hf wf. unfold wf.
  destruct (failedAttempts_loop env bp email maxRetries (Z.to_nat maxRetries) 0 1 w Hf)
    as [Hloop (He & Hh & _)].
  rewrite Nat.add_0_r in Hloop.
  unfold retryEmailWithNewLogic. rewrite bind_run, Hloop. cbn [for_range ret fst snd].
  unfold bind, Orchestrator.liftIO, onDB, LogLine, emit, modify, bumpStats, ret.
  simpl. rewrite He, Hh.
  split; [reflexivity|]. split; [exact (emails_mark_failed email _)|reflexivity].
Qed.

Lemma C2_all_attempts_fail_witness :
  let env := Samples.envAlways (HttpResponse 500 None) in
  let run := retryEmailWithNewLogic env NewBatchProcessor "a@x.com" 5
               (Samples.worldReady ["T1"]) in
  fst run = false /\
  map (fun r => (Database.e_status r, Database.e_retry_count r, Database.e_last_error r))
    (Database.emails (db (io (snd run)))) =
    [(Database.EmailStatusFailed, 1%Z, Some "Failed after max retries")] /\
  hit_txt (io (snd run)) = EmptyString.
Proof.
  intros env run.
  destruct (C2_all_attempts_fail env NewBatchProcessor "a@x.com" 5
              (Samples.worldReady ["T1"])) as (H1 & H2 & H3).
  - change (Z.to_nat 5) with 5%nat. cbn [Spec.failedAttempts].
    repeat (split;
            [split;
             [vm_compute; discriminate
             |eexists; split;
              [vm_compute; reflexivity
              |split; [reflexivity|vm_compute; discriminate]]]|]).
    exact I.
  - split; [exact H1|]. split; [|exact H3].
    unfold run. rewrite H2. reflexivity.
Defined.

End RetryClaims.

(** ** Phase 2: the retry sweep *)

Section SweepFacts.
Import Models Orchestrator.
Variable env : Env.
Variable getTokensBatch : State World (list string + Storage.error).
Variable crawlWithCurrentTokens : list string -> State World (Z * option Storage.error).
Variable bp : BatchProcessor.

Lemma remainingCount_nonneg (w : World) : (0 <= remainingCount w)%Z.
Proof. unfold remainingCount. destruct (Storage.LoadEmailsFromFile _ _); lia. Qed.

(** A round is followed by another one only if it left emails to retry,
    and fewer of them than it found. *)
Lemma retryRound_continue (i : Z) (w : World) :
  fst (retryRound env getTokensBatch crawlWithCurrentTokens bp i w) = Continue ->
  (0 < remainingCount (snd (retryRound env getTokensBatch crawlWithCurrentTokens bp i w))
     < remainingCount w)%Z.
Proof.
  unfold retryRound. rewrite bind_run. change (get w) with (w, w). cbn [fst snd].
  assert (Hw : remainingCount w =
                match Storage.LoadEmailsFromFile (emailStorage w) (db (io w)) with
                | inl emails => Z.of_nat (length emails)
                | inr _ => 0%Z
                end) by reflexivity.
  destruct (Storage.LoadEmailsFromFile (emailStorage w) (db (io w))) as [[|e es]|err];
    [intros Hx; unfold ret in Hx; cbn [fst] in Hx; discriminate Hx|
    |intros Hx; unfold ret in Hx; cbn [fst] in Hx; discriminate Hx].
  rewrite bind_run.
  set (w1 := snd (Orchestrator.liftIO (Sleep 10000) w)).
  rewrite bind_run.
  match goal with
  | |- context [fst (?m w1)] => set (loading := m)
  end.
  destruct (fst (loading w1)) as [existingTokens|result];
    [|intros Hx; unfold ret in Hx; cbn [fst] in Hx; discriminate Hx].
  set (w2 := snd (loading w1)).
  rewrite bind_run.
  destruct (fst (validateExistingTokens env bp existingTokens w2)) as [[|v vs]|err];
    [intros Hx; unfold ret in Hx; cbn [fst] in Hx; discriminate Hx
    |
    |intros Hx; unfold ret in Hx; cbn [fst] in Hx; discriminate Hx].
  set (w3 := snd (validateExistingTokens env bp existingTokens w2)).
  rewrite !bind_run. unfold get. cbn [fst snd].
  match goal with
  | |- context [remainingCount ?wf] => set (wfin := wf)
  end.
  pose proof (remainingCount_nonneg wfin) as Hnn.
  destruct (Z.eqb_spec (remainingCount wfin) 0) as [|Hne];
    [intros Hx; unfold ret in Hx; cbn [fst] in Hx; discriminate Hx|].
  destruct (Z.leb_spec (Z.of_nat (length (e :: es))) (remainingCount wfin)) as [|Hlt];
    [intros Hx; unfold ret in Hx; cbn [fst] in Hx; discriminate Hx|].
  intros _.
  change (0 < remainingCount wfin /\ remainingCount wfin < remainingCount w)%Z. lia.
Qed.

Lemma sweepRounds_spec (n : nat) (i : Z) (w : World) :
  (length (sweepRounds env getTokensBatch crawlWithCurrentTokens bp n i w) <= n)%nat /\
  snd (for_range n i (retryRound env getTokensBatch crawlWithCurrentTokens bp) w) =
    List.last (map snd (sweepRounds env getTokensBatch crawlWithCurrentTokens bp n i w)) w /\
  (forall j before after,
      sweepRounds env getTokensBatch crawlWithCurrentTokens bp n i w !! j = Some (before, after) ->
      (remainingCount after = 0 \/ remainingCount before <= remainingCount after)%Z ->
      length (sweepRounds env getTokensBatch crawlWithCurrentTokens bp n i w) = Datatypes.S j).
Proof.
  revert i w. induction n as [|n IH]; intros i w.
  - simpl. split; [lia|]. split; [reflexivity|]. intros j b a H. discriminate H.
  - destruct (IH (i + 1)%Z
                (snd (retryRound env getTokensBatch crawlWithCurrentTokens bp i w)))
      as (IH1 & IH2 & IH3).
    cbn [sweepRounds for_range]. rewrite bind_run.
    destruct (fst (retryRound env getTokensBatch crawlWithCurrentTokens bp i w)) eqn:Hc.
    + split; [simpl; lia|]. split.
      * rewrite IH2. cbn [map snd].
        apply (last_cons_default _
                 (snd (retryRound env getTokensBatch crawlWithCurrentTokens bp i w)) w).
      * intros [|j] before after Hj Hp.
        { injection Hj as <- <-. pose proof (retryRound_continue i w Hc). lia. }
        { cbn in Hj. cbn [length]. f_equal. eapply IH3; eassumption. }
    + split; [simpl; lia|]. split; [reflexivity|].
      intros [|j] before after Hj Hp; [reflexivity|discriminate Hj].
    + split; [simpl; lia|]. split; [reflexivity|].
      intros [|j] before after Hj Hp; [reflexivity|discriminate Hj].
Qed.

End SweepFacts.

(** C8: the retry sweep runs at most 7 rounds, whatever minting and
    crawling do, and the state it ends in is the one its last round leaves.
    A round after which no email remains, or after which at least as many
    remain as it found, is the last round. *)
Theorem C8_sweep_at_most_7_rounds (env : Env)
    (getTokensBatch : State Orchestrator.World (list string + Storage.error))
    (crawlWithCurrentTokens :
       list string -> State Orchestrator.World (Z * option Storage.error))
    (bp : Orchestrator.BatchProcessor) (w : Orchestrator.World) :
  let rounds :=
    Orchestrator.sweepRounds env getTokensBatch crawlWithCurrentTokens bp 7 1 w in
  (length rounds <= 7)%nat /\
  snd (Orchestrator.RetryFailedEmails env getTokensBatch crawlWithCurrentTokens bp w) =
    List.last (map snd rounds) w /\
  (forall (j : nat) (before after : Orchestrator.World),
      rounds !! j = Some (before, after) ->
      (Orchestrator.remainingCount after = 0 \/
       Orchestrator.remainingCount before <= Orchestrator.remainingCount after)%Z ->
      length rounds = Datatypes.S j).
Proof.
  intros rounds.
  destruct (sweepRounds_spec env getTokensBatch crawlWithCurrentTokens bp 7 1 w)
    as (H1 & H2 & H3).
  split; [exact H1|]. split; [|exact H3].
  unfold Orchestrator.RetryFailedEmails. cbv zeta.
  change (Z.to_nat 7) with 7%nat. rewrite bind_run.
  destruct (fst (for_range 7 1 _ w)) as [result|]; exact H2.
Qed.

(** * Further properties of the code *)

(** ** The store *)

Section StoreFacts.
Import Database.

Lemma StronglySorted_snoc (ids : list Z) (x : Z) :
  StronglySorted Z.lt ids -> Forall (fun i => (i < x)%Z) ids ->
  StronglySorted Z.lt (ids ++ [x]).
Proof.
  induction 1 as [|i ids Hs IH Hall]; intros Hx; simpl.
  - repeat constructor.
  - inversion Hx as [|? ? Hi Hx']; subst. constructor; [apply IH; exact Hx'|].
    apply Forall_app. split; [exact Hall|]. constructor; [exact Hi|constructor].
Qed.

Lemma idsAscending_snoc (ids : list Z) (seq : Z) :
  Notions.idsAscending ids seq -> Notions.idsAscending (ids ++ [(seq + 1)%Z]) (seq + 1).
Proof.
  intros (Hs & Hb & H0). split; [|split; [|lia]].
  - apply StronglySorted_snoc; [exact Hs|].
    eapply List.Forall_impl; [|exact Hb]. simpl. intros; lia.
  - apply Forall_app. split.
    + eapply List.Forall_impl; [|exact Hb]. simpl. intros; lia.
    + constructor; [lia|constructor].
Qed.

Lemma insertEmail_wellFormed (email : string) (d : DB) :
  Notions.wellFormed d -> Notions.wellFormed (insertEmail email d).
Proof.
  intros H. unfold insertEmail.
  case_bool_decide as Hin; [exact H|]. destruct H as (He & Ht & Hi & Hj).
  unfold Notions.wellFormed. cbn [set_emails emails tokens emails_seq tokens_seq].
  rewrite !map_app. cbn [map e_email e_id].
  split; [|split; [exact Ht|split; [apply idsAscending_snoc; exact Hi|exact Hj]]].
  apply NoDup_app. split; [exact He|]. split.
  - intros x Hx Hx'. apply list_elem_of_singleton in Hx'. subst. contradiction.
  - apply NoDup_singleton.
Qed.

Lemma ImportEmails_wellFormed (l : list string) (d : DB) :
  Notions.wellFormed d -> Notions.wellFormed (ImportEmails l d).
Proof.
  unfold ImportEmails. revert d. induction l as [|x l IH]; intros d H; [exact H|].
  simpl. destruct (_ && _); apply IH; [apply insertEmail_wellFormed|]; exact H.
Qed.

(** An UPDATE of [emails] writes neither [id] nor [email]. *)
Lemma updateEmail_wellFormed (email : string) (f : EmailRow -> EmailRow) (d : DB) :
  (forall r, e_id (f r) = e_id r /\ e_email (f r) = e_email r) ->
  Notions.wellFormed d -> Notions.wellFormed (updateEmail email f d).
Proof.
  intros Hf (He & Ht & Hi & Hj). unfold Notions.wellFormed, updateEmail.
  cbn [set_emails emails tokens emails_seq tokens_seq].
  rewrite !map_map.
  assert (E1 : map (fun r => e_email (if String.eqb (e_email r) email then f r else r))
                 (emails d) = map e_email (emails d)).
  { apply map_ext. intros r. destruct (String.eqb _ _); [apply Hf|reflexivity]. }
  assert (E2 : map (fun r => e_id (if String.eqb (e_email r) email then f r else r))
                 (emails d) = map e_id (emails d)).
  { apply map_ext. intros r. destruct (String.eqb _ _); [apply Hf|reflexivity]. }
  rewrite E1, E2. exact (conj He (conj Ht (conj Hi Hj))).
Qed.

Lemma insertToken_wellFormed (token : string) (d : DB) :
  Notions.wellFormed d -> Notions.wellFormed (insertToken token d).
Proof.
  intros H. unfold insertToken.
  case_bool_decide as Hin; [exact H|]. destruct H as (He & Ht & Hi & Hj).
  unfold Notions.wellFormed. cbn [set_tokens emails tokens emails_seq tokens_seq].
  rewrite !map_app. cbn [map t_token t_id].
  split; [exact He|split; [|split; [exact Hi|apply idsAscending_snoc; exact Hj]]].
  apply NoDup_app. split; [exact Ht|]. split.
  - intros x Hx Hx'. apply list_elem_of_singleton in Hx'. subst. contradiction.
  - apply NoDup_singleton.
Qed.

Lemma AddTokens_wellFormed (l : list string) (d : DB) :
  Notions.wellFormed d -> Notions.wellFormed (AddTokens l d).
Proof.
  unfold AddTokens. revert d. induction l as [|x l IH]; intros d H; [exact H|].
  simpl. apply IH. apply insertToken_wellFormed. exact H.
Qed.

(** An UPDATE of [tokens] writes neither [id] nor [token]. *)
Lemma updateToken_wellFormed (g : TokenRow -> TokenRow) (d : DB) :
  (forall r, t_id (g r) = t_id r /\ t_token (g r) = t_token r) ->
  Notions.wellFormed d ->
  Notions.wellFormed (set_tokens (map g (tokens d)) (tokens_seq d) d).
Proof.
  intros Hg (He & Ht & Hi & Hj). unfold Notions.wellFormed.
  cbn [set_tokens emails tokens emails_seq tokens_seq]. rewrite !map_map.
  rewrite (map_ext (fun r => t_token (g r)) t_token) by (intros r; apply Hg).
  rewrite (map_ext (fun r => t_id (g r)) t_id) by (intros r; apply Hg).
  exact (conj He (conj Ht (conj Hi Hj))).
Qed.

Lemma InitSchema_wellFormed : Notions.wellFormed InitSchema.
Proof.
  unfold Notions.wellFormed, Notions.idsAscending. simpl.
  repeat split; try constructor; lia.
Qed.

Lemma step_wellFormed (d d' : DB) :
  Notions.step d d' -> Notions.wellFormed d -> Notions.wellFormed d'.
Proof.
  intros Hs H. destruct Hs.
  - apply ImportEmails_wellFormed; exact H.
  - apply updateEmail_wellFormed; [intros r; split; reflexivity|exact H].
  - apply updateEmail_wellFormed; [intros r; split; reflexivity|exact H].
  - apply updateEmail_wellFormed; [intros r; split; reflexivity|exact H].
  - apply AddTokens_wellFormed; exact H.
  - apply insertToken_wellFormed; exact H.
  - apply (updateToken_wellFormed
             (fun r => if String.eqb (t_token r) token
                       then {| t_id := t_id r; t_token := t_token r; t_is_valid := false;
                               t_failure_count := t_failure_count r |}
                       else r)); [|exact H].
    intros r. destruct (String.eqb _ _); split; reflexivity.
  - apply (updateToken_wellFormed
             (fun r => if String.eqb (t_token r) token
                       then {| t_id := t_id r; t_token := t_token r;
                               t_is_valid := t_is_valid r;
                               t_failure_count := (t_failure_count r + 1)%Z |}
                       else r)); [|exact H].
    intros r. destruct (String.eqb _ _); split; reflexivity.
Qed.

End StoreFacts.

(** X1: every store the repository methods produce from the empty schema
    keeps the promises of the schema: no email and no token is stored
    twice, and the ids of each table ascend in table order, between 1 and
    the AUTOINCREMENT counter. *)
Theorem store_reachable_wellFormed (d : Database.DB) :
  Notions.reachable d -> Notions.wellFormed d.
Proof.
  induction 1 as [|d d' _ IH Hs].
  - apply InitSchema_wellFormed.
  - exact (step_wellFormed d d' Hs IH).
Qed.

Lemma store_reachable_wellFormed_witness :
  Notions.wellFormed
    (Database.InvalidateToken "T"
       (Database.AddTokens ["T"; "T"]
          (Database.ImportEmails ["a@x.com"; "a@x.com"] Database.InitSchema))).
Proof.
  apply store_reachable_wellFormed.
  eapply Notions.reachable_step; [|apply Notions.step_InvalidateToken].
  eapply Notions.reachable_step; [|apply Notions.step_AddTokens].
  eapply Notions.reachable_step; [|apply Notions.step_ImportEmails].
  apply Notions.reachable_init.
Defined.

Section EmailFacts.
Import Database.

Lemma DB_eta (d : DB) : set_emails (emails d) (emails_seq d) d = d.
Proof. destruct d; reflexivity. Qed.

Lemma insertEmail_known (email : string) (d : DB) :
  email ∈ map e_email (emails d) -> insertEmail email d = d.
Proof. intros H. unfold insertEmail. rewrite bool_decide_eq_true_2 by exact H. reflexivity. Qed.

Lemma insertEmail_mem (email x : string) (d : DB) :
  x ∈ map e_email (emails d) -> x ∈ map e_email (emails (insertEmail email d)).
Proof.
  intros H. rewrite insertEmail_emails. case_bool_decide; [exact H|].
  apply elem_of_app. left. exact H.
Qed.

Lemma insertEmail_in (email : string) (d : DB) :
  email ∈ map e_email (emails (insertEmail email d)).
Proof.
  rewrite insertEmail_emails. case_bool_decide as H; [exact H|].
  apply elem_of_app. right. apply list_elem_of_singleton. reflexivity.
Qed.

Lemma ImportEmails_cons (x : string) (l : list string) (d : DB) :
  ImportEmails (x :: l) d =
    ImportEmails l
      (if Spec.keepEmail (GoStrings.TrimSpace x)
       then insertEmail (GoStrings.TrimSpace x) d else d).
Proof. reflexivity. Qed.

Lemma ImportEmails_mem (l : list string) (x : string) (d : DB) :
  x ∈ map e_email (emails d) -> x ∈ map e_email (emails (ImportEmails l d)).
Proof.
  revert d. induction l as [|y l IH]; intros d H; [exact H|].
  rewrite ImportEmails_cons. apply IH.
  destruct (Spec.keepEmail _); [apply insertEmail_mem|]; exact H.
Qed.

Lemma ImportEmails_in (l : list string) (x : string) (d : DB) :
  In x l -> Spec.keepEmail (GoStrings.TrimSpace x) = true ->
  GoStrings.TrimSpace x ∈ map e_email (emails (ImportEmails l d)).
Proof.
  revert d. induction l as [|y l IH]; intros d Hin Hk; [destruct Hin|].
  rewrite ImportEmails_cons. destruct Hin as [->|Hin].
  - rewrite Hk. apply ImportEmails_mem. apply insertEmail_in.
  - apply IH; assumption.
Qed.

Lemma ImportEmails_known (l : list string) (d : DB) :
  (forall x, In x l -> Spec.keepEmail (GoStrings.TrimSpace x) = true ->
             GoStrings.TrimSpace x ∈ map e_email (emails d)) ->
  ImportEmails l d = d.
Proof.
  induction l as [|y l IH]; intros H; [reflexivity|].
  rewrite ImportEmails_cons.
  destruct (Spec.keepEmail (GoStrings.TrimSpace y)) eqn:Hk.
  - rewrite insertEmail_known by (apply H; [left; reflexivity|exact Hk]).
    apply IH. intros x Hx. apply H. right. exact Hx.
  - apply IH. intros x Hx. apply H. right. exact Hx.
Qed.

Lemma insertEmail_appends (email : string) (d : DB) :
  exists added,
    emails (insertEmail email d) = emails d ++ added /\ Forall Notions.freshRow added /\
    tokens (insertEmail email d) = tokens d.
Proof.
  unfold insertEmail. case_bool_decide.
  - exists []. rewrite app_nil_r. repeat split. constructor.
  - eexists. cbn [set_emails emails tokens]. split; [reflexivity|]. split; [|reflexivity].
    constructor; [|constructor]. repeat split.
Qed.

Lemma ImportEmails_appends (l : list string) (d : DB) :
  exists added,
    emails (ImportEmails l d) = emails d ++ added /\ Forall Notions.freshRow added /\
    tokens (ImportEmails l d) = tokens d.
Proof.
  revert d. induction l as [|y l IH]; intros d.
  - exists []. rewrite app_nil_r. repeat split. constructor.
  - rewrite ImportEmails_cons. destruct (Spec.keepEmail _); [|apply IH].
    destruct (insertEmail_appends (GoStrings.TrimSpace y) d) as (a1 & E1 & F1 & T1).
    destruct (IH (insertEmail (GoStrings.TrimSpace y) d)) as (a2 & E2 & F2 & T2).
    exists (a1 ++ a2). rewrite E2, E1, <- app_assoc. split; [reflexivity|].
    split; [apply Forall_app; split; assumption|congruence].
Qed.

Lemma map_unknown (email : string) (f : EmailRow -> EmailRow) (rows : list EmailRow) :
  ~ In email (map e_email rows) ->
  map (fun r => if String.eqb (e_email r) email then f r else r) rows = rows.
Proof.
  induction rows as [|r rows IH]; intros H; [reflexivity|].
  simpl in *. destruct (String.eqb_spec (e_email r) email) as [E|_].
  - exfalso. apply H. left. exact E.
  - f_equal. apply IH. intros Hin. apply H. right. exact Hin.
Qed.

Lemma updateEmail_unknown (email : string) (f : EmailRow -> EmailRow) (d : DB) :
  ~ In email (map e_email (emails d)) -> updateEmail email f d = d.
Proof.
  intros H. unfold updateEmail. rewrite map_unknown by exact H. apply DB_eta.
Qed.

(** *** The order of the emails that remain *)

Lemma insertByRetry_perm (r : EmailRow) (rows : list EmailRow) :
  Permutation (insertByRetry r rows) (r :: rows).
Proof.
  induction rows as [|r' rows IH]; simpl; [reflexivity|].
  destruct (e_retry_count r' <=? e_retry_count r)%Z; [|reflexivity].
  rewrite IH. apply perm_swap.
Qed.

Lemma orderByRetry_fold_perm (rows acc : list EmailRow) :
  Permutation (fold_left (fun acc r => insertByRetry r acc) rows acc) (acc ++ rows).
Proof.
  revert acc. induction rows as [|r rows IH]; intros acc; simpl.
  - rewrite app_nil_r. reflexivity.
  - rewrite IH, insertByRetry_perm. rewrite (Permutation_middle acc rows r). reflexivity.
Qed.

Lemma orderByRetry_perm (rows : list EmailRow) : Permutation (orderByRetry rows) rows.
Proof. unfold orderByRetry. rewrite orderByRetry_fold_perm. reflexivity. Qed.

Lemma byRetryThenId_retry (a b : EmailRow) :
  Notions.byRetryThenId a b -> (e_retry_count a <= e_retry_count b)%Z.
Proof. unfold Notions.byRetryThenId. lia. Qed.

(** A row with a higher id than the rows of a sorted list lands behind
    the rows with at most its retry count. *)
Lemma insertByRetry_sorted (r : EmailRow) (rows : list EmailRow) :
  StronglySorted Notions.byRetryThenId rows ->
  Forall (fun r' => (e_id r' < e_id r)%Z) rows ->
  StronglySorted Notions.byRetryThenId (insertByRetry r rows).
Proof.
  induction 1 as [|r' rows Hs IH Hall]; intros Hid; simpl.
  - repeat constructor.
  - inversion Hid as [|? ? Hi Hid']; subst.
    destruct (Z.leb_spec (e_retry_count r') (e_retry_count r)) as [Hle|Hlt].
    + constructor; [apply IH; exact Hid'|].
      eapply Permutation_Forall; [symmetry; apply insertByRetry_perm|].
      constructor; [|exact Hall]. unfold Notions.byRetryThenId. lia.
    + constructor; [constructor; assumption|].
      constructor; [unfold Notions.byRetryThenId; lia|].
      eapply List.Forall_impl; [|exact Hall]. intros x Hx.
      apply byRetryThenId_retry in Hx. unfold Notions.byRetryThenId. lia.
Qed.

Lemma orderByRetry_fold_sorted (rows acc : list EmailRow) :
  StronglySorted Notions.byRetryThenId acc ->
  StronglySorted Z.lt (map e_id rows) ->
  Forall (fun a => Forall (fun r => (e_id a < e_id r)%Z) rows) acc ->
  StronglySorted Notions.byRetryThenId
    (fold_left (fun acc r => insertByRetry r acc) rows acc).
Proof.
  revert acc. induction rows as [|r rows IH]; intros acc Hacc Hids Hlt; [exact Hacc|].
  simpl in Hids. inversion Hids as [|? ? Hids' Hhead]; subst.
  simpl. apply IH.
  - apply insertByRetry_sorted; [exact Hacc|].
    eapply List.Forall_impl; [|exact Hlt]. intros a Ha. inversion Ha; assumption.
  - exact Hids'.
  - eapply Permutation_Forall; [symmetry; apply insertByRetry_perm|].
    constructor.
    + rewrite Forall_map in Hhead. exact Hhead.
    + eapply List.Forall_impl; [|exact Hlt]. intros a Ha. inversion Ha; assumption.
Qed.

Lemma StronglySorted_filter_ids (f : EmailRow -> bool) (rows : list EmailRow) :
  StronglySorted Z.lt (map e_id rows) ->
  StronglySorted Z.lt (map e_id (List.filter f rows)).
Proof.
  induction rows as [|r rows IH]; intros H; [exact H|].
  simpl in H. inversion H as [|? ? Hs Hall]; subst.
  simpl. destruct (f r); [|apply IH; exact Hs].
  simpl. constructor; [apply IH; exact Hs|].
  rewrite Forall_map in *. rewrite List.Forall_forall in *.
  intros x Hx. apply Hall. apply filter_In in Hx. apply Hx.
Qed.

Lemma GetRemainingEmails_In (e : string) (d : DB) :
  In e (GetRemainingEmails d) <->
  exists r, In r (emails d) /\ e_email r = e /\ isRemaining r = true.
Proof.
  unfold GetRemainingEmails. rewrite in_map_iff. split.
  - intros (r & He & Hr). exists r.
    apply (Permutation_in _ (orderByRetry_perm _)) in Hr.
    apply filter_In in Hr. tauto.
  - intros (r & Hr & He & Hrem). exists r. split; [exact He|].
    apply (Permutation_in _ (Permutation_sym (orderByRetry_perm _))).
    apply filter_In. tauto.
Qed.

Lemma remaining_after_update (email e : string) (f : EmailRow -> EmailRow) (d : DB) :
  (forall r, e_email (f r) = e_email r) ->
  In e (GetRemainingEmails (updateEmail email f d)) <->
  exists r, In r (emails d) /\ e_email r = e /\
            isRemaining (if String.eqb e email then f r else r) = true.
Proof.
  intros Hf. rewrite GetRemainingEmails_In. unfold updateEmail.
  cbn [set_emails emails]. split.
  - intros (r' & Hin & He & Hrem). apply in_map_iff in Hin.
    destruct Hin as (r & Hr' & Hin). exists r. subst r'.
    destruct (String.eqb_spec (e_email r) email) as [E|E].
    + rewrite Hf in He. subst e. rewrite E, String.eqb_refl. auto.
    + subst e. destruct (String.eqb_spec (e_email r) email); [contradiction|]. auto.
  - intros (r & Hin & He & Hrem).
    exists (if String.eqb (e_email r) email then f r else r). subst e. split.
    + apply in_map_iff. exists r. auto.
    + destruct (String.eqb (e_email r) email); [rewrite Hf|]; auto.
Qed.

End EmailFacts.

(** X2: [ImportEmails] only appends rows.  The rows the table holds keep
    their place and their content, every added row has the column
    defaults (pending, no retry, no error, no profile), the tokens table is
    not touched, and importing the same list once more changes nothing. *)
Theorem ImportEmails_only_appends (l : list string) (d : Database.DB) :
  (exists added,
     Database.emails (Database.ImportEmails l d) = Database.emails d ++ added /\
     Forall Notions.freshRow added) /\
  Database.tokens (Database.ImportEmails l d) = Database.tokens d /\
  Database.ImportEmails l (Database.ImportEmails l d) = Database.ImportEmails l d.
Proof.
  destruct (ImportEmails_appends l d) as (added & E & F & T).
  split; [exists added; auto|]. split; [exact T|].
  apply ImportEmails_known. intros x Hx Hk. apply ImportEmails_in; assumption.
Qed.

(** X3: an UPDATE for an email the table does not hold changes nothing:
    [UpdateEmailStatus], [UpdateEmailWithProfile] and [IncrementRetryCount]
    return the store as it was. *)
Theorem update_of_unknown_email (email : string) (d : Database.DB) :
  ~ In email (map Database.e_email (Database.emails d)) ->
  (forall s, Database.UpdateEmailStatus email s d = d) /\
  (forall p, Database.UpdateEmailWithProfile email p d = d) /\
  (forall lastError, Database.IncrementRetryCount email lastError d = d).
Proof.
  intros H. repeat split; intros; apply updateEmail_unknown; exact H.
Qed.

Lemma update_of_unknown_email_witness :
  Database.UpdateEmailStatus "b@x.com" Database.EmailStatusFailed
    (Database.ImportEmails ["a@x.com"] Database.InitSchema) =
  Database.ImportEmails ["a@x.com"] Database.InitSchema.
Proof.
  refine (proj1 (update_of_unknown_email "b@x.com"
                   (Database.ImportEmails ["a@x.com"] Database.InitSchema) _) _).
  vm_compute. intros [H|[]]. discriminate H.
Defined.

(** X4: [GetRemainingEmails] lists the emails of the rows with status
    [pending] or [failed], each row once, in the order of
    [ORDER BY retry_count ASC, id ASC], and [CountRemainingEmails] is the
    length of that list.  The ids of the table ascend in table order. *)
Theorem GetRemainingEmails_order (d : Database.DB) :
  StronglySorted Z.lt (map Database.e_id (Database.emails d)) ->
  exists rows,
    Database.GetRemainingEmails d = map Database.e_email rows /\
    Permutation rows (List.filter Database.isRemaining (Database.emails d)) /\
    StronglySorted Notions.byRetryThenId rows /\
    Database.CountRemainingEmails d = Z.of_nat (length (Database.GetRemainingEmails d)).
Proof.
  intros Hids.
  exists (Database.orderByRetry (List.filter Database.isRemaining (Database.emails d))).
  split; [reflexivity|]. split; [apply orderByRetry_perm|]. split.
  - unfold Database.orderByRetry. apply orderByRetry_fold_sorted.
    + constructor.
    + apply StronglySorted_filter_ids. exact Hids.
    + constructor.
  - unfold Database.CountRemainingEmails, Database.GetRemainingEmails.
    rewrite length_map. rewrite (Permutation_length (orderByRetry_perm _)). reflexivity.
Qed.

Lemma GetRemainingEmails_order_witness :
  Database.GetRemainingEmails
    (Database.IncrementRetryCount "a@x.com" "Failed after max retries"
       (Database.ImportEmails ["a@x.com"; "b@x.com"] Database.InitSchema)) =
    ["b@x.com"; "a@x.com"] /\
  exists rows,
    Database.GetRemainingEmails
      (Database.IncrementRetryCount "a@x.com" "Failed after max retries"
         (Database.ImportEmails ["a@x.com"; "b@x.com"] Database.InitSchema)) =
      map Database.e_email rows /\
    StronglySorted Notions.byRetryThenId rows.
Proof.
  split; [vm_compute; reflexivity|].
  destruct (GetRemainingEmails_order
              (Database.IncrementRetryCount "a@x.com" "Failed after max retries"
                 (Database.ImportEmails ["a@x.com"; "b@x.com"] Database.InitSchema)))
    as (rows & E & _ & S & _).
  - vm_compute. repeat constructor.
  - exists rows. split; assumption.
Defined.

(** X5: which emails remain after an update.  After [UpdateEmailStatus] the
    email is listed by [GetRemainingEmails] exactly when the table holds it
    and the new status is [pending] or [failed]; after
    [UpdateEmailWithProfile] it is not listed; [IncrementRetryCount] changes
    no membership; and the other emails are listed as before. *)
Theorem remaining_after_updates (email e : string) (d : Database.DB) :
  (forall s,
     In e (Database.GetRemainingEmails (Database.UpdateEmailStatus email s d)) <->
     if String.eqb e email
     then In email (map Database.e_email (Database.emails d)) /\
          (s = Database.EmailStatusPending \/ s = Database.EmailStatusFailed)
     else In e (Database.GetRemainingEmails d)) /\
  (forall p,
     In e (Database.GetRemainingEmails (Database.UpdateEmailWithProfile email p d)) <->
     e <> email /\ In e (Database.GetRemainingEmails d)) /\
  (forall lastError,
     In e (Database.GetRemainingEmails (Database.IncrementRetryCount email lastError d)) <->
     In e (Database.GetRemainingEmails d)).
Proof.
  split; [|split].
  - intros s. unfold Database.UpdateEmailStatus.
    rewrite remaining_after_update by reflexivity.
    destruct (String.eqb_spec e email) as [->|Hne].
    + rewrite in_map_iff. unfold Database.isRemaining. cbn [Database.e_status]. split.
      * intros (r & Hin & He & Hs). split; [exists r; auto|].
        destruct s; try discriminate Hs; auto.
      * intros [(r & He & Hin) [->| ->]]; exists r; auto.
    + rewrite GetRemainingEmails_In. reflexivity.
  - intros p. unfold Database.UpdateEmailWithProfile.
    rewrite remaining_after_update by reflexivity.
    destruct (String.eqb_spec e email) as [->|Hne].
    + unfold Database.isRemaining. cbn [Database.e_status]. split.
      * intros (r & _ & _ & Hs). discriminate Hs.
      * intros [Hne _]. congruence.
    + rewrite GetRemainingEmails_In. tauto.
  - intros lastError. unfold Database.IncrementRetryCount.
    rewrite remaining_after_update by reflexivity.
    rewrite GetRemainingEmails_In.
    destruct (String.eqb e email); reflexivity.
Qed.

Section StatsFacts.
Import Database EmailRepository.

Lemma statusText_inj (s s' : EmailStatus) : statusText s = statusText s' -> s = s'.
Proof. destruct s, s'; simpl; intros H; try reflexivity; discriminate H. Qed.

Lemma statusText_total (s : EmailStatus) : statusText s <> "total".
Proof. destruct s; discriminate. Qed.

Lemma stats_fold (rows : list EmailRow) (m : gmap string Z) (s : EmailStatus) :
  statOf
    (fold_left
       (fun stats r =>
          <[statusText (e_status r) :=
              (default 0 (stats !! statusText (e_status r)) + 1)%Z]> stats)
       rows m)
    (statusText s) =
  (statOf m (statusText s) +
   Z.of_nat (length (filter (fun r => e_status r = s) rows)))%Z.
Proof.
  revert m. induction rows as [|r rows IH]; intros m; [simpl; lia|].
  cbn [fold_left]. rewrite IH. rewrite filter_cons. unfold statOf.
  destruct (decide (e_status r = s)) as [E|E].
  - rewrite E, lookup_insert_eq. cbn [default length id]. lia.
  - rewrite lookup_insert_ne by (intros H; apply E, statusText_inj, H). lia.
Qed.

Lemma stats_fold_None (rows : list EmailRow) (m : gmap string Z) (s : EmailStatus) :
  filter (fun r => e_status r = s) rows = [] -> m !! statusText s = None ->
  fold_left
    (fun stats r =>
       <[statusText (e_status r) :=
           (default 0 (stats !! statusText (e_status r)) + 1)%Z]> stats)
    rows m !! statusText s = None.
Proof.
  revert m. induction rows as [|r rows IH]; intros m Hf Hm; [exact Hm|].
  cbn [fold_left]. rewrite filter_cons in Hf.
  destruct (decide (e_status r = s)) as [E|E]; [discriminate Hf|].
  apply IH; [exact Hf|].
  rewrite lookup_insert_ne by (intros H; apply E, statusText_inj, H). exact Hm.
Qed.

Lemma rows_by_status (rows : list EmailRow) :
  (Z.of_nat (length (filter (fun r => e_status r = EmailStatusPending) rows)) +
   Z.of_nat (length (filter (fun r => e_status r = EmailStatusSuccessWithData) rows)) +
   Z.of_nat (length (filter (fun r => e_status r = EmailStatusSuccessNoData) rows)) +
   Z.of_nat (length (filter (fun r => e_status r = EmailStatusFailed) rows)) +
   Z.of_nat (length (filter (fun r => e_status r = EmailStatusPermanentFailed) rows)))%Z =
  Z.of_nat (length rows).
Proof.
  induction rows as [|r rows IH]; [reflexivity|].
  rewrite !filter_cons.
  destruct (e_status r); repeat case_decide; try congruence; cbn [length]; lia.
Qed.

End StatsFacts.

(** X6: [GetEmailStats] counts every row once.  The entry of a status is
    the number of emails [GetEmailsByStatus] lists for it, a status without
    rows has no entry, [total] is the number of rows, and the entries of
    the five statuses add up to [total]. *)
Theorem GetEmailStats_counts (d : Database.DB) :
  let stats := EmailRepository.GetEmailStats d in
  (forall s,
     EmailRepository.statOf stats (EmailRepository.statusText s) =
     Z.of_nat (length (EmailRepository.GetEmailsByStatus s d))) /\
  (forall s,
     EmailRepository.GetEmailsByStatus s d = [] ->
     stats !! EmailRepository.statusText s = None) /\
  EmailRepository.statOf stats "total" = Z.of_nat (length (Database.emails d)) /\
  (EmailRepository.statOf stats "pending" +
   EmailRepository.statOf stats "success_with_data" +
   EmailRepository.statOf stats "success_without_data" +
   EmailRepository.statOf stats "failed" +
   EmailRepository.statOf stats "permanent_failed")%Z =
  EmailRepository.statOf stats "total".
Proof.
  intros stats.
  assert (Hs : forall s,
             EmailRepository.statOf stats (EmailRepository.statusText s) =
             Z.of_nat (length (EmailRepository.GetEmailsByStatus s d))).
  { intros s. unfold stats, EmailRepository.GetEmailStats, EmailRepository.statOf.
    rewrite lookup_insert_ne by (intros H; symmetry in H; exact (statusText_total s H)).
    fold (EmailRepository.statOf
            (fold_left
               (fun stats r =>
                  <[EmailRepository.statusText (Database.e_status r) :=
                      (default 0 (stats !! EmailRepository.statusText (Database.e_status r))
                       + 1)%Z]> stats)
               (Database.emails d) ∅)
            (EmailRepository.statusText s)).
    rewrite stats_fold. unfold EmailRepository.statOf, EmailRepository.GetEmailsByStatus.
    rewrite lookup_empty, length_map. cbn [default]. lia. }
  assert (Ht : EmailRepository.statOf stats "total" = Z.of_nat (length (Database.emails d))).
  { unfold stats, EmailRepository.GetEmailStats, EmailRepository.statOf.
    rewrite lookup_insert_eq. reflexivity. }
  split; [exact Hs|]. split; [|split; [exact Ht|]].
  - intros s Hnil. unfold stats, EmailRepository.GetEmailStats.
    rewrite lookup_insert_ne by (intros H; symmetry in H; exact (statusText_total s H)).
    apply stats_fold_None; [|apply lookup_empty].
    unfold EmailRepository.GetEmailsByStatus in Hnil.
    apply map_eq_nil in Hnil. exact Hnil.
  - rewrite Ht.
    change "permanent_failed"
      with (EmailRepository.statusText Database.EmailStatusPermanentFailed).
    change "pending" with (EmailRepository.statusText Database.EmailStatusPending).
    change "success_with_data"
      with (EmailRepository.statusText Database.EmailStatusSuccessWithData).
    change "success_without_data"
      with (EmailRepository.statusText Database.EmailStatusSuccessNoData).
    change "failed" with (EmailRepository.statusText Database.EmailStatusFailed) at 1.
    rewrite !Hs. unfold EmailRepository.GetEmailsByStatus. rewrite !length_map.
    apply rows_by_status.
Qed.

Section TokenFacts.
Import Database.

Lemma insertToken_tokens (x : string) (d : DB) :
  tokens (insertToken x d) =
    if bool_decide (x ∈ map t_token (tokens d)) then tokens d
    else tokens d ++
           [{| t_id := (tokens_seq d + 1)%Z; t_token := x; t_is_valid := true;
               t_failure_count := 0 |}].
Proof. unfold insertToken. case_bool_decide; reflexivity. Qed.

Lemma insertToken_stored (x t : string) (d : DB) :
  In t (map t_token (tokens (insertToken x d))) <->
  In t (map t_token (tokens d)) \/ t = x.
Proof.
  rewrite insertToken_tokens. case_bool_decide as H.
  - split; [auto|]. intros [Hin| ->]; [exact Hin|].
    apply list_elem_of_In. exact H.
  - rewrite map_app, in_app_iff. simpl. intuition.
Qed.

Lemma insertToken_valid (x t : string) (d : DB) :
  In t (GetValidTokens (insertToken x d)) <->
  In t (GetValidTokens d) \/ (t = x /\ ~ In x (map t_token (tokens d))).
Proof.
  unfold GetValidTokens. rewrite insertToken_tokens. case_bool_decide as H.
  - split; [auto|]. intros [Hin|[_ Hn]]; [exact Hin|].
    exfalso. apply Hn. apply list_elem_of_In. exact H.
  - rewrite List.filter_app, map_app, in_app_iff. simpl.
    rewrite list_elem_of_In in H. intuition.
Qed.

Lemma AddTokens_valid (l : list string) (t : string) (d : DB) :
  In t (GetValidTokens (AddTokens l d)) <->
  In t (GetValidTokens d) \/ (In t l /\ ~ In t (map t_token (tokens d))).
Proof.
  unfold AddTokens. revert d. induction l as [|x l IH]; intros d; simpl.
  - tauto.
  - rewrite IH, insertToken_valid, insertToken_stored.
    destruct (String.eqb_spec t x) as [->|Hne]; [tauto|].
    split.
    + intros [[H|[H _]]|[H1 H2]]; [auto|contradiction|]. right. split; [auto|tauto].
    + intros [H|[[H|H] Hn]]; [auto|congruence|]. right. tauto.
Qed.

Lemma AddTokens_appends (l : list string) (d : DB) :
  exists added,
    tokens (AddTokens l d) = tokens d ++ added /\
    Forall (fun r => t_is_valid r = true) added /\
    emails (AddTokens l d) = emails d.
Proof.
  unfold AddTokens. revert d. induction l as [|x l IH]; intros d; simpl.
  - exists []. rewrite app_nil_r. repeat split. constructor.
  - destruct (IH (insertToken x d)) as (a2 & E2 & F2 & M2).
    rewrite E2, M2, insertToken_tokens. case_bool_decide.
    + exists a2. unfold insertToken. rewrite bool_decide_eq_true_2 by assumption. auto.
    + eexists. rewrite <- app_assoc. split; [reflexivity|].
      split; [constructor; [reflexivity|exact F2]|].
      unfold insertToken. rewrite bool_decide_eq_false_2 by assumption. reflexivity.
Qed.

Lemma GetValidTokens_InvalidateToken (t : string) (d : DB) :
  GetValidTokens (InvalidateToken t d) =
    List.filter (fun x => negb (String.eqb x t)) (GetValidTokens d).
Proof.
  unfold GetValidTokens, InvalidateToken. cbn [set_tokens tokens].
  induction (tokens d) as [|r rows IH]; [reflexivity|].
  cbn [map List.filter].
  destruct (String.eqb_spec (t_token r) t) as [E|E]; cbn [t_is_valid].
  - destruct (t_is_valid r); cbn [map List.filter]; [|exact IH].
    rewrite E, String.eqb_refl. exact IH.
  - destruct (t_is_valid r); cbn [map List.filter]; [|exact IH].
    destruct (String.eqb_spec (t_token r) t); [contradiction|].
    cbn [negb]. rewrite IH. reflexivity.
Qed.

Lemma filter_other_absent (t : string) (l : list string) :
  ~ In t l -> List.filter (fun x => negb (String.eqb x t)) l = l.
Proof.
  induction l as [|x l IH]; intros H; [reflexivity|].
  simpl. destruct (String.eqb_spec x t) as [E|_].
  - exfalso. apply H. left. exact E.
  - simpl. f_equal. apply IH. intros Hin. apply H. right. exact Hin.
Qed.

Lemma filter_other_once (t : string) (l : list string) :
  NoDup l -> In t l ->
  S (length (List.filter (fun x => negb (String.eqb x t)) l)) = length l.
Proof.
  induction 1 as [|x l Hx Hnd IH]; intros Hin; [destruct Hin|].
  simpl. destruct (String.eqb_spec x t) as [E|E]; simpl.
  - subst x. rewrite filter_other_absent; [reflexivity|].
    rewrite <- list_elem_of_In. exact Hx.
  - f_equal. apply IH. destruct Hin as [Hin|Hin]; [contradiction|exact Hin].
Qed.

Lemma NoDup_valid (d : DB) :
  NoDup (map t_token (tokens d)) -> NoDup (GetValidTokens d).
Proof.
  unfold GetValidTokens. induction (tokens d) as [|r rows IH]; intros H; [constructor|].
  simpl in H. apply NoDup_cons in H. destruct H as [Hr Hnd].
  simpl. destruct (t_is_valid r); [|apply IH; exact Hnd].
  simpl. apply NoDup_cons. split; [|apply IH; exact Hnd].
  intros Hin. apply Hr. apply list_elem_of_In in Hin. apply list_elem_of_In.
  apply in_map_iff in Hin. destruct Hin as (r' & E & Hin). apply filter_In in Hin.
  apply in_map_iff. exists r'. tauto.
Qed.

Lemma fold_left_keep {A B : Type} (p : A -> bool) (g : A -> B) (l : list A) (acc : list B) :
  fold_left (fun acc x => if p x then acc ++ [g x] else acc) l acc =
    acc ++ map g (List.filter p l).
Proof.
  revert acc. induction l as [|x l IH]; intros acc; simpl.
  - rewrite app_nil_r. reflexivity.
  - rewrite IH. destruct (p x); [|reflexivity]. simpl. rewrite <- app_assoc. reflexivity.
Qed.

Lemma AddTokens_stored (l : list string) (d : DB) :
  map t_token (tokens (AddTokens l d)) =
    fold_left (fun acc x => if bool_decide (x ∈ acc) then acc else acc ++ [x]) l
      (map t_token (tokens d)).
Proof.
  unfold AddTokens. revert d. induction l as [|x l IH]; intros d; [reflexivity|].
  simpl. rewrite IH, insertToken_tokens.
  case_bool_decide; [reflexivity|]. rewrite map_app. reflexivity.
Qed.

Lemma filter_all_valid (rows : list TokenRow) :
  Forall (fun r => t_is_valid r = true) rows -> List.filter t_is_valid rows = rows.
Proof.
  induction 1 as [|r rows Hr _ IH]; [reflexivity|]. simpl. rewrite Hr, IH. reflexivity.
Qed.

End TokenFacts.

(** X7: [AddTokens] adds the tokens the table does not hold, as valid
    tokens, behind the rows it holds; it changes no row, so a token that
    was invalidated stays invalid when it is added again, and the emails
    table is not touched. *)
Theorem AddTokens_never_revalidates (l : list string) (d : Database.DB) :
  (forall t,
     In t (Database.GetValidTokens (Database.AddTokens l d)) <->
     In t (Database.GetValidTokens d) \/
     (In t l /\ ~ In t (map Database.t_token (Database.tokens d)))) /\
  (forall t,
     In t (map Database.t_token (Database.tokens d)) ->
     ~ In t (Database.GetValidTokens (Database.AddTokens l (Database.InvalidateToken t d)))) /\
  (exists added,
     Database.tokens (Database.AddTokens l d) = Database.tokens d ++ added) /\
  Database.emails (Database.AddTokens l d) = Database.emails d.
Proof.
  split; [intros t; apply AddTokens_valid|]. split.
  - intros t Hin Hv. apply AddTokens_valid in Hv. destruct Hv as [Hv|[_ Hn]].
    + rewrite GetValidTokens_InvalidateToken in Hv. apply filter_In in Hv.
      destruct Hv as [_ Hv]. rewrite String.eqb_refl in Hv. discriminate Hv.
    + apply Hn. unfold Database.InvalidateToken. cbn [Database.set_tokens Database.tokens].
      rewrite map_map.
      rewrite (map_ext _ Database.t_token); [exact Hin|].
      intros r. destruct (String.eqb _ _); reflexivity.
  - destruct (AddTokens_appends l d) as (added & E & _ & M). split; [exists added|]; auto.
Qed.

(** X8: [InvalidateToken] takes exactly the given token out of what
    [GetValidTokens] lists and keeps the order of the others.  In a table
    without duplicates the count of valid tokens drops by one when the
    token was valid, and nothing changes when it was not. *)
Theorem InvalidateToken_removes_one (t : string) (d : Database.DB) :
  NoDup (map Database.t_token (Database.tokens d)) ->
  Database.GetValidTokens (Database.InvalidateToken t d) =
    List.filter (fun x => negb (String.eqb x t)) (Database.GetValidTokens d) /\
  (In t (Database.GetValidTokens d) ->
   TokenRepository.GetValidTokenCount (Database.InvalidateToken t d) =
   (TokenRepository.GetValidTokenCount d - 1)%Z) /\
  (~ In t (Database.GetValidTokens d) ->
   Database.GetValidTokens (Database.InvalidateToken t d) = Database.GetValidTokens d).
Proof.
  intros Hnd. split; [apply GetValidTokens_InvalidateToken|]. split.
  - intros Hin.
    assert (Hc : forall d', TokenRepository.GetValidTokenCount d' =
                            Z.of_nat (length (Database.GetValidTokens d'))).
    { intros d'. unfold TokenRepository.GetValidTokenCount, Database.GetValidTokens.
      rewrite length_map. reflexivity. }
    rewrite !Hc, GetValidTokens_InvalidateToken.
    pose proof (filter_other_once t _ (NoDup_valid d Hnd) Hin). lia.
  - intros Hn. rewrite GetValidTokens_InvalidateToken. apply filter_other_absent. exact Hn.
Qed.

Lemma InvalidateToken_removes_one_witness :
  Database.GetValidTokens
    (Database.InvalidateToken "T1" (Database.AddTokens ["T1"; "T2"] Database.InitSchema)) =
    ["T2"] /\
  TokenRepository.GetValidTokenCount
    (Database.InvalidateToken "T1" (Database.AddTokens ["T1"; "T2"] Database.InitSchema)) =
    1%Z.
Proof.
  destruct (InvalidateToken_removes_one "T1"
              (Database.AddTokens ["T1"; "T2"] Database.InitSchema)) as (H1 & H2 & _).
  - vm_compute. repeat constructor; intros H; inversion H as [|? ? ? H']; inversion H'.
  - split; [rewrite H1; reflexivity|].
    rewrite H2; [reflexivity|]. vm_compute. auto.
Defined.

(** X9: the tokens file round trip.  On the fresh schema,
    [ImportTokensFromFile] followed by [GetValidTokens] gives the lines of
    the file that are not blank, trimmed and without a leading [Bearer ],
    each once, in file order. *)
Theorem import_tokens_then_GetValidTokens (content : string) :
  Database.GetValidTokens (Storage.ImportTokensFromFile content Database.InitSchema) =
    Spec.dedupFirst (Notions.tokensOfFile content).
Proof.
  unfold Storage.ImportTokensFromFile, Database.GetValidTokens.
  cbv zeta.
  rewrite (fold_left_keep
             (fun line => negb (String.eqb (GoStrings.TrimSpace line) ""))
             (fun line => GoStrings.TrimPrefix (GoStrings.TrimSpace line) "Bearer ")).
  cbn [app].
  destruct (AddTokens_appends
              (map (fun line => GoStrings.TrimPrefix (GoStrings.TrimSpace line) "Bearer ")
                 (List.filter (fun line => negb (String.eqb (GoStrings.TrimSpace line) ""))
                    (GoStrings.Split content GoStrings.LF)))
              Database.InitSchema) as (added & E & F & _).
  cbn [Database.InitSchema Database.tokens app] in E.
  rewrite (filter_all_valid _ (eq_ind_r (Forall _) F E)).
  rewrite AddTokens_stored. cbn [Database.InitSchema Database.tokens map].
  unfold Spec.dedupFirst, Notions.tokensOfFile. f_equal.
  rewrite filter_map_swap, map_map. reflexivity.
Qed.

(** ** Bytes of trimmed and split strings *)

Section StringFacts.
Import GoStrings Notions.

Lemma bytesOf_rev_app (s1 s2 : string) :
  bytesOf (String.rev_app s1 s2) = rev (bytesOf s1) ++ bytesOf s2.
Proof.
  revert s2. induction s1 as [|c s1 IH]; intros s2; simpl; [reflexivity|].
  rewrite IH, <- app_assoc. reflexivity.
Qed.

Lemma bytesOf_rev (s : string) : bytesOf (String.rev s) = rev (bytesOf s).
Proof. unfold String.rev. rewrite bytesOf_rev_app. apply app_nil_r. Qed.

Lemma bytesOf_nil (s : string) : bytesOf s = [] -> s = EmptyString.
Proof. destruct s; [reflexivity|discriminate]. Qed.

(** [trimRunes] returns a suffix of its argument. *)
Lemma trimRunes_suffix (m2 : ascii -> ascii -> bool) (m3 : ascii -> ascii -> ascii -> bool)
    (n : nat) (s : string) :
  (String.length s <= n)%nat ->
  exists dropped, bytesOf s = dropped ++ bytesOf (trimRunes m2 m3 s).
Proof.
  revert s. induction n as [|n IH]; intros s Hlen.
  - destruct s; [|simpl in Hlen; lia]. exists []. reflexivity.
  - destruct s as [|c s1]; [exists []; reflexivity|].
    simpl in Hlen. cbn [trimRunes].
    destruct (asciiSpace c).
    { destruct (IH s1 ltac:(lia)) as (dr & E). exists (c :: dr). simpl. rewrite E. reflexivity. }
    destruct s1 as [|c1 s2]; [exists []; reflexivity|].
    destruct (m2 c c1).
    { simpl in Hlen. destruct (IH s2 ltac:(lia)) as (dr & E).
      exists (c :: c1 :: dr). simpl. rewrite E. reflexivity. }
    destruct s2 as [|c2 s3]; [exists []; reflexivity|].
    destruct (m3 c c1 c2); [|exists []; reflexivity].
    simpl in Hlen. destruct (IH s3 ltac:(lia)) as (dr & E).
    exists (c :: c1 :: c2 :: dr). simpl. rewrite E. reflexivity.
Qed.

(** Every byte of [TrimSpace s] is a byte of [s]. *)
Lemma TrimSpace_bytes (s : string) (c : ascii) :
  In c (bytesOf (TrimSpace s)) -> In c (bytesOf s).
Proof.
  unfold TrimSpace. intros H.
  destruct (trimRunes_suffix isSpace2 isSpace3 (String.length s) s (le_n _)) as (d1 & E1).
  set (s1 := trimRunes isSpace2 isSpace3 s) in *.
  destruct (trimRunes_suffix (fun b1 b0 => isSpace2 b0 b1)
              (fun b2 b1 b0 => isSpace3 b0 b1 b2)
              (String.length (String.rev s1)) (String.rev s1) (le_n _)) as (d2 & E2).
  rewrite bytesOf_rev in H. apply in_rev in H.
  rewrite E1. apply in_or_app. right.
  apply in_rev. rewrite <- bytesOf_rev, E2. apply in_or_app. right. exact H.
Qed.

(** No field of [Split s sep] holds the separator. *)
Lemma Split_fields (s : string) (sep : ascii) :
  Forall (fun x => ~ In sep (bytesOf x)) (Split s sep).
Proof.
  induction s as [|c s IH]; simpl.
  - constructor; [simpl; tauto|constructor].
  - destruct (Ascii.eqb_spec c sep) as [E|E].
    + constructor; [simpl; tauto|exact IH].
    + destruct (Split s sep) as [|x xs]; [repeat constructor; simpl; intuition|].
      inversion IH as [|? ? Hx Hxs]; subst.
      constructor; [|exact Hxs]. simpl. intros [H|H]; [congruence|contradiction].
Qed.

(** Every byte of a field of [Split s sep] is a byte of [s]. *)
Lemma Split_bytes (s : string) (sep : ascii) (y : string) (c : ascii) :
  In y (Split s sep) -> In c (bytesOf y) -> In c (bytesOf s).
Proof.
  revert y. induction s as [|a s IH]; intros y Hy Hc; simpl in Hy.
  - destruct Hy as [<-|[]]. exact Hc.
  - destruct (Ascii.eqb a sep).
    + destruct Hy as [<-|Hy]; [destruct Hc|]. right. eapply IH; eassumption.
    + destruct (Split s sep) as [|x xs] eqn:E.
      * destruct Hy as [<-|[]]. destruct Hc as [Hc|[]]. left. exact Hc.
      * destruct Hy as [<-|Hy].
        { destruct Hc as [Hc|Hc]; [left; exact Hc|]. right.
          apply (IH x); [left; reflexivity|exact Hc]. }
        { right. apply (IH y); [right; exact Hy|exact Hc]. }
Qed.

End StringFacts.

Section AccountFacts.
Import Models AccountRepository.

(** What makes [LoadAccountsFromText] keep a line. *)
Lemma LoadAccountsFromText_fold (lines : list string) (acc : list Account)
    (P : Account -> Prop) :
  Forall P acc ->
  (forall line email password,
      In line lines ->
      GoStrings.Split (GoStrings.TrimSpace line) "|"%char = [email; password] ->
      GoStrings.TrimSpace email <> "" -> GoStrings.TrimSpace password <> "" ->
      P {| Email := GoStrings.TrimSpace email; Password := GoStrings.TrimSpace password |}) ->
  Forall P
    (fold_left
       (fun accounts line =>
          let line := GoStrings.TrimSpace line in
          if String.eqb line "" || GoStrings.HasPrefix line "#" then accounts
          else
            let parts := GoStrings.Split line "|"%char in
            if negb (length parts =? 2)%nat then accounts
            else
              let email := GoStrings.TrimSpace (nth 0 parts "") in
              let password := GoStrings.TrimSpace (nth 1 parts "") in
              if negb (String.eqb email "") && negb (String.eqb password "")
              then accounts ++ [{| Email := email; Password := password |}]
              else accounts)
       lines acc).
Proof.
  revert acc. induction lines as [|line lines IH]; intros acc Hacc Hp; [exact Hacc|].
  cbn [fold_left]. apply IH; [|intros l e p Hin; apply Hp; right; exact Hin].
  cbv zeta. destruct (_ || _); [exact Hacc|].
  destruct (GoStrings.Split (GoStrings.TrimSpace line) "|"%char)
    as [|email [|password [|? ?]]] eqn:Hs; cbn [length Nat.eqb negb]; try exact Hacc.
  cbn [nth].
  destruct (String.eqb_spec (GoStrings.TrimSpace email) ""); cbn [negb andb]; [exact Hacc|].
  destruct (String.eqb_spec (GoStrings.TrimSpace password) ""); cbn [negb andb];
    [exact Hacc|].
  apply Forall_app. split; [exact Hacc|]. constructor; [|constructor].
  apply (Hp line); [left; reflexivity|exact Hs|assumption|assumption].
Qed.

End AccountFacts.

(** X10: every account [LoadAccountsFromText] returns comes from a line of
    exactly two fields separated by a bar: its email and its password are
    not empty and hold neither a bar nor a line feed. *)
Theorem LoadAccountsFromText_accounts (content : string) :
  Forall
    (fun a =>
       Models.Email a <> "" /\ Models.Password a <> "" /\
       ~ In "|"%char (Notions.bytesOf (Models.Email a)) /\
       ~ In "|"%char (Notions.bytesOf (Models.Password a)) /\
       ~ In GoStrings.LF (Notions.bytesOf (Models.Email a)) /\
       ~ In GoStrings.LF (Notions.bytesOf (Models.Password a)))
    (AccountRepository.LoadAccountsFromText content).
Proof.
  unfold AccountRepository.LoadAccountsFromText. cbv zeta.
  apply LoadAccountsFromText_fold; [constructor|].
  intros line email password Hin Hs He Hp. cbn [Models.Email Models.Password].
  pose proof (Split_fields (GoStrings.TrimSpace line) "|"%char) as Hbar.
  rewrite Hs in Hbar. inversion Hbar as [|? ? Hb1 Hbar']; subst.
  inversion Hbar' as [|? ? Hb2 _]; subst.
  pose proof (Split_fields content GoStrings.LF) as Hlf.
  rewrite List.Forall_forall in Hlf. specialize (Hlf line Hin).
  assert (Hl : forall x, In x [email; password] ->
                         forall c, In c (Notions.bytesOf x) ->
                                   In c (Notions.bytesOf line)).
  { intros x Hx c Hc. apply TrimSpace_bytes.
    apply (Split_bytes _ "|"%char x); [rewrite Hs; exact Hx|exact Hc]. }
  repeat split; try assumption.
  - intros H. apply Hb1. apply TrimSpace_bytes. exact H.
  - intros H. apply Hb2. apply TrimSpace_bytes. exact H.
  - intros H. apply Hlf. apply (Hl email); [left; reflexivity|].
    apply TrimSpace_bytes. exact H.
  - intros H. apply Hlf. apply (Hl password); [right; left; reflexivity|].
    apply TrimSpace_bytes. exact H.
Qed.

Section AccountTableFacts.
Import Models AccountRepository.

Lemma insertAccount_rows (a : Account) (t : Table) :
  rows (insertAccount a t) =
    if bool_decide (Email a ∈ map a_email (rows t)) then rows t
    else rows t ++ [{| a_id := (seq t + 1)%Z; a_email := Email a;
                       a_password := Password a; a_is_used := false |}].
Proof. unfold insertAccount. case_bool_decide; reflexivity. Qed.

Lemma ImportAccounts_rows (l : list Account) (t : Table) :
  Forall (fun r => a_is_used r = false) (rows t) ->
  Forall (fun r => a_is_used r = false) (rows (ImportAccounts l t)) /\
  map accountOf (rows (ImportAccounts l t)) =
    fold_left
      (fun acc a => if bool_decide (Email a ∈ map Email acc) then acc else acc ++ [a])
      l (map accountOf (rows t)).
Proof.
  unfold ImportAccounts. revert t. induction l as [|a l IH]; intros t Hu; [auto|].
  cbn [fold_left].
  assert (Hm : map Email (map accountOf (rows t)) = map a_email (rows t))
    by (rewrite map_map; reflexivity).
  destruct (IH (insertAccount a t)) as [IH1 IH2].
  { rewrite insertAccount_rows. case_bool_decide; [exact Hu|].
    apply Forall_app. split; [exact Hu|]. constructor; [reflexivity|constructor]. }
  split; [exact IH1|]. rewrite IH2, insertAccount_rows, Hm.
  case_bool_decide; [reflexivity|]. rewrite map_app. destruct a; reflexivity.
Qed.

Lemma filter_unused (l : list AccountRow) :
  Forall (fun r => a_is_used r = false) l ->
  List.filter (fun r => negb (a_is_used r)) l = l.
Proof.
  induction 1 as [|r l Hr _ IH]; [reflexivity|]. simpl. rewrite Hr, IH. reflexivity.
Qed.

Lemma unused_after_mark (email : string) (l : list AccountRow) :
  map accountOf
    (List.filter (fun r => negb (a_is_used r))
       (map (fun r =>
               if String.eqb (a_email r) email
               then {| a_id := a_id r; a_email := a_email r;
                       a_password := a_password r; a_is_used := true |}
               else r) l)) =
  List.filter (fun a => negb (String.eqb (Email a) email))
    (map accountOf (List.filter (fun r => negb (a_is_used r)) l)).
Proof.
  induction l as [|r l IH]; [reflexivity|].
  cbn [map List.filter].
  destruct (String.eqb_spec (a_email r) email) as [E|E]; cbn [a_is_used negb].
  - destruct (a_is_used r); cbn [negb map List.filter accountOf Email]; [exact IH|].
    rewrite E, String.eqb_refl. exact IH.
  - destruct (a_is_used r); cbn [negb map List.filter accountOf Email]; [exact IH|].
    destruct (String.eqb_spec (a_email r) email); [contradiction|].
    cbn [negb]. rewrite IH. reflexivity.
Qed.

End AccountTableFacts.

(** X11: the accounts file round trip.  On the fresh table,
    [ImportAccountsFromFile] followed by [LoadAccounts] on a storage that
    was given the database returns the accounts [LoadAccountsFromText]
    reads from the file, in file order, with the first password of an email
    that occurs more than once. *)
Theorem import_accounts_then_LoadAccounts (content : string) (s : Storage.Service) :
  DBStorage.LoadAccounts (Storage.SetDBStorage s)
    (DBStorage.ImportAccountsFromFile content AccountRepository.InitSchema) =
    inl (Notions.firstByEmail (AccountRepository.LoadAccountsFromText content)).
Proof.
  unfold DBStorage.LoadAccounts, DBStorage.ImportAccountsFromFile. cbn [Storage.SetDBStorage
    Storage.dbStorageSet]. f_equal.
  unfold AccountRepository.GetUnusedAccounts, Database.sqlLimit. cbn [Z.ltb Z.compare].
  destruct (ImportAccounts_rows (AccountRepository.LoadAccountsFromText content)
              AccountRepository.InitSchema) as [Hu Hm]; [constructor|].
  rewrite (filter_unused _ Hu), Hm. reflexivity.
Qed.

(** X12: an account given to [RemoveAccountFromFile] is no longer returned
    by [LoadAccounts]; the other unused accounts are returned as before, in
    the same order, and [GetUnusedAccountCount] is the number of accounts
    [GetUnusedAccounts] returns without a limit. *)
Theorem RemoveAccountFromFile_then_LoadAccounts (s : Storage.Service)
    (acc : Models.Account) (t : AccountRepository.Table) :
  let as_ := Storage.SetDBStorage s in
  fst (DBStorage.RemoveAccountFromFile as_ acc t) = None /\
  DBStorage.LoadAccounts as_ (snd (DBStorage.RemoveAccountFromFile as_ acc t)) =
    inl (List.filter (fun a => negb (String.eqb (Models.Email a) (Models.Email acc)))
           (AccountRepository.GetUnusedAccounts 0 t)) /\
  AccountRepository.GetUnusedAccountCount t =
    Z.of_nat (length (AccountRepository.GetUnusedAccounts 0 t)).
Proof.
  cbv zeta. unfold DBStorage.RemoveAccountFromFile, DBStorage.LoadAccounts.
  cbn [Storage.SetDBStorage Storage.dbStorageSet fst snd].
  split; [reflexivity|]. split.
  - f_equal. unfold AccountRepository.GetUnusedAccounts, Database.sqlLimit.
    cbn [Z.ltb Z.compare AccountRepository.MarkAccountAsUsed AccountRepository.rows].
    apply unused_after_mark.
  - unfold AccountRepository.GetUnusedAccountCount, AccountRepository.GetUnusedAccounts,
      Database.sqlLimit. cbn [Z.ltb Z.compare]. rewrite length_map. reflexivity.
Qed.

(** ** The pool, continued *)

Section PoolMore.
Import Models Crawler.
Variable env : Env.

Lemma validTokens_count (lc : LinkedInCrawler) :
  (length (validTokens lc) +
   length (List.filter (fun token => isInvalid lc token) (Tokens lc)) =
   length (Tokens lc))%nat.
Proof.
  unfold validTokens.
  rewrite <- (List.filter_length (fun token => negb (isInvalid lc token)) (Tokens lc)).
  f_equal. f_equal. apply List.filter_ext. intros t. rewrite negb_involutive. reflexivity.
Qed.

Lemma CheckIfAllTokensInvalid_run (s : QS) :
  CheckIfAllTokensInvalid s =
    match validTokens (q_lc s) with
    | [] => (true, {| q_lc := set_AllTokensFailed true (q_lc s); q_io := q_io s |})
    | _ :: _ => (false, s)
    end.
Proof.
  unfold CheckIfAllTokensInvalid. rewrite bind_run. unfold gets. cbn [fst snd].
  pose proof (validTokens_count (q_lc s)) as Hc.
  destruct (validTokens (q_lc s)) as [|v vs] eqn:Hv.
  - simpl in Hc. rewrite Hc, Z.leb_refl. reflexivity.
  - simpl in Hc.
    destruct (Z.leb_spec (Z.of_nat (length (Tokens (q_lc s))))
                (Z.of_nat (length (List.filter (fun token => isInvalid (q_lc s) token)
                                     (Tokens (q_lc s)))))); [lia|reflexivity].
Qed.

(** What [GetToken] leaves as it is. *)
Lemma GetToken_split (s : QS) :
  exists io',
    GetToken env s = (fst (GetToken env s), {| q_lc := q_lc s; q_io := io' |}) /\
    n_http io' = n_http (q_io s) /\ n_wait io' = n_wait (q_io s) /\
    trace io' = trace (q_io s) /\ db io' = db (q_io s) /\
    hit_txt io' = hit_txt (q_io s) /\ emails_txt io' = emails_txt (q_io s).
Proof.
  rewrite GetToken_run. destruct (validTokens (q_lc s)).
  - exists (q_io s). destruct s. simpl. repeat split.
  - eexists. split; [reflexivity|]. simpl. repeat split.
Qed.

End PoolMore.

Section PoolProperties.
Import Models Crawler.

(** X13: [CheckIfAllTokensInvalid] answers true exactly when no token of
    the pool is valid (an empty pool included), and only then sets
    [AllTokensFailed]; otherwise it leaves the crawler as it is. *)
Theorem CheckIfAllTokensInvalid_iff (s : Crawler.QS) :
  (Crawler.validTokens (Crawler.q_lc s) = [] ->
   Crawler.CheckIfAllTokensInvalid s =
     (true, {| Crawler.q_lc := Models.set_AllTokensFailed true (Crawler.q_lc s);
               Crawler.q_io := Crawler.q_io s |})) /\
  (Crawler.validTokens (Crawler.q_lc s) <> [] ->
   Crawler.CheckIfAllTokensInvalid s = (false, s)).
Proof.
  rewrite CheckIfAllTokensInvalid_run.
  destruct (Crawler.validTokens (Crawler.q_lc s)); split; intros H;
    try reflexivity; congruence.
Qed.

Lemma CheckIfAllTokensInvalid_iff_witness :
  Crawler.CheckIfAllTokensInvalid
    {| Crawler.q_lc := Samples.poolDead; Crawler.q_io := Samples.io0 |} =
  (true, {| Crawler.q_lc := Models.set_AllTokensFailed true Samples.poolDead;
            Crawler.q_io := Samples.io0 |}).
Proof.
  apply (proj1 (CheckIfAllTokensInvalid_iff
                  {| Crawler.q_lc := Samples.poolDead; Crawler.q_io := Samples.io0 |})).
  vm_compute. reflexivity.
Defined.

(** X14: once [MarkTokenAsInvalid] marked a token, [GetToken] does not return
    it as long as another token of the pool is valid: it returns a token of
    the pool that was valid before and is not the marked one. *)
Theorem GetToken_after_MarkTokenAsInvalid (env : Env) (token : string) (s : Crawler.QS) :
  let s' := snd (Crawler.MarkTokenAsInvalid token s) in
  Crawler.validTokens (Crawler.q_lc s') <> [] ->
  fst (Crawler.GetToken env s') <> token /\
  In (fst (Crawler.GetToken env s')) (Models.Tokens (Crawler.q_lc s)) /\
  Models.isInvalid (Crawler.q_lc s) (fst (Crawler.GetToken env s')) = false.
Proof.
  intros s' Hv. pose proof (GetToken_in_valid env s' Hv) as Hin.
  unfold s' in Hin at 2. rewrite MarkTokenAsInvalid_run in Hin. cbn [snd q_lc] in Hin.
  rewrite validTokens_mark in Hin. apply filter_In in Hin. destruct Hin as [Hin Hne].
  apply validTokens_spec in Hin. destruct Hin as [Hin Hval].
  destruct (String.eqb_spec (fst (Crawler.GetToken env s')) token); [discriminate|].
  auto.
Qed.

Lemma GetToken_after_MarkTokenAsInvalid_witness :
  fst (Crawler.GetToken (Samples.envAlways TransportError)
         (snd (Crawler.MarkTokenAsInvalid "A"
                 {| Crawler.q_lc := Samples.poolHalf; Crawler.q_io := Samples.io0 |})))
  <> "A".
Proof.
  refine (proj1 (GetToken_after_MarkTokenAsInvalid (Samples.envAlways TransportError) "A"
                   {| Crawler.q_lc := Samples.poolHalf; Crawler.q_io := Samples.io0 |} _)).
  vm_compute. discriminate.
Defined.

End PoolProperties.

(** ** The query service, continued *)

(** *** Frames of a query, for any relation the steps of a query respect *)

Section QueryFrame.
Import Models Crawler.
Variable env : Env.
Variable Rio : IO -> IO -> Prop.
Variable Rlc : LinkedInCrawler -> LinkedInCrawler -> Prop.
Variable ts : Storage.Service.

Hypothesis Rio_trans : forall a b c, Rio a b -> Rio b c -> Rio a c.
Hypothesis Rio_quiet :
  forall io io', db io' = db io -> hit_txt io' = hit_txt io ->
                 emails_txt io' = emails_txt io -> Rio io io'.
Hypothesis Rio_remove :
  forall io token, Rio io (set_db (snd (Storage.RemoveTokenFromFile ts token (db io))) io).
Hypothesis Rlc_refl : forall lc, Rlc lc lc.
Hypothesis Rlc_trans : forall a b c, Rlc a b -> Rlc b c -> Rlc a c.
Hypothesis Rlc_mark :
  forall lc token, Rlc lc (set_InvalidTokens (<[token := true]> (InvalidTokens lc)) lc).
Hypothesis Rlc_flag : forall lc, Rlc lc (set_AllTokensFailed true lc).

Lemma Rio_refl (io : IO) : Rio io io.
Proof. apply Rio_quiet; reflexivity. Qed.

Lemma Rq_refl (s : QS) : Notions.bothQ Rio Rlc s s.
Proof. split; [apply Rio_refl|apply Rlc_refl]. Qed.

Lemma Rq_trans (a b c : QS) :
  Notions.bothQ Rio Rlc a b -> Notions.bothQ Rio Rlc b c -> Notions.bothQ Rio Rlc a c.
Proof. intros [H1 H2] [H3 H4]. split; [eapply Rio_trans|eapply Rlc_trans]; eassumption. Qed.

Lemma frame_liftIO {A : Type} (m : State IO A) :
  preserves Rio m -> preserves (Notions.bothQ Rio Rlc) (Crawler.liftIO m).
Proof.
  intros H s. rewrite liftIO_run. split; [apply H|apply Rlc_refl].
Qed.

Lemma frame_modifyLC (f : LinkedInCrawler -> LinkedInCrawler) :
  (forall lc, Rlc lc (f lc)) -> preserves (Notions.bothQ Rio Rlc) (modifyLC f).
Proof. intros H s. split; [apply Rio_refl|apply H]. Qed.

Lemma frame_quiet {A : Type} (m : State IO A) :
  (forall io, db (snd (m io)) = db io /\ hit_txt (snd (m io)) = hit_txt io /\
              emails_txt (snd (m io)) = emails_txt io) ->
  preserves Rio m.
Proof. intros H io. destruct (H io) as (H1 & H2 & H3). apply Rio_quiet; assumption. Qed.

Lemma frame_waitCtx : preserves Rio (waitCtx env).
Proof. apply frame_quiet. intros io. repeat split. Qed.

Lemma frame_Intn (n : nat) : preserves Rio (Intn env n).
Proof. apply frame_quiet. intros io. repeat split. Qed.

Lemma frame_doQueryProfile (email token : string) :
  preserves Rio (doQueryProfile env email token).
Proof. apply frame_quiet. intros io. repeat split. Qed.

Lemma frame_emit (e : Event) : preserves Rio (emit e).
Proof. apply frame_quiet. intros io. repeat split. Qed.

Lemma frame_removeTokenFromFile (token : string) :
  preserves Rio (removeTokenFromFile ts token).
Proof.
  intros io. unfold removeTokenFromFile. rewrite bind_run.
  eapply Rio_trans; [apply frame_emit|].
  set (io1 := snd (emit (EvRemoveTokenFromFile token) io)).
  pose proof (Rio_remove io1 token) as H.
  destruct (Storage.RemoveTokenFromFile ts token (db io1)) as [err d]. exact H.
Qed.

Ltac frame_step :=
  first
    [ apply preserves_ret; apply Rq_refl
    | apply preserves_gets; apply Rq_refl
    | apply frame_modifyLC; intros ?; first [apply Rlc_mark | apply Rlc_flag]
    | apply frame_liftIO
    | apply frame_waitCtx | apply frame_Intn | apply frame_doQueryProfile
    | apply frame_emit | apply frame_removeTokenFromFile
    | apply preserves_bind; [apply Rq_trans| |intros ?]
    | match goal with
      | |- preserves _ (if ?b then _ else _) => destruct b
      | |- preserves _ (match ?x with _ => _ end) => destruct x
      end ].

Lemma frame_GetToken : preserves (Notions.bothQ Rio Rlc) (GetToken env).
Proof. unfold GetToken. repeat frame_step. Qed.

Lemma frame_CheckIfAllTokensInvalid : preserves (Notions.bothQ Rio Rlc) CheckIfAllTokensInvalid.
Proof. unfold CheckIfAllTokensInvalid. repeat frame_step. Qed.

Lemma frame_queryWithSwitch (qs : QueryService) (email : string) :
  qs_tokenStorage qs = ts -> preserves (Notions.bothQ Rio Rlc) (queryWithSwitch env qs email).
Proof.
  intros Hts. unfold queryWithSwitch, GetValidTokenCount, MarkTokenAsInvalid, Sleep.
  rewrite Hts.
  repeat first [apply frame_GetToken | apply frame_CheckIfAllTokensInvalid | frame_step].
Qed.

Hypothesis Rlc_active : forall lc n, Rlc lc (set_ActiveRequests n lc).

Lemma frame_QueryProfileWithRetryLogic (qs : QueryService) (email : string) :
  qs_tokenStorage qs = ts -> preserves (Notions.bothQ Rio Rlc) (QueryProfileWithRetryLogic env qs email).
Proof.
  intros Hts. unfold QueryProfileWithRetryLogic, AreAllTokensFailed, addActiveRequests.
  repeat first [apply (frame_queryWithSwitch qs email Hts)
               | apply frame_modifyLC; intros lc; apply Rlc_active
               | frame_step].
Qed.

(** The same for the validator, which runs on the observable state. *)

Ltac io_step :=
  first
    [ apply preserves_ret; apply Rio_refl
    | apply preserves_gets; apply Rio_refl
    | apply frame_doQueryProfile | apply frame_emit | apply frame_removeTokenFromFile
    | apply preserves_bind; [apply Rio_trans| |intros ?]
    | match goal with
      | |- preserves _ (if ?b then _ else _) => destruct b
      | |- preserves _ (match ?x with _ => _ end) => destruct x
      end ].

Lemma frame_foldM {A B : Type} (body : A -> B -> State IO A) (acc : A) (xs : list B) :
  (forall a x, preserves Rio (body a x)) -> preserves Rio (foldM body acc xs).
Proof.
  intros H. revert acc. induction xs as [|x xs IH]; intros acc; simpl.
  - apply preserves_ret. apply Rio_refl.
  - apply preserves_bind; [apply Rio_trans|apply H|intros a; apply IH].
Qed.

Lemma frame_ValidateExistingTokens (vs : ValidatorService) (tokens totalEmails : list string) :
  vs_tokenStorage vs = ts ->
  preserves Rio (ValidateExistingTokens env vs tokens totalEmails).
Proof.
  intros Hts. unfold ValidateExistingTokens.
  destruct (length tokens =? 0)%nat; [apply preserves_ret; apply Rio_refl|].
  cbv zeta. apply preserves_bind; [apply Rio_trans| |intros ?; io_step].
  apply frame_foldM. intros a x.
  unfold validateExistingOne, DoQueryProfile, Sleep. rewrite Hts. repeat io_step.
Qed.

Lemma frame_ValidateTokensBatch (vs : ValidatorService) (tokens totalEmails : list string) :
  preserves Rio (ValidateTokensBatch env vs tokens totalEmails).
Proof.
  unfold ValidateTokensBatch.
  destruct (length tokens =? 0)%nat; [apply preserves_ret; apply Rio_refl|].
  cbv zeta. apply preserves_bind; [apply Rio_trans| |intros ?; io_step].
  apply frame_foldM. intros a x.
  unfold validateBatchOne, DoQueryProfile, Sleep. repeat io_step.
Qed.

End QueryFrame.

Section QueryMore.
Import Models Crawler.
Variable env : Env.

Lemma storeKept_trans (a b c : IO) :
  Notions.storeKept a b -> Notions.storeKept b c -> Notions.storeKept a c.
Proof.
  unfold Notions.storeKept. intros (A1 & A2 & A3 & A4) (B1 & B2 & B3 & B4).
  repeat split; try congruence. intros t Ht. apply A4, B4, Ht.
Qed.

Lemma storeKept_quiet (io io' : IO) :
  db io' = db io -> hit_txt io' = hit_txt io -> emails_txt io' = emails_txt io ->
  Notions.storeKept io io'.
Proof.
  unfold Notions.storeKept. intros Hd Hh He. rewrite Hd. repeat split; auto.
Qed.

Lemma storeKept_remove (ts : Storage.Service) (io : IO) (token : string) :
  Notions.storeKept io (set_db (snd (Storage.RemoveTokenFromFile ts token (db io))) io).
Proof.
  unfold Notions.storeKept, Storage.RemoveTokenFromFile.
  destruct (Storage.dbStorageSet ts); cbn [snd set_db db hit_txt emails_txt];
    repeat split; auto.
  intros t Ht. rewrite GetValidTokens_InvalidateToken in Ht.
  apply filter_In in Ht. apply Ht.
Qed.

Lemma poolKept_refl (lc : LinkedInCrawler) : Notions.poolKept lc lc.
Proof. unfold Notions.poolKept. auto. Qed.

Lemma poolKept_trans (a b c : LinkedInCrawler) :
  Notions.poolKept a b -> Notions.poolKept b c -> Notions.poolKept a c.
Proof.
  unfold Notions.poolKept. intros (A1 & A2 & A3 & A4) (B1 & B2 & B3 & B4).
  repeat split; try congruence. intros t Ht. apply B4, A4, Ht.
Qed.

Lemma poolKept_mark (lc : LinkedInCrawler) (token : string) :
  Notions.poolKept lc (set_InvalidTokens (<[token := true]> (InvalidTokens lc)) lc).
Proof.
  unfold Notions.poolKept. repeat split. intros t Ht. rewrite isInvalid_mark.
  destruct (String.eqb t token); [reflexivity|exact Ht].
Qed.

(** A query keeps the emails table, the files and the pool, and takes no
    token back into the valid ones. *)
Lemma query_keeps (qs : QueryService) (email : string) (s : QS) :
  Notions.bothQ Notions.storeKept Notions.poolKept s
    (snd (QueryProfileWithRetryLogic env qs email s)).
Proof.
  apply (frame_QueryProfileWithRetryLogic env Notions.storeKept Notions.poolKept
           (qs_tokenStorage qs)).
  - apply storeKept_trans.
  - apply storeKept_quiet.
  - apply storeKept_remove.
  - apply poolKept_refl.
  - apply poolKept_trans.
  - apply poolKept_mark.
  - intros lc. unfold Notions.poolKept. auto.
  - intros lc n. unfold Notions.poolKept. auto.
  - reflexivity.
Qed.

(** With a token storage that was not given the database, a query leaves
    the store as it is. *)
Lemma query_db_unwired (qs : QueryService) (email : string) (s : QS) :
  Storage.dbStorageSet (qs_tokenStorage qs) = false ->
  db (q_io (snd (QueryProfileWithRetryLogic env qs email s))) = db (q_io s).
Proof.
  intros Hu.
  apply (frame_QueryProfileWithRetryLogic env (fun io io' => db io' = db io)
           (fun _ _ => True) (qs_tokenStorage qs)); auto.
  - intros a b c H1 H2. congruence.
  - intros io token. unfold Storage.RemoveTokenFromFile. rewrite Hu. reflexivity.
Qed.

Lemma queryWithSwitch_active (qs : QueryService) (email : string) (s : QS) :
  ActiveRequests (q_lc (snd (queryWithSwitch env qs email s))) = ActiveRequests (q_lc s).
Proof.
  apply (frame_queryWithSwitch env (fun _ _ => True)
           (fun lc lc' => ActiveRequests lc' = ActiveRequests lc) (qs_tokenStorage qs)); auto.
  intros a b c H1 H2. congruence.
Qed.

Lemma validate_db_unwired (vs : ValidatorService) (tokens totalEmails : list string) (io : IO) :
  Storage.dbStorageSet (vs_tokenStorage vs) = false ->
  db (snd (ValidateExistingTokens env vs tokens totalEmails io)) = db io.
Proof.
  intros Hu.
  apply (frame_ValidateExistingTokens env (fun io io' => db io' = db io)
           (vs_tokenStorage vs)); auto.
  - intros a b c H1 H2. congruence.
  - intros io1 token. unfold Storage.RemoveTokenFromFile. rewrite Hu. reflexivity.
Qed.

(** The deferred decrement undoes the increment of the counter. *)
Lemma AddInt32_restores (x : Z) :
  (- 2 ^ 31 <= x < 2 ^ 31)%Z -> AddInt32 (AddInt32 x 1) (-1) = x.
Proof.
  intros Hx. unfold AddInt32, wrap32.
  replace ((x + 1 + 2 ^ 31) mod 2 ^ 32 - 2 ^ 31 + -1 + 2 ^ 31)%Z
    with ((x + 1 + 2 ^ 31) mod 2 ^ 32 - 1)%Z by lia.
  rewrite Zminus_mod_idemp_l.
  replace (x + 1 + 2 ^ 31 - 1)%Z with (x + 2 ^ 31)%Z by lia.
  rewrite Z.mod_small by lia. lia.
Qed.

End QueryMore.

(** *** Counting the requests *)

Section Counting.
Context {S : Type} (count : S -> nat).

Lemma atMost_ret {A : Type} (k : nat) (a : A) : Notions.atMost count k (ret a).
Proof. intros s. simpl. lia. Qed.

Lemma atMost_gets {A : Type} (k : nat) (f : S -> A) : Notions.atMost count k (gets f).
Proof. intros s. simpl. lia. Qed.

Lemma atMost_bind {A B : Type} (a b k : nat) (m : State S A) (f : A -> State S B) :
  Notions.atMost count a m -> (forall x, Notions.atMost count b (f x)) ->
  (a + b <= k)%nat -> Notions.atMost count k (bind m f).
Proof.
  intros Hm Hf Hk s. rewrite bind_run.
  specialize (Hm s). specialize (Hf (fst (m s)) (snd (m s))). lia.
Qed.

Lemma atMost_for_range {A : Type} (k n : nat) (i : Z) (body : Z -> State S (Ctl A)) :
  (forall j, Notions.atMost count k (body j)) ->
  Notions.atMost count (n * k) (for_range n i body).
Proof.
  intros Hb. revert i. induction n as [|n IH]; intros i.
  - apply atMost_ret.
  - cbn [for_range]. apply (atMost_bind k (n * k)); [apply Hb| |simpl; lia].
    intros [| |a]; [apply IH|apply atMost_ret|apply atMost_ret].
Qed.

End Counting.

Section QueryCounting.
Import Models Crawler.
Variable env : Env.

Lemma atMost_liftIO {A : Type} (k : nat) (m : State IO A) :
  Notions.atMost n_http k m ->
  Notions.atMost (fun s => n_http (q_io s)) k (Crawler.liftIO m).
Proof. intros H s. rewrite liftIO_run. exact (H (q_io s)). Qed.

Lemma atMost_modifyLC (k : nat) (f : LinkedInCrawler -> LinkedInCrawler) :
  Notions.atMost (fun s => n_http (q_io s)) k (modifyLC f).
Proof. intros s. simpl. lia. Qed.

Lemma atMost_doQueryProfile (k : nat) (email token : string) :
  (1 <= k)%nat -> Notions.atMost n_http k (doQueryProfile env email token).
Proof. intros Hk io. simpl. lia. Qed.

Lemma atMost_waitCtx (k : nat) : Notions.atMost n_http k (waitCtx env).
Proof. intros io. simpl. lia. Qed.

Lemma atMost_Intn (k n : nat) : Notions.atMost n_http k (Intn env n).
Proof. intros io. simpl. lia. Qed.

Lemma atMost_emit (k : nat) (e : Event) : Notions.atMost n_http k (emit e).
Proof. intros io. simpl. lia. Qed.

Lemma atMost_removeTokenFromFile (k : nat) (ts : Storage.Service) (token : string) :
  Notions.atMost n_http k (removeTokenFromFile ts token).
Proof.
  intros io. unfold removeTokenFromFile, emit, modify, bind.
  destruct (Storage.RemoveTokenFromFile _ _ _). simpl. lia.
Qed.

(** A step that sends no request. *)
Ltac silent :=
  first
    [ apply atMost_ret | apply atMost_gets | apply atMost_modifyLC
    | apply atMost_liftIO;
      first [apply atMost_waitCtx | apply atMost_Intn | apply atMost_emit
            | apply atMost_removeTokenFromFile] ].

Lemma atMost_GetToken (k : nat) : Notions.atMost (fun s => n_http (q_io s)) k (GetToken env).
Proof.
  unfold GetToken. apply (atMost_bind _ 0 k); [silent| |lia]. intros lc.
  destruct (_ =? _)%nat; [destruct (Tokens lc); silent|].
  apply (atMost_bind _ 0 k); [silent|intros ?; silent|lia].
Qed.

Lemma atMost_CheckIfAllTokensInvalid (k : nat) :
  Notions.atMost (fun s => n_http (q_io s)) k CheckIfAllTokensInvalid.
Proof.
  unfold CheckIfAllTokensInvalid. apply (atMost_bind _ 0 k); [silent| |lia]. intros lc.
  destruct (_ <=? _)%Z; [|silent].
  apply (atMost_bind _ 0 k); [silent|intros ?; silent|lia].
Qed.

(** One request, to which the budget of the rest is one. *)
Ltac one_request :=
  apply atMost_liftIO; apply atMost_doQueryProfile; lia.

Lemma atMost_queryWithSwitch (qs : QueryService) (email : string) :
  Notions.atMost (fun s => n_http (q_io s)) 2 (queryWithSwitch env qs email).
Proof.
  unfold queryWithSwitch, GetValidTokenCount, MarkTokenAsInvalid, Sleep.
  apply (atMost_bind _ 0 2); [apply atMost_GetToken| |lia]. intros token.
  apply (atMost_bind _ 1 1); [one_request| |lia]. intros [[[hasProfile body] statusCode] err].
  destruct (statusCode =? 429)%Z.
  - apply (atMost_bind _ 0 1); [silent| |lia]. intros activeTokenCount.
    destruct (1 <? activeTokenCount)%Z.
    + apply (atMost_bind _ 0 1); [silent| |lia]. intros _.
      apply (atMost_bind _ 0 1); [apply atMost_GetToken| |lia]. intros newToken.
      destruct (_ && _); [one_request|silent].
    + apply (atMost_bind _ 0 1); [silent|intros _; one_request|lia].
  - destruct (_ || _); [|silent].
    apply (atMost_bind _ 0 1); [silent| |lia]. intros _.
    apply (atMost_bind _ 0 1); [silent| |lia]. intros _.
    apply (atMost_bind _ 0 1); [apply atMost_CheckIfAllTokensInvalid| |lia]. intros all.
    destruct all; [silent|].
    apply (atMost_bind _ 0 1); [apply atMost_GetToken| |lia]. intros newToken.
    destruct (negb _); [one_request|silent].
Qed.

Lemma atMost_QueryProfileWithRetryLogic (qs : QueryService) (email : string) :
  Notions.atMost (fun s => n_http (q_io s)) 2 (QueryProfileWithRetryLogic env qs email).
Proof.
  unfold QueryProfileWithRetryLogic, AreAllTokensFailed, addActiveRequests.
  apply (atMost_bind _ 0 2); [silent| |lia]. intros failed.
  destruct failed; [silent|].
  apply (atMost_bind _ 0 2); [silent| |lia]. intros got.
  destruct (negb got); [silent|].
  apply (atMost_bind _ 0 2); [silent| |lia]. intros got2.
  destruct (negb got2); [silent|].
  apply (atMost_bind _ 0 2); [silent| |lia]. intros _.
  apply (atMost_bind _ 2 0); [apply atMost_queryWithSwitch| |lia]. intros r.
  apply (atMost_bind _ 0 0); [silent|intros _; silent|lia].
Qed.

(** A query that is not admitted. *)
Lemma QueryProfileWithRetryLogic_flagged (qs : QueryService) (email : string) (s : QS) :
  AllTokensFailed (q_lc s) = true ->
  QueryProfileWithRetryLogic env qs email s =
    ((false, EmptyString, 0%Z, Some Storage.ErrAllTokensFailed), s).
Proof.
  intros H. unfold QueryProfileWithRetryLogic. rewrite bind_run.
  unfold AreAllTokensFailed, gets. cbn [fst snd]. rewrite H. reflexivity.
Qed.

Lemma QueryProfileWithRetryLogic_cancelled (qs : QueryService) (email : string)
    (lc : LinkedInCrawler) (io : IO) :
  AllTokensFailed lc = false ->
  wait_ok env (n_wait io) = false \/ wait_ok env (Datatypes.S (n_wait io)) = false ->
  let r := QueryProfileWithRetryLogic env qs email {| q_lc := lc; q_io := io |} in
  fst r = (false, EmptyString, 0%Z, Some Storage.ErrContext) /\
  q_lc (snd r) = lc /\ n_http (q_io (snd r)) = n_http io /\
  trace (q_io (snd r)) = trace io /\ db (q_io (snd r)) = db io.
Proof.
  intros Ha Hw. cbv zeta.
  assert (E : QueryProfileWithRetryLogic env qs email {| q_lc := lc; q_io := io |} =
              ((false, EmptyString, 0%Z, Some Storage.ErrContext),
               {| q_lc := lc;
                  q_io := {| n_http := n_http io;
                             n_wait := (if wait_ok env (n_wait io)
                                        then Datatypes.S (Datatypes.S (n_wait io))
                                        else Datatypes.S (n_wait io));
                             n_rand := n_rand io; trace := trace io; db := db io;
                             hit_txt := hit_txt io; emails_txt := emails_txt io |} |})).
  { unfold QueryProfileWithRetryLogic.
    rewrite bind_run. unfold AreAllTokensFailed, gets. cbn [fst snd q_lc]. rewrite Ha.
    rewrite bind_run, liftIO_run. unfold waitCtx at 1 2. cbn [fst snd q_io q_lc].
    destruct (wait_ok env (n_wait io)) eqn:W1; cbn [negb]; [|reflexivity].
    destruct Hw as [Hw|Hw]; [discriminate Hw|].
    rewrite bind_run, liftIO_run. unfold waitCtx. cbn [fst snd q_io q_lc n_wait].
    rewrite Hw. reflexivity. }
  rewrite E. repeat split.
Qed.

End QueryCounting.

(** *** What a query does to the crawler and the store *)

Section QueryProperties.
Import Models Crawler.

Lemma QueryProfileWithRetryLogic_active (env : Env) (qs : QueryService) (email : string)
    (s : QS) :
  (- 2 ^ 31 <= ActiveRequests (q_lc s) < 2 ^ 31)%Z ->
  ActiveRequests (q_lc (snd (QueryProfileWithRetryLogic env qs email s))) =
  ActiveRequests (q_lc s).
Proof.
  intros Hr. destruct s as [lc io]. cbn [q_lc] in *.
  destruct (AllTokensFailed lc) eqn:Ha.
  { rewrite QueryProfileWithRetryLogic_flagged by exact Ha. reflexivity. }
  destruct (wait_ok env (n_wait io)) eqn:W1.
  2:{ destruct (QueryProfileWithRetryLogic_cancelled env qs email lc io Ha (or_introl W1))
        as (_ & H & _). rewrite H. reflexivity. }
  destruct (wait_ok env (Datatypes.S (n_wait io))) eqn:W2.
  2:{ destruct (QueryProfileWithRetryLogic_cancelled env qs email lc io Ha (or_intror W2))
        as (_ & H & _). rewrite H. reflexivity. }
  rewrite (QueryProfileWithRetryLogic_admitted env qs email lc io Ha W1 W2).
  cbn [snd q_lc ActiveRequests set_ActiveRequests].
  rewrite queryWithSwitch_active. cbn [q_lc ActiveRequests set_ActiveRequests].
  apply AddInt32_restores. exact Hr.
Qed.

(** X15: the footprint of a query.  Whatever the endpoint answers,
    [QueryProfileWithRetryLogic] sends at most two requests, keeps the
    emails table and the two files, lists no token as valid in the store
    that was not listed before, keeps the tokens of the pool and every mark
    of an invalid token, and leaves the active-request counter at the value
    it had. *)
Theorem QueryProfileWithRetryLogic_footprint (env : Env) (qs : QueryService)
    (email : string) (s : QS) :
  let s' := snd (QueryProfileWithRetryLogic env qs email s) in
  (n_http (q_io s) <= n_http (q_io s') <= n_http (q_io s) + 2)%nat /\
  Notions.storeKept (q_io s) (q_io s') /\
  Notions.poolKept (q_lc s) (q_lc s') /\
  ((- 2 ^ 31 <= ActiveRequests (q_lc s) < 2 ^ 31)%Z ->
   ActiveRequests (q_lc s') = ActiveRequests (q_lc s)).
Proof.
  cbv zeta. split; [apply (atMost_QueryProfileWithRetryLogic env qs email s)|].
  pose proof (query_keeps env qs email s) as [Hs Hp].
  split; [exact Hs|]. split; [exact Hp|].
  apply QueryProfileWithRetryLogic_active.
Qed.

(** X16: a query that is not admitted sends nothing.  With the flag
    [AllTokensFailed] set the query returns the error of the exhausted pool
    and changes nothing at all; when the wait on the rate limiter or on the
    semaphore is ended by the context it returns the error of the context,
    with no request sent, no event recorded and the crawler and the store
    as they were. *)
Theorem QueryProfileWithRetryLogic_refused (env : Env) (qs : QueryService)
    (email : string) (lc : LinkedInCrawler) (io : IO) :
  let r := QueryProfileWithRetryLogic env qs email {| q_lc := lc; q_io := io |} in
  (AllTokensFailed lc = true ->
   r = ((false, EmptyString, 0%Z, Some Storage.ErrAllTokensFailed),
        {| q_lc := lc; q_io := io |})) /\
  (AllTokensFailed lc = false ->
   wait_ok env (n_wait io) = false \/ wait_ok env (Datatypes.S (n_wait io)) = false ->
   fst r = (false, EmptyString, 0%Z, Some Storage.ErrContext) /\
   q_lc (snd r) = lc /\ n_http (q_io (snd r)) = n_http io /\
   trace (q_io (snd r)) = trace io /\ db (q_io (snd r)) = db io).
Proof.
  cbv zeta. split.
  - intros Ha. apply QueryProfileWithRetryLogic_flagged. exact Ha.
  - intros Ha Hw. apply (QueryProfileWithRetryLogic_cancelled env qs email lc io Ha Hw).
Qed.

Lemma QueryProfileWithRetryLogic_refused_witness :
  QueryProfileWithRetryLogic (Samples.envAlways TransportError) NewQueryService "a@x.com"
    {| q_lc := set_AllTokensFailed true Samples.poolDead; q_io := Samples.io0 |} =
  ((false, EmptyString, 0%Z, Some Storage.ErrAllTokensFailed),
   {| q_lc := set_AllTokensFailed true Samples.poolDead; q_io := Samples.io0 |}).
Proof.
  apply (proj1 (QueryProfileWithRetryLogic_refused (Samples.envAlways TransportError)
                  NewQueryService "a@x.com" (set_AllTokensFailed true Samples.poolDead)
                  Samples.io0)).
  reflexivity.
Defined.

End QueryProperties.

Section RejectedCredential.
Import Models Crawler.
Variable env : Env.

Lemma resultOf_rejected (st : Z) (b : option string) :
  st = 401%Z \/ st = 424%Z ->
  resultOf (HttpResponse st b) = (false, EmptyString, st, Some (Storage.ErrHTTP st)).
Proof. intros [-> | ->]; reflexivity. Qed.

(** The steps of [queryWithSwitch] up to the test of the pool, when the
    first answer is 401 or 424. *)
Lemma queryWithSwitch_rejected_run (qs : QueryService) (email : string)
    (lc : LinkedInCrawler) (io : IO) (st : Z) (b : option string) :
  let token := fst (GetToken env {| q_lc := lc; q_io := io |}) in
  http_Do env (n_http io) email token = HttpResponse st b ->
  st = 401%Z \/ st = 424%Z ->
  exists io3,
    n_http io3 = Datatypes.S (n_http io) /\
    trace io3 = trace io ++ [EvHTTP email token; EvRemoveTokenFromFile token] /\
    db io3 = snd (Storage.RemoveTokenFromFile (qs_tokenStorage qs) token (db io)) /\
    hit_txt io3 = hit_txt io /\ emails_txt io3 = emails_txt io /\
    queryWithSwitch env qs email {| q_lc := lc; q_io := io |} =
      (let s3 := {| q_lc := set_InvalidTokens (<[token := true]> (InvalidTokens lc)) lc;
                    q_io := io3 |} in
       match validTokens (q_lc s3) with
       | [] => ((false, EmptyString, st, Some Storage.ErrAllTokensFailed),
                {| q_lc := set_AllTokensFailed true (q_lc s3); q_io := io3 |})
       | _ :: _ =>
           let newToken := fst (GetToken env s3) in
           if negb (String.eqb newToken "")
           then Crawler.liftIO (doQueryProfile env email newToken) (snd (GetToken env s3))
           else ((false, EmptyString, st, Some (Storage.ErrHTTP st)), snd (GetToken env s3))
       end).
Proof.
  intros token Hout Hst.
  destruct (GetToken_split env {| q_lc := lc; q_io := io |})
    as (io1 & Hg & H1 & H2 & H3 & H4 & H5 & H6).
  fold token in Hg. cbn [q_lc q_io] in *.
  set (io2 := snd (doQueryProfile env email token io1)).
  set (io2' := snd (emit (EvRemoveTokenFromFile token) io2)).
  exists (set_db (snd (Storage.RemoveTokenFromFile (qs_tokenStorage qs) token (db io2'))) io2').
  assert (Hdb : db io2' = db io) by (unfold io2', io2; simpl; exact H4).
  split; [unfold io2', io2; simpl; congruence|].
  split.
  { unfold io2', io2; simpl. rewrite H3, <- app_assoc. reflexivity. }
  split; [cbn [db set_db]; rewrite Hdb; reflexivity|].
  split; [unfold io2', io2; simpl; exact H5|].
  split; [unfold io2', io2; simpl; exact H6|].
  unfold queryWithSwitch. rewrite bind_run, Hg. cbn [fst snd].
  rewrite bind_run, liftIO_run, doQueryProfile_run. cbn [fst snd q_lc q_io].
  rewrite H1, Hout, (resultOf_rejected st b Hst).
  assert (E429 : (st =? 429)%Z = false) by (destruct Hst as [-> | ->]; reflexivity).
  assert (E401 : ((st =? 401)%Z || (st =? 424)%Z) = true)
    by (destruct Hst as [-> | ->]; reflexivity).
  rewrite E429, E401.
  rewrite bind_run, MarkTokenAsInvalid_run. cbn [fst snd q_lc q_io].
  rewrite bind_run, liftIO_run. cbn [fst snd q_lc q_io].
  unfold removeTokenFromFile. rewrite !bind_run.
  assert (E2 : snd (emit (EvRemoveTokenFromFile token)
                      {| n_http := Datatypes.S (n_http io); n_wait := n_wait io1;
                         n_rand := n_rand io1; trace := trace io1 ++ [EvHTTP email token];
                         db := db io1; hit_txt := hit_txt io1;
                         emails_txt := emails_txt io1 |}) = io2').
  { unfold io2', io2. rewrite doQueryProfile_run. cbn [snd]. rewrite H1. reflexivity. }
  rewrite !E2.
  destruct (Storage.RemoveTokenFromFile (qs_tokenStorage qs) token (db io2')) as [err d] eqn:Er.
  cbn [fst snd]. rewrite ?bind_run, !CheckIfAllTokensInvalid_run. cbn [q_lc q_io].
  cbv zeta.
  destruct (validTokens (set_InvalidTokens (<[token:=true]> (InvalidTokens lc)) lc));
    cbn [fst snd]; [reflexivity|].
  rewrite ?bind_run. destruct (negb _); reflexivity.
Qed.

(** X17: a credential the endpoint rejects.  When the first answer of a
    query is 401 or 424, the credential is marked invalid in the pool and
    [RemoveTokenFromFile] is called once, for that credential.  When no
    other credential of the pool is valid the query ends there, with the
    error of the exhausted pool and the flag [AllTokensFailed] set;
    otherwise the query is sent once more, with another valid credential,
    and its answer is the result. *)
Theorem queryWithSwitch_401_424 (qs : QueryService) (email : string)
    (lc : LinkedInCrawler) (io : IO) (st : Z) (b : option string) :
  let s := {| q_lc := lc; q_io := io |} in
  let token := fst (GetToken env s) in
  let r := queryWithSwitch env qs email s in
  http_Do env (n_http io) email token = HttpResponse st b ->
  st = 401%Z \/ st = 424%Z ->
  ~ In EmptyString (Tokens lc) ->
  isInvalid (q_lc (snd r)) token = true /\
  db (q_io (snd r)) =
    snd (Storage.RemoveTokenFromFile (qs_tokenStorage qs) token (db io)) /\
  ((forall t, In t (validTokens lc) -> t = token) ->
   fst r = (false, EmptyString, st, Some Storage.ErrAllTokensFailed) /\
   AllTokensFailed (q_lc (snd r)) = true /\
   trace (q_io (snd r)) =
     trace io ++ [EvHTTP email token; EvRemoveTokenFromFile token]) /\
  ((exists t, In t (validTokens lc) /\ t <> token) ->
   exists newToken,
     newToken <> token /\ In newToken (validTokens lc) /\
     fst r = resultOf (http_Do env (Datatypes.S (n_http io)) email newToken) /\
     AllTokensFailed (q_lc (snd r)) = AllTokensFailed lc /\
     trace (q_io (snd r)) =
       trace io ++ [EvHTTP email token; EvRemoveTokenFromFile token;
                    EvHTTP email newToken]).
Proof.
  intros s token r Hout Hst Hne.
  destruct (queryWithSwitch_rejected_run qs email lc io st b Hout Hst)
    as (io3 & N3 & T3 & D3 & _ & _ & E).
  fold s token in E. fold token in T3, D3. cbv zeta in E. cbn [q_lc] in E.
  set (lc' := set_InvalidTokens (<[token := true]> (InvalidTokens lc)) lc) in *.
  assert (Hmark : isInvalid lc' token = true).
  { unfold lc'. rewrite isInvalid_mark, String.eqb_refl. reflexivity. }
  assert (Hvt : validTokens lc' =
                List.filter (fun t => negb (String.eqb t token)) (validTokens lc))
    by apply validTokens_mark.
  destruct (validTokens lc') as [|v vs] eqn:Hv.
  - unfold r. rewrite E. cbn [fst snd q_lc q_io].
    split; [exact Hmark|]. split; [exact D3|]. split.
    + intros _. repeat split. exact T3.
    + intros (t & Ht & Hneq). exfalso.
      assert (Hin : In t (List.filter (fun t => negb (String.eqb t token)) (validTokens lc))).
      { apply filter_In. split; [exact Ht|].
        destruct (String.eqb_spec t token); [contradiction|reflexivity]. }
      rewrite <- Hvt in Hin. exact Hin.
  - assert (Hv' : validTokens (q_lc {| q_lc := lc'; q_io := io3 |}) <> [])
      by (cbn [q_lc]; rewrite Hv; discriminate).
    pose proof (GetToken_in_valid env _ Hv') as Hin. cbn [q_lc] in Hin.
    destruct (GetToken_split env {| q_lc := lc'; q_io := io3 |})
      as (io4 & Hg & G1 & _ & G3 & G4 & _ & _).
    cbn [q_lc q_io] in Hg, G1, G3, G4.
    set (newToken := fst (GetToken env {| q_lc := lc'; q_io := io3 |})) in *.
    rewrite Hv, Hvt in Hin. apply filter_In in Hin. destruct Hin as [Hin Hneq].
    assert (Hnt : newToken <> token)
      by (destruct (String.eqb_spec newToken token); [discriminate|assumption]).
    assert (Hnn : String.eqb newToken "" = false).
    { destruct (String.eqb_spec newToken "") as [E0|]; [|reflexivity].
      exfalso. apply Hne. rewrite <- E0. apply validTokens_spec in Hin. apply Hin. }
    rewrite Hnn in E. cbn [negb] in E. rewrite Hg in E. cbn [snd] in E.
    rewrite liftIO_run, doQueryProfile_run in E. cbn [fst snd q_lc q_io] in E.
    unfold r. rewrite E. cbn [fst snd q_lc q_io trace db].
    split; [exact Hmark|]. split; [rewrite G4; exact D3|]. split.
    + intros Hall. exfalso. apply Hnt, Hall, Hin.
    + intros _. exists newToken. split; [exact Hnt|]. split; [exact Hin|].
      split; [rewrite G1, N3; reflexivity|]. split; [reflexivity|].
      rewrite G3, T3, <- app_assoc. reflexivity.
Qed.

End RejectedCredential.

Lemma queryWithSwitch_401_424_witness :
  fst (Crawler.queryWithSwitch (Samples.envAlways (HttpResponse 401 None)) Crawler.NewQueryService "a@x.com"
         {| Crawler.q_lc := Samples.poolHalf; Crawler.q_io := Samples.io0 |}) =
  (false, EmptyString, 401%Z, Some Storage.ErrAllTokensFailed).
Proof.
  refine (proj1 (proj1 (proj2 (proj2
    (queryWithSwitch_401_424 (Samples.envAlways (HttpResponse 401 None)) Crawler.NewQueryService
       "a@x.com" Samples.poolHalf Samples.io0 401%Z None _ _ _))) _)).
  - reflexivity.
  - left. reflexivity.
  - vm_compute. intros [H|[H|[]]]; discriminate H.
  - vm_compute. intros t [<-|[]]. reflexivity.
Defined.

(** *** One request *)

Section RequestFacts.
Import Models Crawler.

Lemma limitRead_length (n : Z) (s : string) :
  (0 <= n)%Z -> (Z.of_nat (String.length (limitRead n s)) <= n)%Z.
Proof.
  revert n. induction s as [|c s IH]; intros n Hn; cbn [limitRead String.length].
  - lia.
  - destruct (Z.leb_spec n 0); cbn [String.length]; [lia|].
    specialize (IH (n - 1)%Z). lia.
Qed.

Lemma limitRead_short (n : Z) (s : string) :
  (Z.of_nat (String.length s) <= n)%Z -> limitRead n s = s.
Proof.
  revert n. induction s as [|c s IH]; intros n Hn; cbn [limitRead String.length] in *.
  - reflexivity.
  - destruct (Z.leb_spec n 0); [lia|]. rewrite IH by lia. reflexivity.
Qed.

Lemma limitRead_prefix (n : Z) (s : string) :
  String.prefix (limitRead n s) s = true.
Proof.
  revert n. induction s as [|c s IH]; intros n; cbn [limitRead].
  - reflexivity.
  - destruct (n <=? 0)%Z; [reflexivity|]. cbn [String.prefix].
    destruct (ascii_dec c c); [apply IH|congruence].
Qed.

End RequestFacts.

Section RequestProperties.
Import Models Crawler.

(** X18: what one request returns.  [doQueryProfile] returns no error
    exactly when the endpoint answered 200 and the body could be read; the
    body it returns then is the answer cut after 2^20 bytes (the whole
    answer when it is not longer), and [hasProfile] tells whether that
    body holds the text [displayName].  With an error the body is empty
    and [hasProfile] is false, and the status is the one of the answer, 0
    when there was none.  One request is counted and recorded, and the
    store and the files are not touched. *)
Theorem doQueryProfile_outcome (env : Env) (email token : string) (io : IO) :
  let o := http_Do env (n_http io) email token in
  let r := fst (doQueryProfile env email token io) in
  let io' := snd (doQueryProfile env email token io) in
  (isNil (snd r) = Notions.answered o) /\
  (forall b, o = HttpResponse 200 (Some b) ->
     bodyOf r = limitRead (2 ^ 20) b /\
     String.prefix (bodyOf r) b = true /\
     ((Z.of_nat (String.length b) <= 2 ^ 20)%Z -> bodyOf r = b) /\
     hasProfileOf r = GoStrings.Contains (bodyOf r) "displayName") /\
  (Z.of_nat (String.length (bodyOf r)) <= 2 ^ 20)%Z /\
  (isNil (snd r) = false -> bodyOf r = EmptyString /\ hasProfileOf r = false) /\
  statusCodeOf r = match o with TransportError => 0%Z | HttpResponse st _ => st end /\
  n_http io' = Datatypes.S (n_http io) /\
  trace io' = trace io ++ [EvHTTP email token] /\
  db io' = db io /\ hit_txt io' = hit_txt io /\ emails_txt io' = emails_txt io.
Proof.
  cbv zeta. rewrite doQueryProfile_run. cbn [fst snd n_http trace db hit_txt emails_txt].
  split; [|split; [|split; [|split; [|split; [|repeat split]]]]].
  - destruct (http_Do env (n_http io) email token) as [|st [b|]]; cbn [resultOf];
      [reflexivity| |].
    + cbn [Notions.answered]. destruct (st =? 200)%Z; reflexivity.
    + cbn [Notions.answered]. destruct (st =? 200)%Z; reflexivity.
  - intros b ->. cbn [resultOf Z.eqb Pos.eqb negb bodyOf hasProfileOf].
    split; [reflexivity|]. split; [apply limitRead_prefix|].
    split; [apply limitRead_short|reflexivity].
  - destruct (http_Do env (n_http io) email token) as [|st [b|]]; cbn [resultOf];
      [cbn; lia| |].
    + destruct (negb (st =? 200)%Z); cbn [bodyOf]; [cbn; lia|].
      apply limitRead_length. lia.
    + destruct (negb (st =? 200)%Z); cbn; lia.
  - destruct (http_Do env (n_http io) email token) as [|st [b|]]; cbn [resultOf];
      [auto| |].
    + destruct (negb (st =? 200)%Z); cbn [snd isNil bodyOf hasProfileOf];
        [auto|discriminate].
    + destruct (negb (st =? 200)%Z); cbn [snd isNil bodyOf hasProfileOf]; auto.
  - destruct (http_Do env (n_http io) email token) as [|st [b|]]; cbn [resultOf];
      [reflexivity| |]; destruct (negb (st =? 200)%Z); reflexivity.
Qed.

End RequestProperties.

(** *** The validator and the store *)

Section ValidatorStore.
Import Models Crawler.
Variable env : Env.

Lemma hasValid_fold (testEmail : string) (tokens : list string) (acc : Z) (io : IO) :
  let body :=
    fun (validCount : Z) (token : string) =>
      let* '(_, _, statusCode, err) := DoQueryProfile env testEmail token in
      if isNil err
         && ((statusCode =? 200)%Z || (statusCode =? 429)%Z || (statusCode =? 500)%Z)
      then ret (validCount + 1)%Z
      else ret validCount in
  let r := foldM body acc tokens io in
  fst r =
    (acc + Z.of_nat (length (List.filter (fun p => Notions.answered (snd p))
                               (Spec.probes env io testEmail tokens))))%Z /\
  n_http (snd r) = (n_http io + length tokens)%nat /\
  trace (snd r) = trace io ++ map (EvHTTP testEmail) tokens /\
  db (snd r) = db io /\ hit_txt (snd r) = hit_txt io /\ emails_txt (snd r) = emails_txt io.
Proof.
  cbv zeta. revert acc io. induction tokens as [|token tokens IH]; intros acc io.
  - cbn. rewrite Z.add_0_r, Nat.add_0_r, app_nil_r. repeat split.
  - cbn [foldM]. rewrite bind_run.
    set (step := (let* '(_, _, statusCode, err) := DoQueryProfile env testEmail token in
                  if isNil err
                     && ((statusCode =? 200)%Z || (statusCode =? 429)%Z || (statusCode =? 500)%Z)
                  then ret (acc + 1)%Z else ret acc) io).
    assert (Hs : step =
                 ((if Notions.answered (http_Do env (n_http io) testEmail token)
                   then (acc + 1)%Z else acc),
                  snd (doQueryProfile env testEmail token io))).
    { unfold step, DoQueryProfile. rewrite bind_run, doQueryProfile_run. cbn [fst snd].
      destruct (http_Do env (n_http io) testEmail token) as [|st [b|]];
        cbn [resultOf Notions.answered]; [reflexivity| |];
        destruct (st =? 200)%Z eqn:E; cbn; rewrite ?E; reflexivity. }
    rewrite Hs. cbn [fst snd].
    destruct (IH (if Notions.answered (http_Do env (n_http io) testEmail token)
                  then (acc + 1)%Z else acc)
                 (snd (doQueryProfile env testEmail token io)))
      as (I1 & I2 & I3 & I4 & I5 & I6).
    rewrite (probes_cons env io testEmail token tokens
               (snd (doQueryProfile env testEmail token io)) eq_refl).
    rewrite I1, I2, I3, I4, I5, I6. cbn [List.filter snd length map].
    rewrite doQueryProfile_run. cbn [snd n_http trace db hit_txt emails_txt].
    rewrite <- app_assoc. cbn [app].
    destruct (Notions.answered (http_Do env (n_http io) testEmail token));
      cbn [length]; repeat split; lia.
Qed.

Lemma validateExistingOne_db (vs : ValidatorService) (testEmail token : string)
    (acc : list string) (io : IO) :
  let o := http_Do env (n_http io) testEmail token in
  db (snd (validateExistingOne env vs testEmail acc token io)) =
    (if Spec.hardRejected o
     then snd (Storage.RemoveTokenFromFile (vs_tokenStorage vs) token (db io))
     else db io).
Proof.
  unfold validateExistingOne, DoQueryProfile, doQueryProfile, removeTokenFromFile,
    Sleep, emit, modify, bind, ret, Spec.hardRejected.
  destruct (http_Do env (n_http io) testEmail token) as [|status body]; simpl;
    [reflexivity|].
  destruct (Z.eqb_spec status 200) as [->|H200]; simpl.
  { destruct body; reflexivity. }
  destruct (Z.eqb_spec status 429) as [->|H429]; simpl; [reflexivity|].
  destruct (Z.eqb_spec status 500) as [->|H500]; simpl; [reflexivity|].
  destruct (Z.eqb_spec status 401) as [->|H401]; simpl.
  { destruct (Storage.RemoveTokenFromFile _ _ _); reflexivity. }
  destruct (Z.eqb_spec status 424) as [->|H424]; simpl; [|reflexivity].
  destruct (Storage.RemoveTokenFromFile _ _ _); reflexivity.
Qed.

Lemma validateExisting_fold_db (vs : ValidatorService) (testEmail : string)
    (tokens acc : list string) (io : IO) :
  let r := foldM (validateExistingOne env vs testEmail) acc tokens io in
  db (snd r) =
    fold_left (fun d t => snd (Storage.RemoveTokenFromFile (vs_tokenStorage vs) t d))
      (Spec.hardRejectedOf (Spec.probes env io testEmail tokens)) (db io) /\
  n_http (snd r) = (n_http io + length tokens)%nat.
Proof.
  cbv zeta. revert acc io. induction tokens as [|token tokens IH]; intros acc io.
  - cbn. split; [reflexivity|lia].
  - cbn [foldM]. rewrite bind_run.
    destruct (validateExistingOne_run env vs testEmail token acc io) as (_ & Hn & _).
    pose proof (validateExistingOne_db vs testEmail token acc io) as Hd. cbv zeta in Hd.
    destruct (IH (fst (validateExistingOne env vs testEmail acc token io))
                 (snd (validateExistingOne env vs testEmail acc token io))) as (I1 & I2).
    rewrite (probes_cons env io testEmail token tokens _ Hn).
    rewrite I1, I2, Hd, Hn. unfold Spec.hardRejectedOf. cbn [List.filter snd length].
    split; [|lia].
    destruct (Spec.hardRejected (http_Do env (n_http io) testEmail token)); reflexivity.
Qed.

Lemma valid_after_removals (ts : Storage.Service) (l : list string) (d : Database.DB)
    (t : string) :
  Storage.dbStorageSet ts = true ->
  In t (Database.GetValidTokens
          (fold_left (fun d t => snd (Storage.RemoveTokenFromFile ts t d)) l d)) <->
  In t (Database.GetValidTokens d) /\ ~ In t l.
Proof.
  intros Hs. revert d. induction l as [|x l IH]; intros d; cbn [fold_left].
  - cbn. tauto.
  - rewrite IH. unfold Storage.RemoveTokenFromFile at 1. rewrite Hs. cbn [snd].
    rewrite GetValidTokens_InvalidateToken, filter_In. cbn [In].
    destruct (String.eqb_spec t x); cbn [negb]; intuition congruence.
Qed.

End ValidatorStore.

Section ValidatorStoreMore.
Import Models Crawler.
Variable env : Env.

Lemma validateBatch_fold_db (testEmail : string) (tokens acc : list string) (io : IO) :
  let r := foldM (validateBatchOne env testEmail) acc tokens io in
  db (snd r) = db io /\ n_http (snd r) = (n_http io + length tokens)%nat.
Proof.
  cbv zeta. revert acc io. induction tokens as [|token tokens IH]; intros acc io.
  - cbn. split; [reflexivity|lia].
  - cbn [foldM]. rewrite bind_run.
    destruct (validateBatchOne_run env testEmail token acc io) as (_ & Hn & _).
    destruct (IH (fst (validateBatchOne env testEmail acc token io))
                 (snd (validateBatchOne env testEmail acc token io))) as (I1 & I2).
    rewrite I1, I2, Hn. cbn [length]. split; [|lia].
    unfold validateBatchOne, DoQueryProfile, doQueryProfile, Sleep, emit, modify, bind, ret.
    destruct (resultOf _) as [[[h b] st] err]. cbn [fst snd].
    destruct (isNil err || (st =? 429)%Z || (st =? 500)%Z); reflexivity.
Qed.

Lemma HasValidTokens_run (vs : ValidatorService) (totalEmails : list string) (io : IO) :
  let ps := Spec.probes env io (testEmailOf totalEmails)
              (firstn 3 (Database.GetValidTokens (db io))) in
  exists io',
    HasValidTokens env vs totalEmails io =
      (Storage.dbStorageSet (vs_tokenStorage vs)
       && (2 <=? Z.of_nat (length (List.filter (fun p => Notions.answered (snd p)) ps)))%Z,
       io') /\
    (Storage.dbStorageSet (vs_tokenStorage vs) = false -> io' = io) /\
    (n_http io <= n_http io' <= n_http io + 3)%nat /\
    db io' = db io /\ hit_txt io' = hit_txt io /\ emails_txt io' = emails_txt io.
Proof.
  cbv zeta. unfold HasValidTokens. rewrite bind_run. unfold gets. cbn [fst snd].
  unfold Storage.LoadTokensFromFile.
  destruct (Storage.dbStorageSet (vs_tokenStorage vs)) eqn:Hs.
  2:{ exists io. cbn [ret andb]. repeat split; lia. }
  destruct (Database.GetValidTokens (db io)) as [|t ts] eqn:Hv.
  { exists io. cbn. repeat split; lia. }
  cbv beta iota zeta. rewrite bind_run.
  destruct (hasValid_fold env (testEmailOf totalEmails) (firstn 3 (t :: ts)) 0%Z io)
    as (F1 & F2 & _ & F4 & F5 & F6).
  cbv beta iota zeta in F1, F2, F4, F5, F6.
  eexists. split; [rewrite F1; reflexivity|].
  split; [discriminate|]. rewrite F2, F4, F5, F6. repeat split; try lia.
  pose proof (List.firstn_le_length 3 (t :: ts)). lia.
Qed.

End ValidatorStoreMore.

Section ValidatorProperties.
Import Models Crawler.

(** X19: [HasValidTokens] answers true only when the token storage was given
    the database and at least two of the first three valid tokens of the
    store were answered 200 with a readable body: an answer 429 or 500
    does not count here.  It sends at most three requests and writes
    nothing.  On the storage [NewValidatorService] builds, which is never
    given the database, it answers false without sending a request. *)
Theorem HasValidTokens_needs_two_answers (env : Env) (vs : ValidatorService)
    (totalEmails : list string) (io : IO) :
  let r := HasValidTokens env vs totalEmails io in
  let ps := Spec.probes env io (testEmailOf totalEmails)
              (firstn 3 (Database.GetValidTokens (db io))) in
  (fst r = true ->
   Storage.dbStorageSet (vs_tokenStorage vs) = true /\
   (2 <= length (List.filter (fun p => Notions.answered (snd p)) ps))%nat) /\
  (Storage.dbStorageSet (vs_tokenStorage vs) = false -> r = (false, io)) /\
  HasValidTokens env NewValidatorService totalEmails io = (false, io) /\
  (n_http io <= n_http (snd r) <= n_http io + 3)%nat /\
  db (snd r) = db io /\ hit_txt (snd r) = hit_txt io /\ emails_txt (snd r) = emails_txt io.
Proof.
  cbv zeta.
  destruct (HasValidTokens_run env vs totalEmails io)
    as (io' & E & Hu & Hn & Hd & Hh & He).
  destruct (HasValidTokens_run env NewValidatorService totalEmails io)
    as (io2 & E2 & Hu2 & _).
  cbv zeta in E, E2. rewrite E, E2. cbn [fst snd].
  split.
  { intros H. apply andb_true_iff in H. destruct H as [H1 H2].
    split; [exact H1|]. apply Z.leb_le in H2. lia. }
  split; [intros Hs; rewrite Hs, (Hu Hs); reflexivity|].
  split; [rewrite (Hu2 eq_refl); reflexivity|].
  repeat split; try assumption; lia.
Qed.

(** X20: the validators and the store.  Each of them sends one request for
    every token it was given and none for an empty list, which it refuses.
    [ValidateTokensBatch] leaves the store as it is.
    [ValidateExistingTokens] keeps the emails table and the files; on a
    storage that was given the database it takes exactly the tokens whose
    probe ended with 401 or 424 out of the valid tokens of the store, and
    on a storage that was not it leaves the store as it is. *)
Theorem validators_and_the_store (env : Env) (vs : ValidatorService)
    (tokens totalEmails : list string) (io : IO) :
  let ps := Spec.probes env io (testEmailOf totalEmails) tokens in
  let existing := ValidateExistingTokens env vs tokens totalEmails io in
  let fresh := ValidateTokensBatch env vs tokens totalEmails io in
  n_http (snd existing) = (n_http io + length tokens)%nat /\
  n_http (snd fresh) = (n_http io + length tokens)%nat /\
  db (snd fresh) = db io /\
  Notions.storeKept io (snd existing) /\
  (Storage.dbStorageSet (vs_tokenStorage vs) = true ->
   forall t,
     In t (Database.GetValidTokens (db (snd existing))) <->
     In t (Database.GetValidTokens (db io)) /\ ~ In t (Spec.hardRejectedOf ps)) /\
  (Storage.dbStorageSet (vs_tokenStorage vs) = false -> db (snd existing) = db io) /\
  (tokens = [] ->
   existing = (inr Storage.ErrNoTokens, io) /\ fresh = (inr Storage.ErrNoTokens, io)).
Proof.
  cbv zeta.
  assert (Hk : Notions.storeKept io (snd (ValidateExistingTokens env vs tokens totalEmails io))).
  { apply (frame_ValidateExistingTokens env Notions.storeKept (vs_tokenStorage vs)).
    - apply storeKept_trans.
    - apply storeKept_quiet.
    - apply storeKept_remove.
    - reflexivity. }
  pose proof (validate_db_unwired env vs tokens totalEmails io) as Hu.
  destruct tokens as [|t0 ts].
  { cbn. repeat split; try reflexivity; try lia; tauto. }
  revert Hk Hu. unfold ValidateExistingTokens, ValidateTokensBatch.
  cbn [length Nat.eqb]. cbv zeta. rewrite !bind_run. unfold ret. cbn [fst snd].
  intros Hk Hu.
  destruct (validateExisting_fold_db env vs (testEmailOf totalEmails) (t0 :: ts) [] io)
    as (E1 & E2).
  destruct (validateBatch_fold_db env (testEmailOf totalEmails) (t0 :: ts) [] io)
    as (B1 & B2).
  cbv zeta in E1, E2, B1, B2.
  split; [exact E2|]. split; [exact B2|]. split; [exact B1|]. split; [exact Hk|].
  split.
  { intros Hts t. rewrite E1. apply valid_after_removals. exact Hts. }
  split; [exact Hu|]. discriminate.
Qed.

Lemma validators_and_the_store_witness :
  db (snd (ValidateExistingTokens (Samples.envAlways (HttpResponse 401 None))
             NewValidatorService ["T"] [] Samples.io0)) = db Samples.io0.
Proof.
  apply (proj1 (proj2 (proj2 (proj2 (proj2 (proj2
    (validators_and_the_store (Samples.envAlways (HttpResponse 401 None))
       NewValidatorService ["T"] [] Samples.io0))))))).
  reflexivity.
Defined.

End ValidatorProperties.

(** ** The retry machine of one email, continued *)

Section RetryFrame.
Import Models Crawler Orchestrator.
Variable env : Env.
Variable email : string.

Lemma sameBut_refl (rows : list Database.EmailRow) : Notions.sameBut email rows rows.
Proof.
  unfold Notions.sameBut. induction rows; constructor; auto.
Qed.

Lemma sameBut_trans (a b c : list Database.EmailRow) :
  Notions.sameBut email a b -> Notions.sameBut email b c -> Notions.sameBut email a c.
Proof.
  unfold Notions.sameBut. intros H. revert c.
  induction H as [|x y a b (H1 & H2 & H3) _ IH]; intros c Hc.
  - inversion Hc. constructor.
  - inversion Hc as [|y' z b' c' (G1 & G2 & G3) Hc']; subst. constructor; [|apply IH, Hc'].
    split; [congruence|]. split; [congruence|].
    intros Hne. rewrite G3 by congruence. apply H3, Hne.
Qed.

Lemma sameBut_updateEmail (f : Database.EmailRow -> Database.EmailRow) (d : Database.DB) :
  (forall r, Database.e_id (f r) = Database.e_id r /\
             Database.e_email (f r) = Database.e_email r) ->
  Notions.sameBut email (Database.emails d) (Database.emails (Database.updateEmail email f d)).
Proof.
  intros Hf. rewrite emails_updateEmail. unfold Notions.sameBut.
  induction (Database.emails d) as [|r rows IH]; cbn [map]; constructor; [|exact IH].
  destruct (String.eqb_spec (Database.e_email r) email) as [E|E].
  - destruct (Hf r) as [H1 H2]. split; [exact H1|]. split; [exact H2|]. congruence.
  - auto.
Qed.

Lemma grows_refl (s : string) : Notions.grows s s.
Proof.
  exists EmptyString. induction s as [|c s IH]; [reflexivity|].
  change (String c s = String c (s +:+ EmptyString)). f_equal. exact IH.
Qed.

Lemma string_app_assoc (a b c : string) : (a +:+ b) +:+ c = a +:+ (b +:+ c).
Proof.
  induction a as [|x a IH]; [reflexivity|].
  change (String x ((a +:+ b) +:+ c) = String x (a +:+ (b +:+ c))). f_equal. exact IH.
Qed.

Lemma grows_trans (a b c : string) :
  Notions.grows a b -> Notions.grows b c -> Notions.grows a c.
Proof.
  intros [t ->] [u ->]. exists (t +:+ u). apply string_app_assoc.
Qed.

Lemma ioKept_refl (i : IO) : Notions.ioKept email i i.
Proof.
  split; [apply sameBut_refl|]. split; [apply grows_refl|]. auto.
Qed.

Lemma ioKept_trans (a b c : IO) :
  Notions.ioKept email a b -> Notions.ioKept email b c -> Notions.ioKept email a c.
Proof.
  intros (A1 & A2 & A3 & A4) (B1 & B2 & B3 & B4).
  split; [eapply sameBut_trans; eassumption|].
  split; [eapply grows_trans; eassumption|].
  split; [congruence|]. intros t Ht. apply A4, B4, Ht.
Qed.

Lemma ioKept_storeKept (a b : IO) : Notions.storeKept a b -> Notions.ioKept email a b.
Proof.
  intros (H1 & H2 & H3 & H4).
  split; [rewrite H1; apply sameBut_refl|].
  split; [rewrite H2; apply grows_refl|]. auto.
Qed.

Lemma ioKept_quiet (a b : IO) :
  db b = db a -> hit_txt b = hit_txt a -> emails_txt b = emails_txt a ->
  Notions.ioKept email a b.
Proof. intros. apply ioKept_storeKept, storeKept_quiet; assumption. Qed.

Lemma ioKept_updateEmail (f : Database.EmailRow -> Database.EmailRow) (i : IO) :
  (forall r, Database.e_id (f r) = Database.e_id r /\
             Database.e_email (f r) = Database.e_email r) ->
  Notions.ioKept email i (snd (onDB (Database.updateEmail email f) i)).
Proof.
  intros Hf. cbn [onDB modify snd set_db db hit_txt emails_txt].
  split; [apply sameBut_updateEmail, Hf|].
  split; [apply grows_refl|]. split; [reflexivity|]. auto.
Qed.

Lemma crawlerKept_refl (c : option LinkedInCrawler) : Notions.crawlerKept c c.
Proof. destruct c; cbn; auto. Qed.

Lemma crawlerKept_trans (a b c : option LinkedInCrawler) :
  Notions.crawlerKept a b -> Notions.crawlerKept b c -> Notions.crawlerKept a c.
Proof.
  destruct a, b, c; cbn; try tauto.
  intros (A1 & A2 & A3) (B1 & B2 & B3). repeat split; try congruence.
  intros t Ht. apply B3, A3, Ht.
Qed.

Lemma retryKept_refl (w : World) : Notions.retryKept email w w.
Proof.
  split; [apply ioKept_refl|]. split; [apply crawlerKept_refl|]. destruct w; reflexivity.
Qed.

Lemma retryKept_trans (a b c : World) :
  Notions.retryKept email a b -> Notions.retryKept email b c -> Notions.retryKept email a c.
Proof.
  intros (A1 & A2 & A3) (B1 & B2 & B3).
  split; [eapply ioKept_trans; eassumption|].
  split; [eapply crawlerKept_trans; eassumption|].
  rewrite B3 at 1. rewrite A3. reflexivity.
Qed.

Lemma kept_liftIO {A : Type} (m : State IO A) :
  preserves (Notions.ioKept email) m ->
  preserves (Notions.retryKept email) (Orchestrator.liftIO m).
Proof.
  intros H w. unfold Orchestrator.liftIO. specialize (H (io w)).
  destruct (m (io w)) as [a i]. cbn [snd] in *.
  split; [exact H|]. split; [apply crawlerKept_refl|]. destruct w; reflexivity.
Qed.

Lemma kept_bumpStats (f : LinkedInCrawler -> LinkedInCrawler) :
  (forall lc, Tokens (f lc) = Tokens lc /\ TokensFilePath (f lc) = TokensFilePath lc /\
              InvalidTokens (f lc) = InvalidTokens lc) ->
  preserves (Notions.retryKept email) (bumpStats f).
Proof.
  intros Hf w. unfold bumpStats, modify. cbn [snd].
  split; [apply ioKept_refl|]. split; [|destruct w; reflexivity].
  cbn [crawler set_crawler]. destruct (crawler w) as [lc|]; cbn; [|exact I].
  destruct (Hf lc) as (H1 & H2 & H3). repeat split; try assumption.
  unfold isInvalid. rewrite H3. auto.
Qed.

Lemma kept_lookup (bp : BatchProcessor) (e : string) (lc : LinkedInCrawler) (w : World) :
  crawler w = Some lc ->
  Notions.retryKept email w (snd (Orchestrator.lookup env bp e lc w)).
Proof.
  intros Hc. unfold Orchestrator.lookup. rewrite onCrawler_run. cbn [snd].
  destruct (query_keeps env (queryService bp) e {| q_lc := lc; q_io := io w |}) as [Hs Hp].
  cbn [q_io q_lc] in Hs, Hp.
  split; [apply ioKept_storeKept; exact Hs|].
  split; [|destruct w; reflexivity].
  cbn [crawler set_io set_crawler]. rewrite Hc. cbn.
  destruct Hp as (P1 & _ & P3 & P4). auto.
Qed.

End RetryFrame.

Section RetryFrameSteps.
Import Models Crawler Orchestrator.
Variable env : Env.
Variable email : string.

Lemma preserves_for_range {S A : Type} (R : S -> S -> Prop) (n : nat) (i : Z)
    (body : Z -> State S (Ctl A)) :
  (forall s, R s s) -> (forall a b c, R a b -> R b c -> R a c) ->
  (forall j, preserves R (body j)) -> preserves R (for_range n i body).
Proof.
  intros Hr Ht Hb. revert i. induction n as [|n IH]; intros i.
  - apply preserves_ret. exact Hr.
  - cbn [for_range]. apply preserves_bind; [exact Ht|apply Hb|].
    intros [| |a]; [apply IH|apply preserves_ret; exact Hr|apply preserves_ret; exact Hr].
Qed.

Lemma kept_emit (e : Event) : preserves (Notions.ioKept email) (emit e).
Proof. intros i. apply ioKept_quiet; reflexivity. Qed.

Lemma kept_Intn (n : nat) : preserves (Notions.ioKept email) (Intn env n).
Proof. intros i. apply ioKept_quiet; reflexivity. Qed.

Lemma kept_UpdateEmailStatus (st : Database.EmailStatus) :
  preserves (Notions.ioKept email) (onDB (Database.UpdateEmailStatus email st)).
Proof. intros i. apply ioKept_updateEmail. intros r. split; reflexivity. Qed.

Lemma kept_UpdateEmailWithProfile (profile : ProfileData) :
  preserves (Notions.ioKept email) (onDB (Database.UpdateEmailWithProfile email profile)).
Proof. intros i. apply ioKept_updateEmail. intros r. split; reflexivity. Qed.

Lemma kept_IncrementRetryCount (lastError : string) :
  preserves (Notions.ioKept email) (onDB (Database.IncrementRetryCount email lastError)).
Proof. intros i. apply ioKept_updateEmail. intros r. split; reflexivity. Qed.

Lemma kept_WriteProfileToFile (e : string) (profile : ProfileData) :
  preserves (Notions.ioKept email) (WriteProfileToFile e profile).
Proof.
  intros i. cbn [WriteProfileToFile modify snd].
  split; [apply sameBut_refl|]. split; [eexists; reflexivity|]. split; [reflexivity|]. auto.
Qed.

Lemma kept_addSuccess : preserves (Notions.retryKept email) (bumpStats addSuccess).
Proof. apply kept_bumpStats. intros lc. repeat split. Qed.

Lemma kept_addFailed : preserves (Notions.retryKept email) (bumpStats addFailed).
Proof. apply kept_bumpStats. intros lc. repeat split. Qed.

Ltac kept_step :=
  first
    [ apply preserves_ret; apply retryKept_refl
    | apply kept_addSuccess | apply kept_addFailed
    | apply kept_liftIO;
      first [ apply kept_emit | apply kept_Intn | apply kept_UpdateEmailStatus
            | apply kept_UpdateEmailWithProfile | apply kept_IncrementRetryCount
            | apply kept_WriteProfileToFile ]
    | apply preserves_bind; [apply retryKept_trans| |intros ?]
    | match goal with
      | |- preserves _ (if ?b then _ else _) => destruct b
      | |- preserves _ (match ?x with _ => _ end) => destruct x
      end ].

Lemma kept_handleResponse (maxRetries attempt : Z) (hasProfile : bool) (body : string)
    (statusCode : Z) :
  preserves (Notions.retryKept email)
    (handleResponse env email maxRetries attempt hasProfile body statusCode).
Proof.
  unfold handleResponse, recordNoData, LogLine, Sleep. repeat kept_step.
Qed.

Lemma kept_retryAttempt (bp : BatchProcessor) (maxRetries attempt : Z) :
  preserves (Notions.retryKept email) (retryAttempt env bp email maxRetries attempt).
Proof.
  intros w. unfold retryAttempt. rewrite bind_run. unfold get. cbn [fst snd].
  destruct (shutdownRequested w =? 1)%Z; [apply retryKept_refl|].
  destruct (crawler w) as [lc|] eqn:Hc; [|apply retryKept_refl].
  destruct (AllTokensFailed lc).
  - revert w Hc. intros w _. revert w.
    change (preserves (Notions.retryKept email)
              (Orchestrator.liftIO (LogLine (LogAllTokensFailed email));; ret (Return false))).
    unfold LogLine. repeat kept_step.
  - rewrite bind_run. eapply retryKept_trans; [apply (kept_lookup env email bp email lc w Hc)|].
    destruct (fst (Orchestrator.lookup env bp email lc w)) as [[[hp body] st] err].
    apply kept_handleResponse.
Qed.

Lemma kept_retryEmailWithNewLogic (bp : BatchProcessor) (maxRetries : Z) :
  preserves (Notions.retryKept email) (retryEmailWithNewLogic env bp email maxRetries).
Proof.
  unfold retryEmailWithNewLogic.
  apply preserves_bind; [apply retryKept_trans| |].
  - apply preserves_for_range;
      [apply retryKept_refl|apply retryKept_trans|intros j; apply kept_retryAttempt].
  - intros [success|]; unfold LogLine; repeat kept_step.
Qed.

(** *** Counting the requests of a run *)

Lemma atMost_world_liftIO {A : Type} (k : nat) (m : State IO A) :
  Notions.atMost n_http k m ->
  Notions.atMost (fun w => n_http (io w)) k (Orchestrator.liftIO m).
Proof.
  intros H w. unfold Orchestrator.liftIO. specialize (H (io w)).
  destruct (m (io w)) as [a i]. exact H.
Qed.

Lemma atMost_bumpStats (k : nat) (f : LinkedInCrawler -> LinkedInCrawler) :
  Notions.atMost (fun w => n_http (io w)) k (bumpStats f).
Proof. intros w. cbn. lia. Qed.

Lemma atMost_onDB (k : nat) (f : Database.DB -> Database.DB) :
  Notions.atMost n_http k (onDB f).
Proof. intros i. cbn. lia. Qed.

Lemma atMost_WriteProfileToFile (k : nat) (e : string) (profile : ProfileData) :
  Notions.atMost n_http k (WriteProfileToFile e profile).
Proof. intros i. cbn. lia. Qed.

Ltac quiet_step :=
  first
    [ apply atMost_ret | apply atMost_bumpStats
    | apply atMost_world_liftIO;
      first [ apply atMost_emit | apply (atMost_Intn env) | apply atMost_onDB
            | apply atMost_WriteProfileToFile ]
    | apply (atMost_bind _ 0 0); [ | intros ? | lia]
    | match goal with
      | |- Notions.atMost _ _ (if ?b then _ else _) => destruct b
      | |- Notions.atMost _ _ (match ?x with _ => _ end) => destruct x
      end ].

Lemma atMost_handleResponse (maxRetries attempt : Z) (hasProfile : bool) (body : string)
    (statusCode : Z) :
  Notions.atMost (fun w => n_http (io w)) 0
    (handleResponse env email maxRetries attempt hasProfile body statusCode).
Proof.
  unfold handleResponse, recordNoData, LogLine, Sleep. repeat quiet_step.
Qed.

Lemma atMost_lookup (bp : BatchProcessor) (lc : LinkedInCrawler) :
  Notions.atMost (fun w => n_http (io w)) 2 (Orchestrator.lookup env bp email lc).
Proof.
  intros w. unfold Orchestrator.lookup. rewrite onCrawler_run. cbn [snd io set_io].
  apply (atMost_QueryProfileWithRetryLogic env (queryService bp) email
           {| q_lc := lc; q_io := io w |}).
Qed.

Lemma atMost_retryAttempt (bp : BatchProcessor) (maxRetries attempt : Z) :
  Notions.atMost (fun w => n_http (io w)) 2 (retryAttempt env bp email maxRetries attempt).
Proof.
  intros w. unfold retryAttempt. rewrite bind_run. unfold get. cbn [fst snd].
  destruct (shutdownRequested w =? 1)%Z; [cbn; lia|].
  destruct (crawler w) as [lc|]; [|cbn; lia].
  destruct (AllTokensFailed lc); [cbn; lia|].
  rewrite bind_run.
  pose proof (atMost_lookup bp lc w) as H1.
  destruct (fst (Orchestrator.lookup env bp email lc w)) as [[[hp body] st] err].
  pose proof (atMost_handleResponse maxRetries attempt hp body st
                (snd (Orchestrator.lookup env bp email lc w))) as H2.
  cbv beta in H1, H2. lia.
Qed.

Lemma atMost_retryEmailWithNewLogic (bp : BatchProcessor) (maxRetries : Z) :
  Notions.atMost (fun w => n_http (io w)) (2 * Z.to_nat maxRetries)
    (retryEmailWithNewLogic env bp email maxRetries).
Proof.
  unfold retryEmailWithNewLogic.
  apply (atMost_bind _ (Z.to_nat maxRetries * 2) 0); [| |lia].
  - apply atMost_for_range. intros j. apply atMost_retryAttempt.
  - intros [success|]; unfold LogLine; repeat quiet_step.
Qed.

End RetryFrameSteps.

Section RetryEdges.
Import Models Crawler Orchestrator.
Variable env : Env.

Lemma for_range_idle {S A : Type} (n : nat) (i : Z) (body : Z -> State S (Ctl A)) (s : S) :
  (forall j, body j s = (Continue, s)) -> for_range n i body s = (None, s).
Proof.
  intros H. revert i. induction n as [|n IH]; intros i; [reflexivity|].
  rewrite for_range_continue by (rewrite H; reflexivity). rewrite H. apply IH.
Qed.

Lemma retryEmailWithNewLogic_gives_up (bp : BatchProcessor) (email : string)
    (maxRetries : Z) (w : World) :
  for_range (Z.to_nat maxRetries) 1 (retryAttempt env bp email maxRetries) w = (None, w) ->
  let r := retryEmailWithNewLogic env bp email maxRetries w in
  fst r = false /\
  n_http (io (snd r)) = n_http (io w) /\
  db (io (snd r)) =
    Database.IncrementRetryCount email "Failed after max retries"
      (Database.UpdateEmailStatus email Database.EmailStatusFailed (db (io w))) /\
  trace (io (snd r)) = trace (io w) ++ [EvLog (LogFailed email maxRetries)] /\
  hit_txt (io (snd r)) = hit_txt (io w).
Proof.
  intros H. cbv zeta. unfold retryEmailWithNewLogic. rewrite bind_run, H.
  cbn [fst snd]. rewrite !bind_run. cbn. repeat split.
Qed.

End RetryEdges.

Section RetryProperties.
Import Models Crawler Orchestrator.

(** X21: the footprint of the handling of one email.  Whatever the endpoint
    answers, [retryEmailWithNewLogic] sends at most two requests for each
    of the [maxRetries] attempts; in the emails table it changes at most
    the row of the email, which keeps its id; it only appends to the output
    file, leaves the emails file as it is and makes no token of the store
    valid; the crawler keeps its tokens and the marks of the invalid ones;
    and the rest of the state, the four sets of emails included, is as it
    was. *)
Theorem retryEmailWithNewLogic_footprint (env : Env) (bp : BatchProcessor)
    (email : string) (maxRetries : Z) (w : World) :
  let w' := snd (retryEmailWithNewLogic env bp email maxRetries w) in
  Notions.retryKept email w w' /\
  (n_http (io w) <= n_http (io w') <= n_http (io w) + 2 * Z.to_nat maxRetries)%nat /\
  successEmailsWithData w' = successEmailsWithData w /\
  successEmailsWithoutData w' = successEmailsWithoutData w /\
  failedEmails w' = failedEmails w /\ permanentFailed w' = permanentFailed w /\
  shutdownRequested w' = shutdownRequested w /\ totalEmails w' = totalEmails w.
Proof.
  cbv zeta.
  pose proof (kept_retryEmailWithNewLogic env email bp maxRetries w) as Hk.
  split; [exact Hk|].
  split; [apply (atMost_retryEmailWithNewLogic env email bp maxRetries w)|].
  destruct Hk as (_ & _ & ->). repeat split.
Qed.

(** X22: the runs that send no request.  With the shutdown requested the run
    returns false and changes nothing.  With the flag [AllTokensFailed] of
    the crawler set it returns false and only logs a line: the row of the
    email is not written.  With [maxRetries] below 1, or with no crawler
    set, no attempt queries the endpoint and the email is recorded as
    failed: status [failed], one more retry, the last error set. *)
Theorem retryEmailWithNewLogic_without_query (env : Env) (bp : BatchProcessor)
    (email : string) (maxRetries : Z) (w : World) :
  let r := retryEmailWithNewLogic env bp email maxRetries w in
  ((0 < maxRetries)%Z -> shutdownRequested w = 1%Z -> r = (false, w)) /\
  ((0 < maxRetries)%Z -> shutdownRequested w <> 1%Z ->
   forall lc, crawler w = Some lc -> AllTokensFailed lc = true ->
   r = (false,
        set_io (set_trace (trace (io w) ++ [EvLog (LogAllTokensFailed email)]) (io w)) w)) /\
  ((maxRetries <= 0)%Z \/ (shutdownRequested w <> 1%Z /\ crawler w = None) ->
   fst r = false /\
   n_http (io (snd r)) = n_http (io w) /\
   db (io (snd r)) =
     Database.IncrementRetryCount email "Failed after max retries"
       (Database.UpdateEmailStatus email Database.EmailStatusFailed (db (io w))) /\
   trace (io (snd r)) = trace (io w) ++ [EvLog (LogFailed email maxRetries)] /\
   hit_txt (io (snd r)) = hit_txt (io w)).
Proof.
  cbv zeta. split; [|split].
  - intros Hm Hs. unfold retryEmailWithNewLogic. rewrite bind_run.
    destruct (Z.to_nat maxRetries) as [|n] eqn:En; [lia|].
    assert (E : retryAttempt env bp email maxRetries 1 w = (Return false, w)).
    { unfold retryAttempt. rewrite bind_run. unfold get. cbn [fst snd].
      rewrite Hs. reflexivity. }
    rewrite (for_range_return n 1 _ w false) by (rewrite E; reflexivity).
    rewrite E. reflexivity.
  - intros Hm Hs lc Hc Ha. unfold retryEmailWithNewLogic. rewrite bind_run.
    destruct (Z.to_nat maxRetries) as [|n] eqn:En; [lia|].
    assert (E : retryAttempt env bp email maxRetries 1 w =
                (Return false,
                 set_io (set_trace (trace (io w) ++ [EvLog (LogAllTokensFailed email)])
                           (io w)) w)).
    { unfold retryAttempt. rewrite bind_run. unfold get. cbn [fst snd].
      destruct (Z.eqb_spec (shutdownRequested w) 1); [contradiction|].
      rewrite Hc, Ha. reflexivity. }
    rewrite (for_range_return n 1 _ w false) by (rewrite E; reflexivity).
    rewrite E. reflexivity.
  - intros H. apply retryEmailWithNewLogic_gives_up.
    destruct H as [Hm|[Hs Hc]].
    + replace (Z.to_nat maxRetries) with 0%nat by lia. reflexivity.
    + apply for_range_idle. intros j. unfold retryAttempt. rewrite bind_run.
      unfold get. cbn [fst snd].
      destruct (Z.eqb_spec (shutdownRequested w) 1); [contradiction|].
      rewrite Hc. reflexivity.
Qed.

Lemma retryEmailWithNewLogic_without_query_witness :
  fst (retryEmailWithNewLogic (Samples.envAlways TransportError) NewBatchProcessor
         "a@x.com" 5 Samples.worldOneEmail) = false.
Proof.
  refine (proj1 (proj2 (proj2
    (retryEmailWithNewLogic_without_query (Samples.envAlways TransportError)
       NewBatchProcessor "a@x.com" 5 Samples.worldOneEmail)) _)).
  right. split; [vm_compute; discriminate|reflexivity].
Defined.

End RetryProperties.

(** ** The queries of the state manager *)

Section RemainingFacts.
Import Database.

Lemma GetRemainingEmails_length (d : DB) :
  length (GetRemainingEmails d) = length (List.filter isRemaining (emails d)).
Proof.
  unfold GetRemainingEmails. rewrite length_map.
  apply Permutation_length, orderByRetry_perm.
Qed.

Lemma insertByRetry_last (r : EmailRow) (rows : list EmailRow) :
  Forall (fun r' => (e_retry_count r' <= e_retry_count r)%Z) rows ->
  insertByRetry r rows = rows ++ [r].
Proof.
  induction 1 as [|r' rows Hr _ IH]; [reflexivity|].
  cbn [insertByRetry]. destruct (Z.leb_spec (e_retry_count r') (e_retry_count r)); [|lia].
  rewrite IH. reflexivity.
Qed.

Lemma orderByRetry_fold_fresh (rows acc : list EmailRow) :
  Forall (fun r => e_retry_count r = 0%Z) rows ->
  Forall (fun r => e_retry_count r = 0%Z) acc ->
  fold_left (fun acc r => insertByRetry r acc) rows acc = acc ++ rows.
Proof.
  intros Hr. revert acc. induction Hr as [|r rows H0 _ IH]; intros acc Ha.
  - rewrite app_nil_r. reflexivity.
  - cbn [fold_left]. rewrite insertByRetry_last.
    + rewrite IH; [rewrite <- app_assoc; reflexivity|].
      apply Forall_app. split; [exact Ha|]. constructor; [exact H0|constructor].
    + eapply List.Forall_impl; [|exact Ha]. intros a E. cbv beta in E. lia.
Qed.

End RemainingFacts.

Section StateManagerProperties.
Import Database.

(** X23: the three queries of the state manager agree.  The count is the
    length of the list [GetRemainingEmails] returns, and
    [HasEmailsToProcess] holds exactly when that list is not empty, which
    is when the table holds a row with status [pending] or [failed]. *)
Theorem StateManager_queries_agree (d : Database.DB) :
  StateManager.CountRemainingEmails d =
    Z.of_nat (length (StateManager.GetRemainingEmails d)) /\
  (StateManager.HasEmailsToProcess d = true <-> StateManager.GetRemainingEmails d <> []) /\
  (StateManager.HasEmailsToProcess d = true <->
   exists r, In r (Database.emails d) /\
             (Database.e_status r = Database.EmailStatusPending \/
              Database.e_status r = Database.EmailStatusFailed)).
Proof.
  unfold StateManager.CountRemainingEmails, StateManager.GetRemainingEmails,
    StateManager.HasEmailsToProcess, CountRemainingEmails.
  rewrite GetRemainingEmails_length. split; [reflexivity|].
  assert (Hl : (0 <? Z.of_nat (length (List.filter isRemaining (emails d))))%Z = true <->
               List.filter isRemaining (emails d) <> []).
  { destruct (List.filter isRemaining (emails d)) as [|r l]; cbn [length].
    - split; [discriminate|congruence].
    - split; [discriminate|]. intros _. apply Z.ltb_lt. lia. }
  split.
  - rewrite Hl. pose proof (GetRemainingEmails_length d) as E.
    destruct (GetRemainingEmails d), (List.filter isRemaining (emails d));
      cbn in E; split; congruence.
  - rewrite Hl. split.
    + intros Hne. destruct (List.filter isRemaining (emails d)) as [|r l] eqn:E;
        [congruence|].
      assert (Hin : In r (List.filter isRemaining (emails d))) by (rewrite E; left; reflexivity).
      apply filter_In in Hin. destruct Hin as [Hin Hr]. exists r. split; [exact Hin|].
      unfold isRemaining in Hr. destruct (e_status r); try discriminate; auto.
    + intros (r & Hin & Hr) E.
      assert (Hf : In r (List.filter isRemaining (emails d))).
      { apply filter_In. split; [exact Hin|]. unfold isRemaining.
        destruct Hr as [-> | ->]; reflexivity. }
      rewrite E in Hf. exact Hf.
Qed.

End StateManagerProperties.

(** ** The state [New] builds *)

Section StartFacts.
Import Database.

Lemma fresh_rows_remaining (rows : list EmailRow) :
  Forall Notions.freshRow rows ->
  List.filter isRemaining rows = rows /\
  filter (fun r => e_status r = EmailStatusPending) rows = rows /\
  orderByRetry rows = rows.
Proof.
  intros H. split; [|split].
  - induction H as [|r rows (Hs & _) _ IH]; [reflexivity|].
    cbn [List.filter]. unfold isRemaining at 1. rewrite Hs, IH. reflexivity.
  - apply filter_all_pending. eapply List.Forall_impl; [|exact H].
    intros r (Hs & _). exact Hs.
  - unfold orderByRetry. rewrite orderByRetry_fold_fresh; [reflexivity| |constructor].
    eapply List.Forall_impl; [|exact H]. intros r (_ & Hr & _). exact Hr.
Qed.

Lemma fold_snoc_all (f : list string -> string -> list string) (l acc : list string) :
  (forall acc x, f acc x = acc ++ [x]) -> fold_left f l acc = acc ++ l.
Proof.
  intros Hf. revert acc. induction l as [|x l IH]; intros acc; cbn [fold_left].
  - rewrite app_nil_r. reflexivity.
  - rewrite IH, Hf, <- app_assoc. reflexivity.
Qed.

End StartFacts.

Section StartProperties.
Import Models Orchestrator.

(** X24: the state [New] builds.  Every email the import stored is pending,
    so the list [totalEmails], the list [GetRemainingEmails] reads from the
    store, the list [LoadEmailsFromFile] returns and the list the shutdown
    hook computes from the four empty sets are one and the same list, in
    file order and without duplicates; no crawler is set and no shutdown
    is requested. *)
Theorem New_remaining_work (config : Config) (accounts : list Account)
    (emailsContent tokensContent : string) :
  let w := Orchestrator.New config accounts emailsContent tokensContent in
  StateManager.GetRemainingEmails (db (io w)) = totalEmails w /\
  Storage.LoadEmailsFromFile (emailStorage w) (db (io w)) = inl (totalEmails w) /\
  remainingEmailsOf w = totalEmails w /\
  StateManager.CountRemainingEmails (db (io w)) = Z.of_nat (length (totalEmails w)) /\
  NoDup (totalEmails w) /\
  crawler w = None /\ shutdownRequested w = 0%Z.
Proof.
  cbv zeta.
  set (d := Storage.ImportTokensFromFile tokensContent
              (Storage.ImportEmailsFromFile emailsContent Database.InitSchema)).
  assert (Hd : db (io (Orchestrator.New config accounts emailsContent tokensContent)) = d)
    by reflexivity.
  assert (Ht : totalEmails (Orchestrator.New config accounts emailsContent tokensContent) =
               Database.GetPendingEmails 0 d) by reflexivity.
  assert (He : Database.emails d =
               Database.emails (Storage.ImportEmailsFromFile emailsContent Database.InitSchema)).
  { unfold d, Storage.ImportTokensFromFile. cbv zeta.
    destruct (AddTokens_appends
                (fold_left
                   (fun tokens line =>
                      let token := GoStrings.TrimSpace line in
                      if negb (String.eqb token "")
                      then tokens ++ [GoStrings.TrimPrefix token "Bearer "]
                      else tokens)
                   (GoStrings.Split tokensContent GoStrings.LF) [])
                (Storage.ImportEmailsFromFile emailsContent Database.InitSchema))
      as (added & _ & _ & E). exact E. }
  destruct (ImportEmails_appends (Storage.emailsOfFile emailsContent) Database.InitSchema)
    as (added & Ea & Fa & _).
  cbn [Database.InitSchema Database.emails app] in Ea.
  fold (Storage.ImportEmailsFromFile emailsContent Database.InitSchema) in Ea.
  destruct (fresh_rows_remaining added Fa) as (F1 & F2 & F3).
  assert (Hp : Database.GetPendingEmails 0 d = map Database.e_email added).
  { unfold Database.GetPendingEmails, Database.sqlLimit. cbn [Z.ltb Z.compare].
    rewrite He, Ea, F2. reflexivity. }
  assert (Hr : Database.GetRemainingEmails d = map Database.e_email added).
  { unfold Database.GetRemainingEmails. rewrite He, Ea, F1, F3. reflexivity. }
  rewrite Hd, Ht, Hp.
  split; [exact Hr|]. split; [cbn; rewrite Hr; reflexivity|]. split.
  { unfold remainingEmailsOf.
    change (failedEmails (Orchestrator.New config accounts emailsContent tokensContent))
      with (∅ : gset string).
    rewrite elements_empty. cbn [fold_left].
    rewrite Ht, Hp. apply fold_snoc_all. intros acc x.
    cbn [successEmailsWithData successEmailsWithoutData permanentFailed Orchestrator.New].
    rewrite bool_decide_eq_true_2 by apply not_elem_of_empty. reflexivity. }
  split.
  { unfold StateManager.CountRemainingEmails, Database.CountRemainingEmails.
    rewrite He, Ea, F1, length_map. reflexivity. }
  split; [|split; reflexivity].
  pose proof (ImportEmails_wellFormed (Storage.emailsOfFile emailsContent)
                Database.InitSchema InitSchema_wellFormed) as (Hn & _).
  fold (Storage.ImportEmailsFromFile emailsContent Database.InitSchema) in Hn.
  rewrite Ea in Hn. exact Hn.
Qed.

End StartProperties.

(** ** The sweep, continued *)

Section SweepEdges.
Import Models Orchestrator.

(** X25: the sweeps that end at once.  With no email left to retry (or an
    email storage that cannot read the store) [RetryFailedEmails] returns
    no error and changes nothing.  With emails left, no valid token in the
    store and no account left to mint one, it returns no error after the
    pause of ten seconds, and that pause is all it does; with an account
    left, an error of [getTokensBatch] ends the sweep with that error. *)
Theorem RetryFailedEmails_ends_at_once (env : Env)
    (getTokensBatch : State World (list string + Storage.error))
    (crawlWithCurrentTokens : list string -> State World (Z * option Storage.error))
    (bp : BatchProcessor) (w : World) :
  let r := RetryFailedEmails env getTokensBatch crawlWithCurrentTokens bp w in
  let paused := set_io (set_trace (trace (io w) ++ [EvSleep 10000]) (io w)) w in
  (remainingCount w = 0%Z -> r = (None, w)) /\
  (remainingCount w <> 0%Z ->
   (forall t ts, Storage.LoadTokensFromFile (tokenStorage w) (db (io w)) <> inl (t :: ts)) ->
   ((Z.of_nat (length (accounts w)) <= usedAccountIndex w)%Z -> r = (None, paused)) /\
   ((usedAccountIndex w < Z.of_nat (length (accounts w)))%Z ->
    forall err, fst (getTokensBatch paused) = inr err -> fst r = Some err)).
Proof.
  cbv zeta. unfold RetryFailedEmails. cbv zeta.
  change (Z.to_nat 7) with 7%nat.
  split.
  - intros H0. rewrite bind_run.
    assert (E : retryRound env getTokensBatch crawlWithCurrentTokens bp 1 w =
                (Return None, w)).
    { unfold retryRound. rewrite bind_run. unfold get. cbn [fst snd].
      unfold remainingCount in H0.
      destruct (Storage.LoadEmailsFromFile (emailStorage w) (db (io w))) as [[|e es]|err];
        [reflexivity| |reflexivity].
      cbn [length] in H0. lia. }
    rewrite (for_range_return 6 1 _ w None) by (rewrite E; reflexivity).
    rewrite E. reflexivity.
  - intros Hr Hno.
    assert (Hl : exists e es,
               Storage.LoadEmailsFromFile (emailStorage w) (db (io w)) = inl (e :: es)).
    { unfold remainingCount in Hr.
      destruct (Storage.LoadEmailsFromFile (emailStorage w) (db (io w))) as [[|e es]|err];
        [contradiction|eauto|contradiction]. }
    destruct Hl as (e & es & Hl).
    set (paused := set_io (set_trace (trace (io w) ++ [EvSleep 10000]) (io w)) w).
    split.
    + intros Hacc. rewrite bind_run.
      assert (E : retryRound env getTokensBatch crawlWithCurrentTokens bp 1 w =
                  (Return None, paused)).
      { unfold retryRound. rewrite bind_run. unfold get. cbn [fst snd]. rewrite Hl.
        rewrite bind_run.
        change (snd (Orchestrator.liftIO (Sleep 10000) w)) with paused.
        cbn [fst]. rewrite bind_run.
        destruct (Storage.LoadTokensFromFile (tokenStorage w) (db (io w)))
          as [[|t ts]|err] eqn:Et.
        * destruct (Z.ltb_spec (usedAccountIndex w) (Z.of_nat (length (accounts w))));
            [lia|reflexivity].
        * exfalso. exact (Hno t ts eq_refl).
        * destruct (Z.ltb_spec (usedAccountIndex w) (Z.of_nat (length (accounts w))));
            [lia|reflexivity]. }
      rewrite (for_range_return 6 1 _ w None) by (rewrite E; reflexivity).
      rewrite E. reflexivity.
    + intros Hacc err Hg. rewrite bind_run.
      assert (E : fst (retryRound env getTokensBatch crawlWithCurrentTokens bp 1 w) =
                  Return (Some err)).
      { unfold retryRound. rewrite bind_run. unfold get. cbn [fst snd]. rewrite Hl.
        rewrite bind_run.
        change (snd (Orchestrator.liftIO (Sleep 10000) w)) with paused.
        cbn [fst]. rewrite bind_run.
        destruct (Storage.LoadTokensFromFile (tokenStorage w) (db (io w)))
          as [[|t ts]|err'] eqn:Et.
        * destruct (Z.ltb_spec (usedAccountIndex w) (Z.of_nat (length (accounts w))));
            [|lia].
          rewrite bind_run, Hg. reflexivity.
        * exfalso. exact (Hno t ts eq_refl).
        * destruct (Z.ltb_spec (usedAccountIndex w) (Z.of_nat (length (accounts w))));
            [|lia].
          rewrite bind_run, Hg. reflexivity. }
      rewrite (for_range_return 6 1 _ w (Some err) E). reflexivity.
Qed.

Lemma RetryFailedEmails_ends_at_once_witness :
  RetryFailedEmails (Samples.envAlways TransportError) (ret (inl []))
    (fun _ => ret (0%Z, None)) NewBatchProcessor Samples.worldOneDone =
  (None, Samples.worldOneDone).
Proof.
  apply (proj1 (RetryFailedEmails_ends_at_once (Samples.envAlways TransportError)
                  (ret (inl [])) (fun _ => ret (0%Z, None)) NewBatchProcessor
                  Samples.worldOneDone)).
  vm_compute. reflexivity.
Defined.

End SweepEdges.

(** ** The profile parser, continued *)

Section ExtractEdges.
Import Models Crawler.

(** X26: the bodies [ExtractProfileData] reads nothing from.  It returns an
    error exactly when the body does not decode into a map, and the
    profile is empty then; whenever the body decodes and [persons] is
    missing, is no array, is empty or holds something else than an object
    first, it returns the empty profile and no error. *)
Theorem ExtractProfileData_edges (env : Env) (body : string) :
  let r := ExtractProfileData env body in
  (snd r = None <-> exists data, Json.Unmarshal_map (json_decode env body) = Some data) /\
  (snd r <> None -> r = (emptyProfile, Some Storage.ErrOther)) /\
  (forall data,
     Json.Unmarshal_map (json_decode env body) = Some data ->
     (forall p rest, data !! "persons" <> Some (Json.JArray (Json.JObject p :: rest))) ->
     r = (emptyProfile, None)).
Proof.
  cbv zeta. unfold ExtractProfileData.
  destruct (Json.Unmarshal_map (json_decode env body)) as [data|].
  - split; [|split].
    + split; [eauto|]. intros _.
      destruct (data !! "persons") as [[| | | |[|[] ?]|]|]; reflexivity.
    + intros H. exfalso. apply H.
      destruct (data !! "persons") as [[| | | |[|[] ?]|]|]; reflexivity.
    + intros d [= <-] Hp.
      destruct (data !! "persons") as [[| | | |[|[] ?]|]|]; try reflexivity.
      exfalso. eapply Hp. reflexivity.
  - split; [|split].
    + split; [discriminate|]. intros [d Hd]. discriminate Hd.
    + reflexivity.
    + intros d Hd. discriminate Hd.
Qed.

Lemma ExtractProfileData_edges_witness :
  ExtractProfileData (Samples.envAlways TransportError) "not json" =
  (emptyProfile, Some Storage.ErrOther).
Proof.
  apply (proj1 (proj2 (ExtractProfileData_edges (Samples.envAlways TransportError)
                         "not json"))).
  vm_compute. discriminate.
Defined.

End ExtractEdges.

(** ** The list of remaining emails the state manager computes *)

Section RemainingList.

Lemma append_new_In (l acc : list string) (x : string) :
  In x (fold_left
          (fun remainingEmails email =>
             if bool_decide (email ∈ remainingEmails) then remainingEmails
             else remainingEmails ++ [email])
          l acc) <->
  In x acc \/ In x l.
Proof.
  revert acc. induction l as [|y l IH]; intros acc; cbn [fold_left].
  - cbn. tauto.
  - rewrite IH. case_bool_decide as Hy.
    + apply list_elem_of_In in Hy. cbn [In]. intuition congruence.
    + rewrite in_app_iff. cbn [In]. tauto.
Qed.

Lemma append_new_NoDup (l acc : list string) :
  List.NoDup acc ->
  List.NoDup
    (fold_left
       (fun remainingEmails email =>
          if bool_decide (email ∈ remainingEmails) then remainingEmails
          else remainingEmails ++ [email])
       l acc).
Proof.
  revert acc. induction l as [|y l IH]; intros acc Ha; cbn [fold_left]; [exact Ha|].
  apply IH. case_bool_decide as Hy; [exact Ha|].
  apply NoDup_ListNoDup. apply NoDup_app. split; [apply NoDup_ListNoDup; exact Ha|].
  split; [|apply NoDup_singleton].
  intros z Hz Hz'. apply list_elem_of_singleton in Hz'. subst z. exact (Hy Hz).
Qed.

End RemainingList.

Section RemainingListProperties.
Import Models Orchestrator.

(** X27: the list of remaining emails that [SaveStateOnShutdown] and
    [UpdateEmailsFile] compute.  An email is listed exactly when it is one
    of [totalEmails] that is in none of the sets of the emails with data,
    without data and permanently failed, or when it is in the set of the
    failed emails: a failed email is listed whatever the other sets hold.
    When [totalEmails] has no duplicates the list has none.
    [UpdateEmailsFile] hands the list to [WriteEmailsToFile] and, like the
    hook, changes nothing. *)
Theorem remainingEmailsOf_lists (w : World) :
  (forall e,
     In e (remainingEmailsOf w) <->
     (In e (totalEmails w) /\ (e ∉ successEmailsWithData w) /\
      (e ∉ successEmailsWithoutData w) /\ (e ∉ permanentFailed w)) \/
     (e ∈ failedEmails w)) /\
  (List.NoDup (totalEmails w) -> List.NoDup (remainingEmailsOf w)) /\
  UpdateEmailsFile w = (tt, w).
Proof.
  unfold remainingEmailsOf.
  rewrite (fold_left_keep
             (fun email =>
                bool_decide (email ∉ successEmailsWithData w)
                && bool_decide (email ∉ successEmailsWithoutData w)
                && bool_decide (email ∉ permanentFailed w))
             (fun email => email)).
  cbn [app]. rewrite map_id.
  split; [|split].
  - intros e. rewrite append_new_In, filter_In, !andb_true_iff, !bool_decide_eq_true.
    rewrite <- (list_elem_of_In (elements (failedEmails w)) e), elem_of_elements. tauto.
  - intros Hn. apply append_new_NoDup. apply List.NoDup_filter. exact Hn.
  - reflexivity.
Qed.

End RemainingListProperties.
